(** * Xanadu quantum challenges: a shallow embedding of the exercise scripts

    The scripts compute with double-precision numbers through NumPy and
    PennyLane.  Numbers are modelled here as real numbers ([R]) and complex
    numbers as pairs of reals; PennyLane's gates have the matrices its
    documentation gives.  Where the rounding of double-precision arithmetic
    decides the result, in the quotient of the parameter-shift rule, the
    function is modelled a second time on binary64 numbers
    ([GradientsFloat]). *)

From Stdlib Require Import Reals Lra Lia Psatz List String Ascii ZArith Bool.
From Stdlib Require Import DecimalString ClassicalEpsilon.
From Stdlib Require Floats.
Import ListNotations.

Set Warnings "-register-all,-inexact-float".
Open Scope R_scope.

(* ================================================================== *)
(** * Python results and exceptions *)

Module Py.

(** The exception classes the scripts can meet.  [KeyboardInterrupt] and
    [SystemExit] derive from [BaseException] only. *)
Inductive exn_class : Type :=
| AssertionError
| ValueError
| TypeError
| IndexError
| WireError
| JSONDecodeError
| QuantumFunctionError
| KeyboardInterrupt
| SystemExit.

Record exn : Type := mkExn { exn_cls : exn_class; exn_str : string }.

(** [isinstance(exc, Exception)] *)
Definition is_Exception (e : exn) : bool :=
  match exn_cls e with
  | KeyboardInterrupt | SystemExit => false
  | _ => true
  end.

Inductive result (A : Type) : Type :=
| Ok (a : A)
| Raise (e : exn).
Arguments Ok {A} a.
Arguments Raise {A} e.

Definition bind {A B} (m : result A) (k : A -> result B) : result B :=
  match m with
  | Ok a => k a
  | Raise e => Raise e
  end.

Definition ret {A} (a : A) : result A := Ok a.

(** [assert cond, msg] *)
Definition assert_ (cond : bool) (msg : string) : result unit :=
  if cond then Ok tt else Raise (mkExn AssertionError msg).

(** Sequence the results of a list of computations, left to right. *)
Fixpoint mapM {A B} (f : A -> result B) (l : list A) : result (list B) :=
  match l with
  | [] => Ok []
  | a :: l' =>
      bind (f a) (fun b => bind (mapM f l') (fun bs => Ok (b :: bs)))
  end.

(** The two kinds of value the harness compares with [==]. *)
Inductive pyval : Type :=
| PyNone
| PyInt (z : Z).

(** [a == b]; an [int] never equals [None]. *)
Definition py_eq (a b : pyval) : bool :=
  match a, b with
  | PyNone, PyNone => true
  | PyInt x, PyInt y => Z.eqb x y
  | _, _ => false
  end.

(** What [json.loads] returns on the inputs of the notebooks. *)
Inductive jval : Type :=
| JNum (x : R)
| JList (l : list jval).

(** The process: the unread part of standard input and the lines printed
    so far. *)
Record world : Type := mkWorld { stdin : string; stdout : list string }.

(** A script: it ends normally or with an uncaught exception, in a new
    world. *)
Definition prog (A : Type) : Type := world -> result A * world.

Definition pret {A} (a : A) : prog A := fun w => (Ok a, w).

Definition pbind {A B} (m : prog A) (k : A -> prog B) : prog B :=
  fun w => match m w with
           | (Ok a, w') => k a w'
           | (Raise e, w') => (Raise e, w')
           end.

Definition lift {A} (r : result A) : prog A := fun w => (r, w).

(** [print(s)] *)
Definition print (s : string) : prog unit :=
  fun w => (Ok tt, mkWorld (stdin w) (stdout w ++ [s])).

(** [sys.stdin.read()]: everything up to end of file *)
Definition stdin_read : prog string :=
  fun w => (Ok (stdin w), mkWorld EmptyString (stdout w)).

(** The functions of the Python runtime whose text-to-number and
    number-to-text conversions are outside this development. *)
Record runtime : Type := mkRuntime {
  json_loads : string -> result jval;
  str_float : R -> string;
  str_floats : list R -> string;
  float_of_string : string -> result R
}.

(** [str(i)] for a natural number *)
Definition str_nat (i : nat) : string := NilZero.string_of_uint (Nat.to_uint i).

(** The [ValueError] of unpacking [got] values into [expected] names. *)
Definition unpack_error (expected got : nat) : exn :=
  mkExn ValueError
    (if Nat.ltb got expected
     then "not enough values to unpack (expected " ++ str_nat expected
          ++ ", got " ++ str_nat got ++ ")"
     else "too many values to unpack (expected " ++ str_nat expected ++ ")")%string.

(** [sep.join(l)] *)
Fixpoint join (sep : string) (l : list string) : string :=
  match l with
  | [] => EmptyString
  | [x] => x
  | x :: l' => String.append x (String.append sep (join sep l'))
  end.

(** [s.split(",")] *)
Fixpoint split_comma (s : string) : list string :=
  match s with
  | EmptyString => [EmptyString]
  | String c s' =>
      if Ascii.eqb c "," then EmptyString :: split_comma s'
      else match split_comma s' with
           | h :: t => String c h :: t
           | [] => [String c EmptyString]
           end
  end.

End Py.

Notation "x <- m ;; k" := (Py.bind m (fun x => k))
  (at level 61, m at next level, right associativity).
Notation "m ;;; k" := (Py.bind m (fun _ => k))
  (at level 61, right associativity).
Notation "x <~ m ;; k" := (Py.pbind m (fun x => k))
  (at level 61, m at next level, right associativity).
Notation "m ;;~ k" := (Py.pbind m (fun _ => k))
  (at level 61, right associativity).

(* ================================================================== *)
(** * Complex numbers *)

Module Cx.

Definition C : Type := (R * R)%type.

Definition Re (z : C) : R := fst z.
Definition Im (z : C) : R := snd z.

Definition RtoC (x : R) : C := (x, 0).
Definition Ci : C := (0, 1).
Definition C0 : C := (0, 0).
Definition C1 : C := (1, 0).

Definition Cplus (a b : C) : C := (fst a + fst b, snd a + snd b).
Definition Copp (a : C) : C := (- fst a, - snd a).
Definition Cminus (a b : C) : C := Cplus a (Copp b).
Definition Cmult (a b : C) : C :=
  (fst a * fst b - snd a * snd b, fst a * snd b + snd a * fst b).
Definition Cconj (a : C) : C := (fst a, - snd a).

(** [abs(z) ** 2] before the square root is taken *)
Definition Cnorm2 (a : C) : R := fst a * fst a + snd a * snd a.
Definition Cmod (a : C) : R := sqrt (Cnorm2 a).

Definition Cscale (x : R) (a : C) : C := (x * fst a, x * snd a).

(** [cos t + 1j*sin t] *)
Definition Cexp_i (t : R) : C := Cplus (RtoC (cos t)) (Cmult Ci (RtoC (sin t))).

End Cx.

Declare Scope C_scope.
Delimit Scope C_scope with C.
Bind Scope C_scope with Cx.C.
Infix "+" := Cx.Cplus : C_scope.
Infix "-" := Cx.Cminus : C_scope.
Infix "*" := Cx.Cmult : C_scope.
Notation "- x" := (Cx.Copp x) : C_scope.

(* ================================================================== *)
(** * Two-by-two complex matrices ([qml.matrix] of one-wire gates) *)

Module Mat2.
Import Cx.

Record M2 : Type := mk { m00 : C; m01 : C; m10 : C; m11 : C }.

Definition I2 : M2 := mk C1 C0 C0 C1.

(** [np.matmul] *)
Definition matmul (A B : M2) : M2 :=
  mk (m00 A * m00 B + m01 A * m10 B)%C (m00 A * m01 B + m01 A * m11 B)%C
     (m10 A * m00 B + m11 A * m10 B)%C (m10 A * m01 B + m11 A * m11 B)%C.

(** [U * com] with a scalar [com] *)
Definition scale (A : M2) (c : C) : M2 :=
  mk (m00 A * c)%C (m01 A * c)%C (m10 A * c)%C (m11 A * c)%C.

(** [np.subtract] *)
Definition subtract (A B : M2) : M2 :=
  mk (m00 A - m00 B)%C (m01 A - m01 B)%C (m10 A - m10 B)%C (m11 A - m11 B)%C.

(** conjugate transpose *)
Definition adjoint (A : M2) : M2 :=
  mk (Cconj (m00 A)) (Cconj (m10 A)) (Cconj (m01 A)) (Cconj (m11 A)).

(** entrywise conjugate *)
Definition conj (A : M2) : M2 :=
  mk (Cconj (m00 A)) (Cconj (m01 A)) (Cconj (m10 A)) (Cconj (m11 A)).

(** [np.real] of a matrix: the four real parts, row by row *)
Definition real (A : M2) : list R := [Re (m00 A); Re (m01 A); Re (m10 A); Re (m11 A)].

(** The matrix of the real parts *)
Definition real_part (A : M2) : M2 :=
  mk (RtoC (Re (m00 A))) (RtoC (Re (m01 A))) (RtoC (Re (m10 A))) (RtoC (Re (m11 A))).

(** [np.linalg.norm] of a real matrix: the Frobenius norm *)
Definition frobenius (l : list R) : R :=
  sqrt (fold_right (fun x acc => x * x + acc) 0 l).

(** The gate matrices of PennyLane. *)
Definition Hadamard : M2 :=
  mk (RtoC (/ sqrt 2)) (RtoC (/ sqrt 2)) (RtoC (/ sqrt 2)) (RtoC (- / sqrt 2)).
Definition PauliX : M2 := mk C0 C1 C1 C0.
Definition RX (t : R) : M2 :=
  mk (RtoC (cos (t / 2))) (0, - sin (t / 2)) (0, - sin (t / 2)) (RtoC (cos (t / 2))).
Definition RY (t : R) : M2 :=
  mk (RtoC (cos (t / 2))) (RtoC (- sin (t / 2))) (RtoC (sin (t / 2))) (RtoC (cos (t / 2))).
Definition RZ (t : R) : M2 :=
  mk (cos (t / 2), - sin (t / 2)) C0 C0 (cos (t / 2), sin (t / 2)).

Definition unitary (A : M2) : Prop := matmul (adjoint A) A = I2.

End Mat2.

(* ================================================================== *)
(** * Universality: working with one qubit *)

Module Universality.
Import Cx Mat2 Py.

(** [get_matrix(params)]: unpacking anything but four values raises
    [ValueError]. *)
Definition get_matrix (params : list R) : result M2 :=
  match params with
  | [alpha; beta; gamma; phi] =>
      let com := Cexp_i phi in
      let U := matmul (RZ alpha) (matmul (RX beta) (RZ gamma)) in
      Ok (scale U com)
  | _ => Raise (unpack_error 4 (List.length params))
  end.

(** [error(U, params)] *)
Definition error (U : M2) (params : list R) : result R :=
  matrix <- get_matrix params ;;
  let dif := subtract U matrix in
  Ok (frobenius (real dif)).

End Universality.

(* ================================================================== *)
(** * NumPy helpers *)

Module Np.
Import Py.

(** Round half to even, as C's [rint]. *)
Definition rint (x : R) : Z :=
  let f := Zfloor x in
  let r := x - IZR f in
  if Rlt_dec r (1 / 2) then f
  else if Rlt_dec (1 / 2) r then (f + 1)%Z
  else if Z.even f then f else (f + 1)%Z.

(** [np.round_(x, decimals)]: scale, round to the nearest integer, scale back *)
Definition round_ (decimals : nat) (x : R) : R :=
  IZR (rint (x * 10 ^ decimals)) / 10 ^ decimals.

(** [np.zeros_like] of a flat list of floats *)
Definition zeros_like (l : list R) : list R := map (fun _ => 0) l.

(** [l[i]] *)
Definition getitem (l : list R) (i : nat) : result R :=
  match nth_error l i with
  | Some x => Ok x
  | None => Raise (mkExn IndexError "list index out of range")
  end.

(** The list after [l[i] = v] *)
Fixpoint setitem (l : list R) (i : nat) (v : R) : result (list R) :=
  match l, i with
  | [], _ => Raise (mkExn IndexError "index is out of bounds")
  | _ :: l', O => Ok (v :: l')
  | x :: l', S i' => l'' <- setitem l' i' v ;; Ok (x :: l'')
  end.

(** Arrays of dimension 0 and 1, the only ones the three checked notebooks
    compare. *)
Inductive ndarray : Type :=
| Arr0 (x : R)
| Arr1 (l : list R).

(** One comparison of [np.isclose]: [|a - b| <= atol + rtol * |b|]. *)
Definition isclose (rtol atol a b : R) : bool :=
  if Rle_dec (Rabs (a - b)) (atol + rtol * Rabs b) then true else false.

Fixpoint forallb2 (f : R -> R -> bool) (la lb : list R) : bool :=
  match la, lb with
  | a :: la', b :: lb' => f a b && forallb2 f la' lb'
  | _, _ => true
  end.

(** [np.allclose(a, b, rtol=rtol, atol=atol)]; the default of [atol] is
    [1e-8].  Operands broadcast: a scalar or a one-element list against
    every entry of the other; two lists of other unequal lengths raise
    [ValueError]. *)
Definition allclose (rtol atol : R) (a b : ndarray) : result bool :=
  match a, b with
  | Arr0 x, Arr0 y => Ok (isclose rtol atol x y)
  | Arr0 x, Arr1 lb => Ok (forallb (fun y => isclose rtol atol x y) lb)
  | Arr1 la, Arr0 y => Ok (forallb (fun x => isclose rtol atol x y) la)
  | Arr1 la, Arr1 lb =>
      if Nat.eqb (List.length la) (List.length lb) then Ok (forallb2 (isclose rtol atol) la lb)
      else match la, lb with
           | [x], _ => Ok (forallb (fun y => isclose rtol atol x y) lb)
           | _, [y] => Ok (forallb (fun x => isclose rtol atol x y) la)
           | _, _ => Raise (mkExn ValueError "operands could not be broadcast together")
           end
  end.

Definition default_atol : R := 1 / 10 ^ 8.

End Np.

(* ================================================================== *)
(** * State-vector simulation ([default.qubit]) *)

Module Sim.
Import Cx Mat2 Py.

(** A computational-basis label: one bit per wire, wire 0 first, which is
    also the most significant bit of the index into [qml.state()]. *)
Definition basis : Type := list bool.
Definition state : Type := basis -> C.

Fixpoint bit (w : nat) (b : basis) : bool :=
  match b, w with
  | [], _ => false
  | x :: _, O => x
  | _ :: b', S w' => bit w' b'
  end.

Fixpoint set_bit (w : nat) (v : bool) (b : basis) : basis :=
  match b, w with
  | [], _ => []
  | _ :: b', O => v :: b'
  | x :: b', S w' => x :: set_bit w' v b'
  end.

Definition flip (w : nat) (b : basis) : basis := set_bit w (negb (bit w b)) b.

Definition entry (U : M2) (r c : bool) : C :=
  match r, c with
  | false, false => m00 U
  | false, true => m01 U
  | true, false => m10 U
  | true, true => m11 U
  end.

(** Row [r] of [U] times the column vector [(z0, z1)]. *)
Definition row_act (U : M2) (r : bool) (z0 z1 : C) : C :=
  (entry U r false * z0 + entry U r true * z1)%C.

(** A one-wire gate with matrix [U] on wire [w]: the amplitude of [b] is
    row [b_w] of [U] applied to the amplitudes of [b] with wire [w] set to
    0 and to 1. *)
Definition apply1 (U : M2) (w : nat) (psi : state) : state :=
  fun b => row_act U (bit w b) (psi (set_bit w false b)) (psi (set_bit w true b)).

(** A gate applied where control wire [c] is 1. *)
Definition ctrl (c : nat) (G : state -> state) (psi : state) : state :=
  fun b => if bit c b then G psi b else psi b.

(** The operations the scripts queue. *)
Inductive op : Type :=
| Gate1 (U : M2) (w : nat)
| Ctrl1 (U : M2) (c t : nat)
| Ctrl2 (U : M2) (c1 c2 t : nat).

Definition Hadamard (w : nat) : op := Gate1 Mat2.Hadamard w.
Definition PauliX (w : nat) : op := Gate1 Mat2.PauliX w.
Definition RX (t : R) (w : nat) : op := Gate1 (Mat2.RX t) w.
Definition RY (t : R) (w : nat) : op := Gate1 (Mat2.RY t) w.
Definition RZ (t : R) (w : nat) : op := Gate1 (Mat2.RZ t) w.
Definition CNOT (c t : nat) : op := Ctrl1 Mat2.PauliX c t.
Definition CRY (phi : R) (c t : nat) : op := Ctrl1 (Mat2.RY phi) c t.
Definition Toffoli (c1 c2 t : nat) : op := Ctrl2 Mat2.PauliX c1 c2 t.

(** [.inv()]: the operation with the conjugate transpose of its matrix *)
Definition inv (o : op) : op :=
  match o with
  | Gate1 U w => Gate1 (adjoint U) w
  | Ctrl1 U c t => Ctrl1 (adjoint U) c t
  | Ctrl2 U c1 c2 t => Ctrl2 (adjoint U) c1 c2 t
  end.

Definition wires (o : op) : list nat :=
  match o with
  | Gate1 _ w => [w]
  | Ctrl1 _ c t => [c; t]
  | Ctrl2 _ c1 c2 t => [c1; c2; t]
  end.

Definition apply_op (o : op) (psi : state) : state :=
  match o with
  | Gate1 U w => apply1 U w psi
  | Ctrl1 U c t => ctrl c (apply1 U t) psi
  | Ctrl2 U c1 c2 t => ctrl c1 (ctrl c2 (apply1 U t)) psi
  end.

(** The state |0...0>. *)
Definition ket0 : state := fun b => if existsb (fun x => x) b then C0 else C1.

(** All labels of [n] wires in index order. *)
Fixpoint all_basis (n : nat) : list basis :=
  match n with
  | O => [[]]
  | S n' => map (cons false) (all_basis n') ++ map (cons true) (all_basis n')
  end.

Definition wires_ok (n : nat) (ops : list op) : bool :=
  forallb (fun o => forallb (fun w => Nat.ltb w n) (wires o)) ops.

Definition run_ops (ops : list op) (psi : state) : state :=
  fold_left (fun s o => apply_op o s) ops psi.

(** Executing a queue on a device of [n] wires; an operation on a wire
    the device does not have raises [WireError]. *)
Definition execute (n : nat) (ops : list op) : result state :=
  if wires_ok n ops then Ok (run_ops ops ket0)
  else Raise (mkExn WireError "Did not find some of the wires on device").

(** [qml.state()] *)
Definition state_vector (n : nat) (psi : state) : list C := map psi (all_basis n).

(** [qml.expval(qml.PauliZ(w))] *)
Definition expval_Z (n w : nat) (psi : state) : R :=
  fold_right Rplus 0
    (map (fun b => Cnorm2 (psi b) * (if bit w b then -1 else 1)) (all_basis n)).

(** Matrices, operations and states without imaginary parts. *)
Definition real_matrix (U : M2) : Prop :=
  Im (m00 U) = 0 /\ Im (m01 U) = 0 /\ Im (m10 U) = 0 /\ Im (m11 U) = 0.

Definition op_matrix (o : op) : M2 :=
  match o with
  | Gate1 U _ => U
  | Ctrl1 U _ _ => U
  | Ctrl2 U _ _ _ => U
  end.

Definition real_op (o : op) : Prop := real_matrix (op_matrix o).

Definition real_state (psi : state) : Prop := forall b, Im (psi b) = 0.

End Sim.

(* ================================================================== *)
(** * The qRAM script *)

Module QRAM.
Import Cx Py Sim.

(** Binary digits of a positive number, most significant first. *)
Fixpoint bin_pos (p : positive) : list ascii :=
  match p with
  | xH => ["1"%char]
  | xO p' => bin_pos p' ++ ["0"%char]
  | xI p' => bin_pos p' ++ ["1"%char]
  end.

(** [format(address, "03b")]: binary, zero-padded to width 3 *)
Definition format_03b (address : nat) : list ascii :=
  let digits := match N.of_nat address with
                | N0 => ["0"%char]
                | Npos p => bin_pos p
                end in
  repeat "0"%char (3 - List.length digits) ++ digits.

Definition enumerate {A : Type} (l : list A) : list (nat * A) :=
  combine (seq 0 (List.length l)) l.

(** [for index, j in enumerate(wire_number_in_binary): if j=='0': PauliX(index)] *)
Definition x_layer (wire_number_in_binary : list ascii) : list op :=
  flat_map (fun ij => if Ascii.eqb (snd ij) "0" then [PauliX (fst ij)] else [])
    (enumerate wire_number_in_binary).

(** The nine gates between the two PauliX layers. *)
Definition ccc_ry (theta : R) : list op :=
  [ CRY (theta / 2) 2 3;
    Toffoli 0 1 2;
    inv (CRY (theta / 2) 2 3);
    Toffoli 0 1 2;
    CRY (theta / 4) 1 3;
    CNOT 0 1;
    inv (CRY (theta / 4) 1 3);
    CNOT 0 1;
    CRY (theta / 4) 0 3 ].

(** The body of the loop over [enumerate(thetas)]. *)
Definition block (address : nat) (theta : R) : list op :=
  let wire_number_in_binary := format_03b address in
  x_layer wire_number_in_binary ++ ccc_ry theta ++ x_layer wire_number_in_binary.

Definition circuit (thetas : list R) : list op :=
  map Hadamard (seq 0 3)
  ++ flat_map (fun at_ => block (fst at_) (snd at_)) (enumerate thetas).

Definition qRAM (thetas : list R) : result (list C) :=
  psi <- execute 4 (circuit thetas) ;;
  Ok (state_vector 4 psi).

(** The state the exercise asks for,
    [(1/sqrt 8) * sum_a |a> (cos(theta_a/2)|0> + sin(theta_a/2)|1>)],
    amplitude by amplitude in index order. *)
Definition addressed_state (thetas : list R) : list C :=
  flat_map (fun theta => [RtoC (/ sqrt 8 * cos (theta / 2));
                          RtoC (/ sqrt 8 * sin (theta / 2))]) thetas.

(** The address whose binary digits are [a0 a1 a2]. *)
Definition address_of (a0 a1 a2 : bool) : nat :=
  4 * Nat.b2n a0 + 2 * Nat.b2n a1 + Nat.b2n a2.

(** [RY theta] on wire 3 where wires 0, 1, 2 hold [a0 a1 a2], the identity
    elsewhere. *)
Definition addressed_RY (a0 a1 a2 : bool) (theta : R) (psi : state) : state :=
  fun b =>
    if Bool.eqb (bit 0 b) a0 && Bool.eqb (bit 1 b) a1 && Bool.eqb (bit 2 b) a2
    then apply1 (Mat2.RY theta) 3 psi b
    else psi b.

End QRAM.

(* ================================================================== *)
(** * Gradients: the parameter-shift rule *)

Module Gradients.
Import Cx Py Sim Np.

(** [circuit(params)] on [default.qubit] with two wires: the expectation
    value of [PauliZ(0) + PauliZ(1)]. *)
Definition circuit (params : list R) : result R :=
  p0 <- getitem params 0 ;;
  p1 <- getitem params 1 ;;
  psi <- execute 2 [RY p0 0; RX p1 1] ;;
  Ok (expval_Z 2 0 psi + expval_Z 2 1 psi).

(** [my_parameter_shift_grad(params, shift)] in exact arithmetic, for
    [params] a list of floats as the docstring has it; [GradientsTyped]
    has the lists of Python integers, whose gradient array is an integer
    array, and [GradientsFloat] the arithmetic of binary64 numbers.  The
    quotient by [2 * sin shift] is the total division of [R]; NumPy gives
    [inf] or [nan] when [sin shift] is zero, which [R] does not have. *)
Definition my_parameter_shift_grad (params : list R) (shift : R) : result (list R) :=
  let gradient := zeros_like params in
  p0 <- getitem params 0 ;;
  p1 <- getitem params 1 ;;
  let new_params_0_0 := p0 + shift in
  let new_params_0_1 := p0 - shift in
  let new_params_1_0 := p1 + shift in
  let new_params_1_1 := p1 - shift in
  f1 <- circuit [new_params_0_0; p1] ;;
  f2 <- circuit [new_params_0_1; p1] ;;
  gradient <- setitem gradient 0 ((f1 - f2) / (2 * sin shift)) ;;
  f3 <- circuit [p0; new_params_1_0] ;;
  f4 <- circuit [p0; new_params_1_1] ;;
  gradient <- setitem gradient 1 ((f3 - f4) / (2 * sin shift)) ;;
  Ok (map (round_ 5) gradient).

End Gradients.

(* ================================================================== *)
(** * Gradients: parameters that are Python integers *)

Module GradientsTyped.
Import Py.

(** A number of a parameter list: a Python [int] or a [float]. *)
Inductive number : Type :=
| Int (z : Z)
| Float (x : R).

Definition value (n : number) : R :=
  match n with
  | Int z => IZR z
  | Float x => x
  end.

Definition is_int (n : number) : bool :=
  match n with
  | Int _ => true
  | Float _ => false
  end.

(** A NumPy array of dimension 1, of dtype [int64] or [float64] (integers
    outside the range of [int64] are not modelled). *)
Inductive array : Type :=
| Int64 (l : list Z)
| Float64 (l : list R).

(** [np.zeros_like(params)]: zeros of the dtype of [np.array(params)],
    which is [int64] when the list holds integers only, and [float64] when
    it holds a float or is empty. *)
Definition zeros_like (params : list number) : array :=
  match params with
  | [] => Float64 []
  | _ :: _ =>
      if forallb is_int params then Int64 (map (fun _ => 0%Z) params)
      else Float64 (map (fun _ => 0) params)
  end.

(** The conversion of a float to an integer: toward zero. *)
Definition trunc (x : R) : Z := if Rle_dec 0 x then Zfloor x else Zceil x.

Fixpoint set_nth {A : Type} (l : list A) (i : nat) (v : A) : option (list A) :=
  match l, i with
  | [], _ => None
  | _ :: l', O => Some (v :: l')
  | x :: l', S i' => option_map (cons x) (set_nth l' i' v)
  end.

(** The entries after [a[i] = v]; an index past the end raises
    [IndexError]. *)
Definition setitem_list {A : Type} (l : list A) (i : nat) (v : A) : result (list A) :=
  match set_nth l i v with
  | Some l' => Ok l'
  | None =>
      Raise (mkExn IndexError
               ("index " ++ str_nat i ++ " is out of bounds for axis 0 with size "
                ++ str_nat (List.length l)))
  end.

(** The array after [a[i] = v] for a float [v]: an integer array stores
    the integer part of [v]. *)
Definition setitem (a : array) (i : nat) (v : R) : result array :=
  match a with
  | Int64 l => l' <- setitem_list l i (trunc v) ;; Ok (Int64 l')
  | Float64 l => l' <- setitem_list l i v ;; Ok (Float64 l')
  end.

(** [np.round_(a, decimals)]: an integer array is returned as it is. *)
Definition round_ (decimals : nat) (a : array) : array :=
  match a with
  | Int64 l => Int64 l
  | Float64 l => Float64 (map (Np.round_ decimals) l)
  end.

(** [a.tolist()] *)
Definition tolist (a : array) : list number :=
  match a with
  | Int64 l => map Int l
  | Float64 l => map Float l
  end.

(** [l[i]] *)
Definition getitem (l : list number) (i : nat) : result number :=
  match nth_error l i with
  | Some x => Ok x
  | None => Raise (mkExn IndexError "list index out of range")
  end.

(** [my_parameter_shift_grad(params, shift)] in exact arithmetic, for a
    list of integers and floats. *)
Definition my_parameter_shift_grad (params : list number) (shift : R)
    : result (list number) :=
  let gradient := zeros_like params in
  p0 <- getitem params 0 ;;
  p1 <- getitem params 1 ;;
  let new_params_0_0 := value p0 + shift in
  let new_params_0_1 := value p0 - shift in
  let new_params_1_0 := value p1 + shift in
  let new_params_1_1 := value p1 - shift in
  f1 <- Gradients.circuit [new_params_0_0; value p1] ;;
  f2 <- Gradients.circuit [new_params_0_1; value p1] ;;
  gradient <- setitem gradient 0 ((f1 - f2) / (2 * sin shift)) ;;
  f3 <- Gradients.circuit [value p0; new_params_1_0] ;;
  f4 <- Gradients.circuit [value p0; new_params_1_1] ;;
  gradient <- setitem gradient 1 ((f3 - f4) / (2 * sin shift)) ;;
  Ok (tolist (round_ 5 gradient)).

End GradientsTyped.

(* ================================================================== *)
(** * Gradients in double precision *)

Module GradientsFloat.
Import Py PrimFloat.
Local Open Scope float_scope.

(** [l[i]] *)
Definition getitem (l : list float) (i : nat) : result float :=
  match nth_error l i with
  | Some x => Ok x
  | None => Raise (mkExn IndexError "list index out of range")
  end.

(** [np.zeros_like] of a list of floats *)
Definition zeros_like (l : list float) : list float := map (fun _ => 0) l.

(** C's [rint] in the default rounding mode: the nearest integer, a tie
    going to the even one.  Below [2^52] in size the sum with [2^52] is
    rounded to an integer, and the sign is put back; from [2^52] on every
    binary64 number is an integer. *)
Definition two52 : float := 4503599627370496.

Definition rint (x : float) : float :=
  let a := abs x in
  if a <? two52
  then let r := a + two52 - two52 in if get_sign x then - r else r
  else x.

Fixpoint power_of_ten (decimals : nat) : float :=
  match decimals with
  | O => 1
  | S d => 10 * power_of_ten d
  end.

(** [np.round_(x, decimals)]: scale, round to the nearest integer, scale
    back *)
Definition round_ (decimals : nat) (x : float) : float :=
  rint (x * power_of_ten decimals) / power_of_ten decimals.

Section Model.
(** The value of the QNode [circuit] and [np.sin] on binary64 numbers: the
    order of the simulator's floating-point operations and the sine of the
    C library are outside this development. *)
Variable circuit : list float -> result float.
Variable np_sin : float -> float.

(** [my_parameter_shift_grad(params, shift)] on a list of floats, with the
    additions, subtractions and divisions of binary64 *)
Definition my_parameter_shift_grad (params : list float) (shift : float)
    : result (list float) :=
  let gradient := zeros_like params in
  p0 <- getitem params 0 ;;
  p1 <- getitem params 1 ;;
  let new_params_0_0 := p0 + shift in
  let new_params_0_1 := p0 - shift in
  let new_params_1_0 := p1 + shift in
  let new_params_1_1 := p1 - shift in
  f1 <- circuit [new_params_0_0; p1] ;;
  f2 <- circuit [new_params_0_1; p1] ;;
  gradient <- GradientsTyped.setitem_list gradient 0 ((f1 - f2) / (2 * np_sin shift)) ;;
  f3 <- circuit [p0; new_params_1_0] ;;
  f4 <- circuit [p0; new_params_1_1] ;;
  gradient <- GradientsTyped.setitem_list gradient 1 ((f3 - f4) / (2 * np_sin shift)) ;;
  Ok (map (round_ 5) gradient).

End Model.

End GradientsFloat.

(* ================================================================== *)
(** * Density-matrix simulation ([default.mixed]) *)

Module Mixed.
Import Cx Mat2 Py Sim.

(** A density matrix, indexed by a row label and a column label. *)
Definition density : Type := basis -> basis -> C.

Definition conj_op (o : op) : op :=
  match o with
  | Gate1 U w => Gate1 (Mat2.conj U) w
  | Ctrl1 U c t => Ctrl1 (Mat2.conj U) c t
  | Ctrl2 U c1 c2 t => Ctrl2 (Mat2.conj U) c1 c2 t
  end.

(** [U rho U^dagger]: the gate acts on the row label, its entrywise
    conjugate on the column label. *)
Definition apply_unitary (o : op) (rho : density) : density :=
  fun i j => apply_op (conj_op o) (fun j' => apply_op o (fun i' => rho i' j') i) j.

(** [K rho K^dagger] for a one-wire Kraus matrix [K] on wire [w] *)
Definition apply_kraus (K : M2) (w : nat) (rho : density) : density :=
  fun i j => apply1 (Mat2.conj K) w (fun j' => apply1 K w (fun i' => rho i' j') i) j.

(** A channel: the sum of [K rho K^dagger] over its Kraus matrices. *)
Definition apply_channel (Ks : list M2) (w : nat) (rho : density) : density :=
  fun i j => fold_right Cplus C0 (map (fun K => apply_kraus K w rho i j) Ks).

Definition scale_real (x : R) (A : M2) : M2 :=
  Mat2.mk (Cscale x (m00 A)) (Cscale x (m01 A)) (Cscale x (m10 A)) (Cscale x (m11 A)).

(** The Kraus matrices of [qml.BitFlip(p)]:
    [sqrt(1-p) * I] and [sqrt(p) * X]. *)
Definition bitflip_kraus (p : R) : list M2 :=
  [scale_real (sqrt (1 - p)) I2; scale_real (sqrt p) Mat2.PauliX].

Inductive mop : Type :=
| Unitary (o : op)
| Channel (Ks : list M2) (w : nat).

(** [qml.BitFlip(p, wires=w)]; a [p] outside [0, 1] raises [ValueError]. *)
Definition BitFlip (p : R) (w : nat) : result mop :=
  if Rle_dec 0 p then
    if Rle_dec p 1 then Ok (Channel (bitflip_kraus p) w)
    else Raise (mkExn ValueError "p must be in the interval [0,1]")
  else Raise (mkExn ValueError "p must be in the interval [0,1]").

Definition mop_wires (m : mop) : list nat :=
  match m with
  | Unitary o => wires o
  | Channel _ w => [w]
  end.

Definition apply_mop (m : mop) (rho : density) : density :=
  match m with
  | Unitary o => apply_unitary o rho
  | Channel Ks w => apply_channel Ks w rho
  end.

(** |0...0><0...0| *)
Definition rho0 : density := fun i j => (ket0 i * Cconj (ket0 j))%C.

Definition execute (n : nat) (ops : list mop) : result density :=
  if forallb (fun m => forallb (fun w => Nat.ltb w n) (mop_wires m)) ops
  then Ok (fold_left (fun rho m => apply_mop m rho) ops rho0)
  else Raise (mkExn WireError "Did not find some of the wires on device").

(** [qml.state()]: the density matrix, row by row *)
Definition density_matrix (n : nat) (rho : density) : list (list C) :=
  map (fun i => map (fun j => rho i j) (all_basis n)) (all_basis n).

Definition mentry (A : list (list C)) (i j : nat) : C := nth j (nth i A []) C0.

Definition csum (l : list C) : C := fold_right Cplus C0 l.

(** Square matrices of size [n], as functions of a row and a column below
    [n], and vectors likewise. *)
Definition matrix : Type := nat -> nat -> C.

Definition csum_n (n : nat) (f : nat -> C) : C := csum (map f (seq 0 n)).

Definition mmul (n : nat) (A B : matrix) : matrix :=
  fun i j => csum_n n (fun k => (A i k * B k j)%C).

Definition mtrace (n : nat) (A : matrix) : C := csum_n n (fun i => A i i).

Definition mv (n : nat) (A : matrix) (v : nat -> C) : nat -> C :=
  fun i => csum_n n (fun j => (A i j * v j)%C).

(** [<phi|v>] *)
Definition dot (n : nat) (phi v : nat -> C) : C :=
  csum_n n (fun j => (Cconj (phi j) * v j)%C).

(** [|phi><phi|] *)
Definition outer (phi : nat -> C) : matrix := fun i j => (phi i * Cconj (phi j))%C.

Definition hermitian (n : nat) (A : matrix) : Prop :=
  forall i j, (i < n)%nat -> (j < n)%nat -> A j i = Cconj (A i j).

(** [v^dagger A v] *)
Definition quad (n : nat) (A : matrix) (v : nat -> C) : C :=
  csum_n n (fun i => csum_n n (fun j => (Cconj (v i) * A i j * v j)%C)).

(** Positive semi-definite: Hermitian with [v^dagger A v >= 0] for all [v]. *)
Definition psd (n : nat) (A : matrix) : Prop :=
  hermitian n A /\ forall v, 0 <= Re (quad n A v).

(** [S] is a positive semi-definite square root of [A]. *)
Definition is_sqrt (n : nat) (A S : matrix) : Prop :=
  psd n S /\ forall i j, (i < n)%nat -> (j < n)%nat -> mmul n S S i j = A i j.

(** [qml.math.sqrt_matrix]: the positive semi-definite square root, which
    the library computes from an eigendecomposition. *)
Definition sqrt_matrix (n : nat) (A : matrix) : matrix :=
  epsilon (inhabits (fun _ _ => C0)) (is_sqrt n A).

(** [qml.math.fidelity(state0, state1)] on two density matrices:
    [(Tr sqrt(sqrt(rho) sigma sqrt(rho)))^2], the trace of the square root
    being the sum of the square roots of the eigenvalues that the library
    adds up.  States of different sizes raise [QuantumFunctionError]. *)
Definition fidelity (state0 state1 : list (list C)) : result R :=
  let n := List.length state0 in
  if Nat.eqb n (List.length state1) then
    let sqrt_mat := sqrt_matrix n (mentry state0) in
    let sqrt_mat_sqrt := mmul n sqrt_mat (mmul n (mentry state1) sqrt_mat) in
    Ok (Re (mtrace n (sqrt_matrix n sqrt_mat_sqrt)) ^ 2)
  else Raise (mkExn QuantumFunctionError
                "The two states must have the same number of wires.").

(** The vector with [c] at index [k] and zero elsewhere. *)
Definition delta (k : nat) (c : C) : nat -> C := fun j => if Nat.eqb j k then c else C0.

End Mixed.

(* ================================================================== *)
(** * Differentiable ZNE: noisy circuits *)

Module Noise.
Import Cx Py Sim Np Mixed.

(** [circuit()] *)
Definition circuit : result (list (list C)) :=
  rho <- execute 2 [Unitary (Hadamard 0); Unitary (CNOT 0 1)] ;;
  Ok (density_matrix 2 rho).

(** [bitflip_circuit(p)] *)
Definition bitflip_circuit (p : R) : result (list (list C)) :=
  e0 <- BitFlip p 0 ;;
  e1 <- BitFlip p 1 ;;
  rho <- execute 2 [Unitary (Hadamard 0); Unitary (CNOT 0 1); e0; e1] ;;
  Ok (density_matrix 2 rho).

(** [fidelities(probs)]: entry [i] of [fids] is the fidelity for
    [probs[i]]; the list is rounded at the end. *)
Definition fidelities (probs : list R) : result (list R) :=
  fids <- mapM (fun p =>
                  s0 <- bitflip_circuit p ;;
                  s1 <- circuit ;;
                  fidelity s0 s1) probs ;;
  Ok (map (round_ 5) fids).

(** The Bell state [(|00> + |11>)/sqrt 2] as a density matrix. *)
Definition bell (i j : basis) : C :=
  if Bool.eqb (bit 0 i) (bit 1 i) && Bool.eqb (bit 0 j) (bit 1 j) then RtoC (/ 2) else C0.

Definition bell_matrix : list (list C) :=
  [ [RtoC (/ 2); C0; C0; RtoC (/ 2)];
    [C0; C0; C0; C0];
    [C0; C0; C0; C0];
    [RtoC (/ 2); C0; C0; RtoC (/ 2)] ].

(** The Bell state after a bit flip of probability [p] on each wire. *)
Definition noisy_matrix (p : R) : list (list C) :=
  let a := RtoC (((1 - p) * (1 - p) + p * p) / 2) in
  let b := RtoC (p * (1 - p)) in
  [ [a; C0; C0; a];
    [C0; b; b; C0];
    [C0; b; b; C0];
    [a; C0; C0; a] ].

(** The Bell state as a vector, and the positive square root of
    [noisy_matrix p]. *)
Definition bell_ket : nat -> C :=
  fun i => match i with
           | 0%nat | 3%nat => RtoC (/ sqrt 2)
           | _ => C0
           end.

Definition sqrt_noisy (p : R) : list (list C) :=
  let a := RtoC (sqrt ((1 - p) * (1 - p) + p * p) / 2) in
  let b := RtoC (sqrt (2 * p * (1 - p)) / 2) in
  [ [a; C0; C0; a];
    [C0; b; b; C0];
    [C0; b; b; C0];
    [a; C0; C0; a] ].

End Noise.

(* ================================================================== *)
(** * The test harness at the end of each notebook *)

Module Harness.
Import Py.

(** The first line a test case prints. *)
Definition running_line (i : nat) (input_ : string) : string :=
  ("Running test case " ++ str_nat i ++ " with input '" ++ input_ ++ "'...")%string.

Section Loop.
Variable run : string -> result string.
Variable check : string -> string -> result pyval.

(** The body of the [for] loop for test case [i]. *)
Definition test_case (i : nat) (input_ expected_output : string) : prog unit :=
  print (running_line i input_) ;;~
  match run input_ with
  | Raise exc =>
      (* [except Exception as exc] *)
      if is_Exception exc then print ("Runtime Error. " ++ exn_str exc)%string
      else lift (Raise exc)
  | Ok output =>
      (* the [else] clause of the [try] statement *)
      let message := PyInt 0 in
      r <~ lift (check output expected_output) ;;
      if py_eq message r
      then print ("Wrong Answer. Have: '" ++ output ++ "'. Want: '"
                  ++ expected_output ++ "'.")%string
      else print "Correct!"
  end.

(** [for i, (input_, expected_output) in enumerate(test_cases)], from
    index [i] on. *)
Fixpoint harness_from (i : nat) (test_cases : list (string * string)) : prog unit :=
  match test_cases with
  | [] => pret tt
  | (input_, expected_output) :: rest =>
      test_case i input_ expected_output ;;~ harness_from (S i) rest
  end.

Definition harness (test_cases : list (string * string)) : prog unit :=
  harness_from 0 test_cases.

End Loop.

(** A decoded JSON value used as a float, and as a list of floats. *)
Definition as_float (v : jval) : result R :=
  match v with
  | JNum x => Ok x
  | JList _ => Raise (mkExn TypeError "unsupported operand type(s): 'list' and 'float'")
  end.

Definition as_floats (v : jval) : result (list R) :=
  match v with
  | JNum _ => Raise (mkExn TypeError "'float' object is not subscriptable")
  | JList l => mapM as_float l
  end.

(** [np.array] of a decoded JSON value.  The outputs of the three
    notebooks are a number or a flat list of numbers; lists of lists are
    outside the model and give the [ValueError] of a ragged list. *)
Definition np_array (v : jval) : result Np.ndarray :=
  match v with
  | JNum x => Ok (Np.Arr0 x)
  | JList l =>
      xs <- mapM (fun x => match x with
                           | JNum y => Ok y
                           | JList _ =>
                               Raise (mkExn ValueError
                                        "setting an array element with a sequence")
                           end) l ;;
      Ok (Np.Arr1 xs)
  end.

(** The body the three [check] functions share:
    [assert np.allclose(json.loads(solution_output),
                        json.loads(expected_output), rtol=rtol), msg];
    a function that ends without [return] gives [None]. *)
Definition check_allclose (rt : runtime) (rtol : R) (msg : string)
    (solution_output expected_output : string) : result pyval :=
  sol <- json_loads rt solution_output ;;
  expd <- json_loads rt expected_output ;;
  a <- np_array sol ;;
  b <- np_array expd ;;
  ok <- Np.allclose rtol Np.default_atol a b ;;
  assert_ ok msg ;;;
  Ok PyNone.

(** The lines the harness can print. *)
Definition harness_line (s : string) : Prop :=
  (exists i input_, s = running_line i input_)
  \/ (exists text, s = ("Runtime Error. " ++ text)%string)
  \/ (exists output expected_output,
        s = ("Wrong Answer. Have: '" ++ output ++ "'. Want: '"
             ++ expected_output ++ "'.")%string)
  \/ s = "Correct!"%string.

(** Lines that report a wrong answer. *)
Definition wrong_answer_line (s : string) : bool := String.prefix "Wrong Answer" s.

(** [adds_only P p]: [p] reads nothing from standard input and appends to
    standard output only lines that satisfy [P]. *)
Definition adds_only (P : string -> Prop) (p : prog unit) : Prop :=
  forall w, exists lines,
    stdin (snd (p w)) = stdin w /\ stdout (snd (p w)) = stdout w ++ lines /\ Forall P lines.

(** A single line: a text without a line feed. *)
Fixpoint single_line (s : string) : bool :=
  match s with
  | EmptyString => true
  | String c s' => negb (Ascii.eqb c "010") && single_line s'
  end.

Definition newline : string := String "010" EmptyString.

(** The interface of the specification: run with one line on standard
    input, the script reads it and prints one line, the text of a result
    computed from the line; or it ends with an exception, having read the
    line and printed nothing. *)
Definition stdin_line_interface (script : prog unit) : Prop :=
  exists compute : string -> result string,
    forall line out,
      single_line line = true ->
      script (mkWorld (line ++ newline) out)
      = match compute line with
        | Ok text => (Ok tt, mkWorld EmptyString (out ++ [text]))
        | Raise e => (Raise e, mkWorld EmptyString out)
        end.

End Harness.

(* ================================================================== *)
(** * The notebooks' [run], [check] and test cases *)

Module Fourier.
Import Cx Py Sim Np Harness.

Section Model.
(** [qml.fourier.coefficients(f, n_inputs=1, degree=3)], a function of the
    PennyLane library: the seven Fourier coefficients of [f]. *)
Variable coefficients : (R -> result R) -> result (list C).
Variable rt : runtime.

(** [W(params)] *)
Definition W (params : list R) : result (list op) :=
  match params with
  | [alpha; beta; gamma] =>
      Ok [RX alpha 0; RX beta 1; RX gamma 2; CNOT 0 1; CNOT 1 2; CNOT 2 0]
  | _ => Raise (unpack_error 3 (List.length params))
  end.

(** [circuit(param_list, x)] *)
Definition circuit (param_list : list R) (x : R) : result R :=
  let theta_1 := firstn 3 param_list in
  let theta_2 := skipn 3 param_list in
  w1 <- W theta_1 ;;
  w2 <- W theta_2 ;;
  psi <- execute 3 (w1 ++ [RX x 0; RX x 1; RX x 2] ++ w2) ;;
  Ok (expval_Z 3 0 psi).

(** [squared_distance(list_of_coef, coefficients)]; [coefficients] is a
    NumPy array, and an index past its end raises [IndexError]. *)
Definition squared_distance (list_of_coef coeffs : list C) : result R :=
  fold_left
    (fun res i =>
       r <- res ;;
       match nth_error list_of_coef i, nth_error coeffs i with
       | Some c, Some b => Ok (r + Cmod (c - b)%C ^ 2)
       | _, _ =>
           Raise (mkExn IndexError
                    ("index " ++ str_nat i ++ " is out of bounds for axis 0 with size "
                     ++ str_nat (List.length coeffs)))
       end)
    (seq 0 (List.length list_of_coef)) (Ok 0).

Definition fourier_squared_distance (list_of_coeffs : list C) (param_list : list R)
    : result R :=
  coeffs <- coefficients (circuit param_list) ;;
  squared_distance list_of_coeffs coeffs.

Definition run (test_case_input : string) : result string :=
  ins <- json_loads rt test_case_input ;;
  match ins with
  | JList [cs; ps] =>
      list_of_coeffs <- as_floats cs ;;
      param_list <- as_floats ps ;;
      output <- fourier_squared_distance (map RtoC list_of_coeffs) param_list ;;
      Ok (str_float rt output)
  | _ => Raise (mkExn TypeError "fourier_squared_distance() takes 2 positional arguments")
  end.

Definition check : string -> string -> result pyval :=
  check_allclose rt (1 / 10 ^ 2) "Your calculated squared distance isn't quite right.".

Definition test_cases : list (string * string) :=
  [ ("[[-1.12422548e-01,  0.0, 9.47909940e-02, 0.0, 0.0, 9.47909940e-02, 0.0],[2,2,2,3,4,5]]",
     "0.0036766085933034303");
    ("[[-2.51161988e-01, 0.0, 1.22546112e-01, 0.0, 0.0,  1.22546112e-01, 0.0],[1.1,0.3,0.4,0.6,0.8,0.9]]",
     "0.6538589174369286") ]%string.

Definition script : prog unit := harness run check test_cases.

End Model.
End Fourier.

(** The expected output of the first Fourier test case, and a runtime that
    decodes the text of a candidate output and of the expected output. *)
Definition fourier_expected : R := 0.0036766085933034303.

Definition fourier_runtime : Py.runtime :=
  Py.mkRuntime
    (fun s => if String.eqb s "0.005" then Py.Ok (Py.JNum 0.005)
              else Py.Ok (Py.JNum fourier_expected))
    (fun _ => EmptyString) (fun _ => EmptyString)
    (fun s => Py.Ok 0).

(** A runtime that decodes the three texts of a Gradients test case whose
    expected output is not the gradient. *)
Definition gradients_runtime : Py.runtime :=
  Py.mkRuntime
    (fun s =>
       if String.eqb s "[[0.75, 1.0], 1.23]"
       then Py.Ok (Py.JList [Py.JList [Py.JNum 0.75; Py.JNum 1.0]; Py.JNum 1.23])
       else if String.eqb s "[-0.5, -0.84147]"
            then Py.Ok (Py.JList [Py.JNum (-0.5); Py.JNum (-0.84147)])
            else Py.Ok (Py.JList [Py.JNum (-0.68164); Py.JNum (-0.84147)]))
    (fun _ => EmptyString) (fun _ => "[-0.68164, -0.84147]"%string)
    (fun s => Py.Ok 0).

Module NoiseNotebook.
Import Py Np Harness.

Section Model.
Variable rt : runtime.

Definition run (test_case_input : string) : result string :=
  v <- json_loads rt test_case_input ;;
  probs <- as_floats v ;;
  fids <- Noise.fidelities probs ;;
  Ok (str_floats rt fids).

Definition check : string -> string -> result pyval :=
  check_allclose rt (1 / 10 ^ 4) "Your circuit isn't quite right!".

Definition test_cases : list (string * string) :=
  [ ("[0.05, 0.1, 0.15, 0.2, 0.25]", "[0.905, 0.82, 0.745, 0.68, 0.625]") ]%string.

Definition script : prog unit := harness run check test_cases.

End Model.
End NoiseNotebook.

Module GradientsNotebook.
Import Py Np Harness.

Section Model.
Variable rt : runtime.

Definition run (test_case_input : string) : result string :=
  v <- json_loads rt test_case_input ;;
  match v with
  | JList [params; shift] =>
      params <- as_floats params ;;
      shift <- as_float shift ;;
      gradient <- Gradients.my_parameter_shift_grad params shift ;;
      Ok (str_floats rt gradient)
  | JList l => Raise (unpack_error 2 (List.length l))
  | JNum _ => Raise (mkExn TypeError "cannot unpack non-iterable float object")
  end.

Definition check : string -> string -> result pyval :=
  check_allclose rt (1 / 10 ^ 4) "Your gradient isn't quite right!".

Definition test_cases : list (string * string) :=
  [ ("[[0.75, 1.0], 1.23]", "[-0.68164, -0.84147]") ]%string.

Definition script : prog unit := harness run check test_cases.

End Model.
End GradientsNotebook.

(* ================================================================== *)
(** * The qRAM script's [__main__] block *)

Module QRAMScript.
Import Cx Py Np.

Definition main (rt : runtime) : prog unit :=
  s <~ stdin_read ;;
  let inputs := split_comma s in
  thetas <~ lift (mapM (float_of_string rt) inputs) ;;
  output <~ lift (QRAM.qRAM thetas) ;;
  let output := map (fun i => round_ 6 (Re i)) output in
  print (join "," (map (str_float rt) output)).

End QRAMScript.

(* ================================================================== *)
(** * Total probability and unitary operations *)

Module Norm.
Import Cx Mat2 Sim.

(** The sum of [F] over the labels of [n] wires. *)
Definition rsum (n : nat) (F : basis -> R) : R := fold_right Rplus 0 (map F (all_basis n)).

(** The squared norm of a state on [n] wires: the total probability. *)
Definition norm2 (n : nat) (psi : state) : R := rsum n (fun b => Cnorm2 (psi b)).

(** An operation with a unitary matrix on distinct wires. *)
Definition unitary_op (o : op) : Prop := unitary (op_matrix o) /\ NoDup (wires o).

(** The wire an operation's matrix is applied to, and the condition on the
    control wires under which it is applied. *)
Definition target (o : op) : nat :=
  match o with
  | Gate1 _ w => w
  | Ctrl1 _ _ t => t
  | Ctrl2 _ _ _ t => t
  end.

Definition acts (o : op) (b : basis) : bool :=
  match o with
  | Gate1 _ _ => true
  | Ctrl1 _ c _ => bit c b
  | Ctrl2 _ c1 c2 _ => bit c1 b && bit c2 b
  end.

(** Two states that agree up to a global sign. *)
Definition same_up_to_sign (sgn : bool) (psi phi : state) : Prop :=
  forall b, psi b = if sgn then Copp (phi b) else phi b.

End Norm.

(* ================================================================== *)
(** * The Universality notebook's second test case *)

Module UniversalityNotebook.
Import Cx Mat2.

(** The target ['[[ 1,  0], [ 0, -1]]']. *)
Definition target_Z : M2 := Mat2.mk (RtoC 1) (RtoC 0) (RtoC 0) (RtoC (-1)).

End UniversalityNotebook.

(** A runtime that decodes the texts of the Noise notebook's test case. *)
Definition noise_runtime : Py.runtime :=
  Py.mkRuntime
    (fun s =>
       if String.eqb s "[0.05, 0.1, 0.15, 0.2, 0.25]"
       then Py.Ok (Py.JList [Py.JNum 0.05; Py.JNum 0.1; Py.JNum 0.15; Py.JNum 0.2;
                             Py.JNum 0.25])
       else Py.Ok (Py.JList [Py.JNum 0.905; Py.JNum 0.82; Py.JNum 0.745; Py.JNum 0.68;
                             Py.JNum 0.625]))
    (fun _ => EmptyString) (fun _ => "[0.905, 0.82, 0.745, 0.68, 0.625]"%string)
    (fun s => Py.Ok 0).

(** A runtime whose [float] converts a field of one decimal digit, with or
    without the end of the line after it. *)
Definition digit_of_ascii (c : ascii) : option Z :=
  let n := N.of_nat (nat_of_ascii c) in
  if (N.leb 48 n && N.leb n 57)%bool then Some (Z.of_N n - 48)%Z else None.

Definition digit_runtime : Py.runtime :=
  Py.mkRuntime
    (fun _ => Py.Raise (Py.mkExn Py.JSONDecodeError "Expecting value"))
    (fun _ => EmptyString) (fun _ => EmptyString)
    (fun s =>
       match s with
       | String c rest =>
           match digit_of_ascii c with
           | Some d =>
               if (String.eqb rest EmptyString || String.eqb rest Harness.newline)%bool
               then Py.Ok (IZR d)
               else Py.Raise (Py.mkExn Py.ValueError "could not convert string to float")
           | None => Py.Raise (Py.mkExn Py.ValueError "could not convert string to float")
           end
       | EmptyString => Py.Raise (Py.mkExn Py.ValueError "could not convert string to float")
       end).

(* ================================================================== *)
(** * The definitions on small inputs *)

Example format_03b_0 : QRAM.format_03b 0 = ["0"; "0"; "0"]%char.
Proof. reflexivity. Qed.

Example format_03b_6 : QRAM.format_03b 6 = ["1"; "1"; "0"]%char.
Proof. reflexivity. Qed.

Example format_03b_8 : QRAM.format_03b 8 = ["1"; "0"; "0"; "0"]%char.
Proof. reflexivity. Qed.

Example x_layer_6 : QRAM.x_layer (QRAM.format_03b 6) = [Sim.PauliX 2].
Proof. reflexivity. Qed.

Example x_layer_1 : QRAM.x_layer (QRAM.format_03b 1) = [Sim.PauliX 0; Sim.PauliX 1].
Proof. reflexivity. Qed.

Example all_basis_2 :
  Sim.all_basis 2 = [[false; false]; [false; true]; [true; false]; [true; true]].
Proof. reflexivity. Qed.

Example split_comma_two : Py.split_comma "0.1,0.2" = ["0.1"; "0.2"]%string.
Proof. reflexivity. Qed.

Example split_comma_empty : Py.split_comma "" = [""]%string.
Proof. reflexivity. Qed.

Example join_three : Py.join "," ["a"; "b"; "c"]%string = "a,b,c"%string.
Proof. reflexivity. Qed.

Example running_line_0 :
  Harness.running_line 0 "[1]" = "Running test case 0 with input '[1]'..."%string.
Proof. reflexivity. Qed.

Example zero_is_not_None : Py.py_eq (Py.PyInt 0) Py.PyNone = false.
Proof. reflexivity. Qed.

Example unpack_two_of_four :
  Py.exn_str (Py.unpack_error 4 2)
  = "not enough values to unpack (expected 4, got 2)"%string.
Proof. reflexivity. Qed.

(** [rint] rounds halves to the even neighbour. *)
Example rint_half_down : Np.rint (5 / 2) = 2%Z.
Proof.
  unfold Np.rint. rewrite (Zfloor_eq 2 (5 / 2)) by lra.
  destruct (Rlt_dec _ _); [lra|]. destruct (Rlt_dec _ _); [lra|]. reflexivity.
Qed.

Example rint_half_up : Np.rint (7 / 2) = 4%Z.
Proof.
  unfold Np.rint. rewrite (Zfloor_eq 3 (7 / 2)) by lra.
  destruct (Rlt_dec _ _); [lra|]. destruct (Rlt_dec _ _); [lra|]. reflexivity.
Qed.

Example single_line_fields : Harness.single_line "0.1,0.2" = true.
Proof. reflexivity. Qed.

Example single_line_two_lines :
  Harness.single_line ("0.1" ++ Harness.newline ++ "0.2") = false.
Proof. reflexivity. Qed.

(** [np.zeros_like([1, 2])] is an integer array, [np.zeros_like([1, 2.5])]
    is not. *)
Example zeros_like_ints :
  GradientsTyped.zeros_like [GradientsTyped.Int 1; GradientsTyped.Int 2]
  = GradientsTyped.Int64 [0; 0]%Z.
Proof. reflexivity. Qed.

Example zeros_like_mixed :
  GradientsTyped.zeros_like [GradientsTyped.Int 1; GradientsTyped.Float (5 / 2)]
  = GradientsTyped.Float64 [0; 0].
Proof. reflexivity. Qed.

(** The conversion to an integer drops the fraction, also below zero. *)
Example trunc_positive : GradientsTyped.trunc (5 / 2) = 2%Z.
Proof.
  unfold GradientsTyped.trunc. destruct (Rle_dec 0 (5 / 2)); [|lra].
  apply Zfloor_eq. lra.
Qed.

Example trunc_negative : GradientsTyped.trunc (- (5 / 2)) = (-2)%Z.
Proof.
  unfold GradientsTyped.trunc. destruct (Rle_dec 0 (- (5 / 2))); [lra|].
  unfold Zceil. rewrite (Zfloor_eq 2 (- - (5 / 2))); [reflexivity | lra].
Qed.

Section FloatExamples.
Import PrimFloat.
Local Open Scope float_scope.

Example rint_float_half_down : GradientsFloat.rint 2.5 = 2.
Proof. reflexivity. Qed.

Example rint_float_half_up : GradientsFloat.rint 3.5 = 4.
Proof. reflexivity. Qed.

Example rint_float_negative : GradientsFloat.rint (-2.5) = -2.
Proof. reflexivity. Qed.

Example rint_float_large : GradientsFloat.rint 4503599627370497 = 4503599627370497.
Proof. reflexivity. Qed.

Example round_float_5 : GradientsFloat.round_ 5 (-0.6816387600233341) = -0.68164.
Proof. reflexivity. Qed.

Example round_float_zero : GradientsFloat.round_ 5 0 = 0.
Proof. reflexivity. Qed.

(** The parameters of the test case absorb the shift [1e-17], and not the
    shift [1e-12]. *)
Example shift_absorbed :
  0.75 + 1e-17 = 0.75 /\ 0.75 - 1e-17 = 0.75 /\ 1 + 1e-17 = 1 /\ 1 - 1e-17 = 1.
Proof. repeat split; reflexivity. Qed.

Example shift_not_absorbed : (0.75 + 1e-12 =? 0.75) = false.
Proof. reflexivity. Qed.

End FloatExamples.

(* ================================================================== *)
(** * Proofs *)

Section ComplexFacts.
Import Cx.

Lemma C_eq (a b : C) : fst a = fst b -> snd a = snd b -> a = b.
Proof. destruct a, b; simpl; intros; subst; reflexivity. Qed.

End ComplexFacts.

Ltac csimpl :=
  unfold Cx.Cexp_i, Cx.Cminus, Cx.Cplus, Cx.Cmult, Cx.Copp, Cx.Cconj, Cx.RtoC,
    Cx.Ci, Cx.C0, Cx.C1, Cx.Re, Cx.Im, Cx.Cscale, Cx.Cnorm2 in *; simpl fst in *; simpl snd in *.

Ltac lca := apply C_eq; csimpl; try lra; try ring.

Section MatrixFacts.
Import Cx Mat2.

Lemma M2_eq (A B : M2) :
  m00 A = m00 B -> m01 A = m01 B -> m10 A = m10 B -> m11 A = m11 B -> A = B.
Proof. destruct A, B; simpl; intros; subst; reflexivity. Qed.

Lemma matmul_assoc (A B D : M2) :
  matmul A (matmul B D) = matmul (matmul A B) D.
Proof. apply M2_eq; simpl; lca. Qed.

Lemma adjoint_matmul (A B : M2) :
  adjoint (matmul A B) = matmul (adjoint B) (adjoint A).
Proof. apply M2_eq; simpl; lca. Qed.

Lemma matmul_I2_l (A : M2) : matmul I2 A = A.
Proof. destruct A; apply M2_eq; simpl; lca. Qed.

Lemma unitary_matmul (A B : M2) :
  unitary A -> unitary B -> unitary (matmul A B).
Proof.
  unfold unitary; intros HA HB.
  rewrite adjoint_matmul.
  rewrite <- matmul_assoc, (matmul_assoc (adjoint A) A B), HA, matmul_I2_l.
  exact HB.
Qed.

Lemma cos2_sin2 (x : R) : cos x * cos x + sin x * sin x = 1.
Proof. generalize (sin2_cos2 x); unfold Rsqr; lra. Qed.

Lemma unitary_RZ (t : R) : unitary (RZ t).
Proof.
  unfold unitary; apply M2_eq; simpl;
    apply C_eq; csimpl; generalize (cos2_sin2 (t / 2)); intros; lra.
Qed.

Lemma unitary_RX (t : R) : unitary (RX t).
Proof.
  unfold unitary; apply M2_eq; simpl;
    apply C_eq; csimpl; generalize (cos2_sin2 (t / 2)); intros; lra.
Qed.

Lemma unitary_RY (t : R) : unitary (RY t).
Proof.
  unfold unitary; apply M2_eq; simpl;
    apply C_eq; csimpl; generalize (cos2_sin2 (t / 2)); intros; lra.
Qed.

Lemma scale_entry (a b a' b' c : C) :
  (Cconj (a * c) * (b * c) + Cconj (a' * c) * (b' * c))%C
  = ((Cconj c * c) * (Cconj a * b + Cconj a' * b'))%C.
Proof. lca. Qed.

Lemma Cmult_1_l (z : C) : (C1 * z)%C = z.
Proof. destruct z; lca. Qed.

Lemma scale_unit (A : M2) (c : C) :
  (Cconj c * c)%C = C1 ->
  matmul (adjoint (scale A c)) (scale A c) = matmul (adjoint A) A.
Proof.
  intros Hc. apply M2_eq; simpl; rewrite scale_entry, Hc, Cmult_1_l; reflexivity.
Qed.

Lemma Cexp_i_unit (t : R) : (Cconj (Cexp_i t) * Cexp_i t)%C = C1.
Proof. apply C_eq; csimpl; generalize (cos2_sin2 t); intros; lra. Qed.

End MatrixFacts.

(** C8: for all real alpha, beta, gamma and phi, [get_matrix] returns a
    matrix, the product of the phase [cos phi + i sin phi] with
    [RZ alpha * RX beta * RZ gamma], and this matrix is unitary: its
    conjugate transpose times itself is the identity. *)
Theorem get_matrix_unitary (alpha beta gamma phi : R) :
  exists M,
    Universality.get_matrix [alpha; beta; gamma; phi] = Py.Ok M /\
    M = Mat2.scale (Mat2.matmul (Mat2.RZ alpha)
                      (Mat2.matmul (Mat2.RX beta) (Mat2.RZ gamma)))
          (Cx.Cexp_i phi) /\
    Mat2.matmul (Mat2.adjoint M) M = Mat2.I2.
Proof.
  eexists; split; [reflexivity|]; split; [reflexivity|].
  rewrite scale_unit by apply Cexp_i_unit.
  apply unitary_matmul; [apply unitary_RZ|].
  apply unitary_matmul; [apply unitary_RX | apply unitary_RZ].
Qed.

Lemma get_matrix_zero : Universality.get_matrix [0; 0; 0; 0] = Py.Ok Mat2.I2.
Proof.
  unfold Universality.get_matrix. f_equal.
  unfold Mat2.RZ, Mat2.RX, Cx.Cexp_i. replace (0 / 2) with 0 by lra. rewrite cos_0, sin_0.
  apply M2_eq; simpl; lca.
Qed.

(** C9: [error(U, params)] is the Frobenius norm of the real part of [U]
    minus the real part of [get_matrix(params)]; it is unchanged when the
    imaginary parts of [U] are dropped; and there are a matrix [U] and
    parameters with [U <> get_matrix(params)] and [error(U, params) = 0]. *)
Theorem error_ignores_imaginary_parts :
  (forall U alpha beta gamma phi,
      exists M, Universality.get_matrix [alpha; beta; gamma; phi] = Py.Ok M /\
        Universality.error U [alpha; beta; gamma; phi]
        = Py.Ok (Mat2.frobenius
                   [Cx.Re (Mat2.m00 U) - Cx.Re (Mat2.m00 M);
                    Cx.Re (Mat2.m01 U) - Cx.Re (Mat2.m01 M);
                    Cx.Re (Mat2.m10 U) - Cx.Re (Mat2.m10 M);
                    Cx.Re (Mat2.m11 U) - Cx.Re (Mat2.m11 M)]))
  /\ (forall U params,
        Universality.error U params = Universality.error (Mat2.real_part U) params)
  /\ (exists U params M,
         Universality.get_matrix params = Py.Ok M /\ U <> M /\
         Universality.error U params = Py.Ok 0).
Proof.
  split; [|split].
  - intros U alpha beta gamma phi. eexists; split; reflexivity.
  - intros U params. unfold Universality.error.
    destruct (Universality.get_matrix params); reflexivity.
  - exists (Mat2.mk (1, 1) Cx.C0 Cx.C0 Cx.C1), [0; 0; 0; 0], Mat2.I2.
    split; [apply get_matrix_zero|]. split.
    + intros H. apply (f_equal (fun A => Cx.Im (Mat2.m00 A))) in H. cbn in H. lra.
    + unfold Universality.error. rewrite get_matrix_zero. cbn [Py.bind]. f_equal.
      unfold Mat2.frobenius, Mat2.real, Mat2.subtract, Mat2.I2.
      cbn [Mat2.m00 Mat2.m01 Mat2.m10 Mat2.m11 fold_right]. csimpl.
      replace (_ + _) with 0 by ring. apply sqrt_0.
Qed.

(* ------------------------------------------------------------------ *)
(** ** The simulator *)

Section SimFacts.
Import Cx Mat2 Sim.

Lemma apply1_X w psi b : apply1 Mat2.PauliX w psi b = psi (flip w b).
Proof.
  unfold apply1, flip, row_act.
  destruct (bit w b); simpl;
    destruct (psi (set_bit w false b)), (psi (set_bit w true b)); lca.
Qed.

Lemma apply_X w psi b : apply_op (Gate1 Mat2.PauliX w) psi b = psi (flip w b).
Proof. apply apply1_X. Qed.

Lemma apply_CX c t psi b :
  apply_op (Ctrl1 Mat2.PauliX c t) psi b = psi (if bit c b then flip t b else b).
Proof. simpl; unfold ctrl; destruct (bit c b); [apply apply1_X | reflexivity]. Qed.

Lemma apply_CCX c1 c2 t psi b :
  apply_op (Ctrl2 Mat2.PauliX c1 c2 t) psi b
  = psi (if bit c1 b && bit c2 b then flip t b else b).
Proof.
  simpl; unfold ctrl; destruct (bit c1 b), (bit c2 b); simpl; try reflexivity.
  apply apply1_X.
Qed.

Lemma apply_C1 U c t psi b :
  apply_op (Ctrl1 U c t) psi b
  = if bit c b
    then row_act U (bit t b) (psi (set_bit t false b)) (psi (set_bit t true b))
    else psi b.
Proof. reflexivity. Qed.

Lemma adjoint_RY phi : adjoint (Mat2.RY phi) = Mat2.RY (- phi).
Proof.
  unfold Mat2.RY, adjoint; simpl.
  replace (- phi / 2) with (- (phi / 2)) by lra. rewrite cos_neg, sin_neg.
  apply M2_eq; simpl; lca.
Qed.

(** Rotations about the same axis add their angles. *)
Lemma row_act_RY_compose a b r z0 z1 :
  row_act (Mat2.RY a) r (row_act (Mat2.RY b) false z0 z1) (row_act (Mat2.RY b) true z0 z1)
  = row_act (Mat2.RY (a + b)) r z0 z1.
Proof.
  unfold row_act, Mat2.RY. replace ((a + b) / 2) with (a / 2 + b / 2) by lra.
  rewrite cos_plus, sin_plus. destruct z0, z1, r; simpl; lca.
Qed.

Lemma row_act_RY_0 a r z0 z1 :
  a = 0 -> row_act (Mat2.RY a) r z0 z1 = if r then z1 else z0.
Proof.
  intros ->. unfold row_act, Mat2.RY. replace (0 / 2) with 0 by lra.
  rewrite cos_0, sin_0. destruct z0, z1, r; simpl; lca.
Qed.

Lemma row_act_RY_eq a b r z0 z1 :
  a = b -> row_act (Mat2.RY a) r z0 z1 = row_act (Mat2.RY b) r z0 z1.
Proof. intros ->; reflexivity. Qed.

Lemma row_act_RY_ket theta r h :
  row_act (Mat2.RY theta) r (RtoC h) C0
  = if r then RtoC (h * sin (theta / 2)) else RtoC (h * cos (theta / 2)).
Proof. destruct r; unfold row_act, Mat2.RY; simpl; lca. Qed.

Lemma run_ops_rev ops psi : run_ops ops psi = fold_right apply_op psi (rev ops).
Proof. unfold run_ops. rewrite <- fold_left_rev_right. reflexivity. Qed.

Lemma run_ops_app l1 l2 psi : run_ops (l1 ++ l2) psi = run_ops l2 (run_ops l1 psi).
Proof. apply fold_left_app. Qed.

Lemma entry_real U r c : real_matrix U -> Im (entry U r c) = 0.
Proof. intros (H0 & H1 & H2 & H3). destruct r, c; assumption. Qed.

Lemma row_act_real U r z0 z1 :
  real_matrix U -> Im z0 = 0 -> Im z1 = 0 -> Im (row_act U r z0 z1) = 0.
Proof.
  intros HU H0 H1. unfold row_act.
  assert (Ha := entry_real U r false HU). assert (Hb := entry_real U r true HU).
  destruct (entry U r false), (entry U r true), z0, z1. csimpl. subst. ring.
Qed.

Lemma apply_op_real o psi : real_op o -> real_state psi -> real_state (apply_op o psi).
Proof.
  intros Ho Hpsi b. destruct o; cbn [apply_op]; unfold ctrl, apply1.
  - apply row_act_real; auto.
  - destruct (bit c b); [apply row_act_real|]; auto.
  - destruct (bit c1 b); [destruct (bit c2 b); [apply row_act_real|]|]; auto.
Qed.

Lemma run_ops_real ops : forall psi,
  Forall real_op ops -> real_state psi -> real_state (run_ops ops psi).
Proof.
  induction ops as [|o ops IH]; intros psi Hops Hpsi; [exact Hpsi|].
  inversion Hops; subst. apply IH; [assumption|]. apply apply_op_real; assumption.
Qed.

Lemma ket0_real : real_state ket0.
Proof. intros b. unfold ket0. destruct (existsb _ b); reflexivity. Qed.

Lemma wires_ok_app n l1 l2 : wires_ok n (l1 ++ l2) = wires_ok n l1 && wires_ok n l2.
Proof. apply forallb_app. Qed.

Lemma wires_ok_flat_map {A} n (f : A -> list op) l :
  (forall x, In x l -> wires_ok n (f x) = true) -> wires_ok n (flat_map f l) = true.
Proof.
  induction l as [|x l IH]; intros H; [reflexivity|].
  cbn [flat_map]. rewrite wires_ok_app, H by (left; reflexivity).
  apply IH. intros y Hy. apply H. right; exact Hy.
Qed.

End SimFacts.

(** One layer of the queue, applied at a concrete label. *)
Ltac step_op :=
  match goal with
  | |- context [Sim.apply_op (Sim.Gate1 Mat2.PauliX ?w) ?p ?b] =>
      rewrite (apply_X w p b)
  | |- context [Sim.apply_op (Sim.Ctrl1 Mat2.PauliX ?c ?t) ?p ?b] =>
      rewrite (apply_CX c t p b)
  | |- context [Sim.apply_op (Sim.Ctrl2 Mat2.PauliX ?c1 ?c2 ?t) ?p ?b] =>
      rewrite (apply_CCX c1 c2 t p b)
  | |- context [Sim.apply_op (Sim.Ctrl1 (Mat2.RY ?phi) ?c ?t) ?p ?b] =>
      rewrite (apply_C1 (Mat2.RY phi) c t p b)
  end; cbn [Sim.bit Sim.flip Sim.set_bit negb andb].

(* ------------------------------------------------------------------ *)
(** ** qRAM *)

Section QRAMFacts.
Import Cx Mat2 Sim QRAM.

(** The nine gates are [RY theta] on wire 3 controlled on wires 0, 1, 2:
    the angles applied along each branch add up to [theta] on |111> and
    to 0 elsewhere. *)
Lemma ccc_ry_spec theta psi b0 b1 b2 b3 :
  run_ops (ccc_ry theta) psi [b0; b1; b2; b3]
  = addressed_RY true true true theta psi [b0; b1; b2; b3].
Proof.
  rewrite run_ops_rev. unfold ccc_ry, CRY, Toffoli, CNOT.
  cbn [rev app fold_right inv]. rewrite !adjoint_RY.
  unfold addressed_RY, apply1.
  destruct b0, b1, b2, b3; cbn [andb Bool.eqb bit set_bit]; repeat step_op;
    rewrite ?row_act_RY_compose;
    first [ reflexivity
          | apply row_act_RY_eq; lra
          | rewrite row_act_RY_0 by lra; reflexivity ].
Qed.

Lemma block_spec a0 a1 a2 theta psi b0 b1 b2 b3 :
  run_ops (block (address_of a0 a1 a2) theta) psi [b0; b1; b2; b3]
  = addressed_RY a0 a1 a2 theta psi [b0; b1; b2; b3].
Proof.
  unfold block. rewrite !run_ops_app.
  destruct a0, a1, a2;
    cbn [address_of Nat.b2n Nat.mul Nat.add format_03b N.of_nat Pos.of_succ_nat Pos.succ
         bin_pos app List.length Nat.sub repeat x_layer enumerate combine seq flat_map
         fst snd Ascii.eqb Bool.eqb];
    unfold PauliX; rewrite (run_ops_rev _ (run_ops _ _)); cbn [rev app fold_right];
    destruct b0, b1, b2, b3; repeat step_op; rewrite ccc_ry_spec;
    unfold addressed_RY, apply1; cbn [andb Bool.eqb bit set_bit];
    rewrite ?run_ops_rev; cbn [rev app fold_right]; repeat step_op; reflexivity.
Qed.

Lemma inv_sqrt2_sq : / sqrt 2 * / sqrt 2 = / 2.
Proof. rewrite <- Rinv_mult. rewrite sqrt_sqrt by lra. reflexivity. Qed.

Lemma sqrt_8 : sqrt 8 = 2 * sqrt 2.
Proof.
  replace 8 with (2 * 2 * 2) by lra.
  rewrite sqrt_mult by lra. rewrite sqrt_square by lra. reflexivity.
Qed.

Lemma inv_sqrt8 : / sqrt 8 = / sqrt 2 * / sqrt 2 * / sqrt 2.
Proof. rewrite sqrt_8, inv_sqrt2_sq. rewrite Rinv_mult. reflexivity. Qed.

(** After the three Hadamards every address has amplitude [1/sqrt 8] and
    wire 3 is still 0. *)
Lemma hadamard_layer b0 b1 b2 b3 :
  run_ops (map Hadamard (seq 0 3)) ket0 [b0; b1; b2; b3]
  = if b3 then C0 else RtoC (/ sqrt 8).
Proof.
  rewrite inv_sqrt8.
  destruct b0, b1, b2, b3;
    cbv [run_ops map seq fold_left Hadamard apply_op apply1 row_act entry bit set_bit
         ket0 existsb orb Mat2.Hadamard m00 m01 m10 m11];
    lca.
Qed.

Lemma circuit_8 t0 t1 t2 t3 t4 t5 t6 t7 :
  circuit [t0; t1; t2; t3; t4; t5; t6; t7]
  = map Hadamard (seq 0 3)
    ++ block (address_of false false false) t0 ++ block (address_of false false true) t1
    ++ block (address_of false true false) t2 ++ block (address_of false true true) t3
    ++ block (address_of true false false) t4 ++ block (address_of true false true) t5
    ++ block (address_of true true false) t6 ++ block (address_of true true true) t7.
Proof. reflexivity. Qed.

Lemma real_x_layer s : Forall real_op (x_layer s).
Proof.
  unfold x_layer. apply Forall_flat_map, Forall_forall. intros [i j] _. cbn [fst snd].
  destruct (Ascii.eqb j "0"); repeat constructor.
Qed.

Lemma real_ccc_ry theta : Forall real_op (ccc_ry theta).
Proof. unfold ccc_ry. repeat constructor; cbn; lra. Qed.

Lemma real_block a theta : Forall real_op (block a theta).
Proof.
  unfold block. rewrite !Forall_app. auto using real_x_layer, real_ccc_ry.
Qed.

Lemma real_circuit thetas : Forall real_op (circuit thetas).
Proof.
  unfold circuit. rewrite Forall_app. split.
  - rewrite Forall_map. apply Forall_forall. intros; repeat split.
  - apply Forall_flat_map, Forall_forall. intros [a t] _. apply real_block.
Qed.

Lemma wires_ok_block a theta : (a < 8)%nat -> wires_ok 4 (block a theta) = true.
Proof. intros Ha. do 8 (destruct a as [|a]; [reflexivity|]). lia. Qed.

Lemma wires_ok_circuit thetas :
  (List.length thetas <= 8)%nat -> wires_ok 4 (circuit thetas) = true.
Proof.
  intros Hlen. unfold circuit. rewrite wires_ok_app.
  replace (wires_ok 4 (map Hadamard (seq 0 3))) with true by reflexivity.
  apply wires_ok_flat_map. intros [a t] Hin. cbn [fst snd].
  apply wires_ok_block. unfold enumerate in Hin.
  apply in_combine_l, in_seq in Hin. lia.
Qed.

End QRAMFacts.

(** C1: for eight angles, [qRAM] returns the sixteen amplitudes of
    [(1/sqrt 8) sum_a |a> (cos(theta_a/2)|0> + sin(theta_a/2)|1>)]; the
    three Hadamards give every address the amplitude [1/sqrt 8]; and the
    block of gates queued for address [a] (the nine gates between the two
    PauliX layers on the zero bits of [a]) acts as [RY theta] on wire 3
    where wires 0, 1, 2 hold [a], and as the identity elsewhere. *)
Theorem qRAM_correct (t0 t1 t2 t3 t4 t5 t6 t7 : R) :
  QRAM.qRAM [t0; t1; t2; t3; t4; t5; t6; t7]
  = Py.Ok (QRAM.addressed_state [t0; t1; t2; t3; t4; t5; t6; t7])
  /\ (forall b0 b1 b2 b3,
        Sim.run_ops (map Sim.Hadamard (seq 0 3)) Sim.ket0 [b0; b1; b2; b3]
        = if b3 then Cx.C0 else Cx.RtoC (/ sqrt 8))
  /\ (forall a0 a1 a2 theta psi b0 b1 b2 b3,
        Sim.run_ops (QRAM.block (QRAM.address_of a0 a1 a2) theta) psi [b0; b1; b2; b3]
        = QRAM.addressed_RY a0 a1 a2 theta psi [b0; b1; b2; b3]).
Proof.
  split; [|split; intros; [apply hadamard_layer | apply block_spec]].
  unfold QRAM.qRAM, Sim.execute.
  replace (Sim.wires_ok 4 (QRAM.circuit [t0; t1; t2; t3; t4; t5; t6; t7])) with true
    by reflexivity.
  cbn [Py.bind]. f_equal.
  rewrite circuit_8, !run_ops_app.
  cbn [Sim.state_vector Sim.all_basis map app QRAM.addressed_state flat_map].
  repeat (apply f_equal2;
          [ repeat (rewrite block_spec; unfold QRAM.addressed_RY, Sim.apply1;
                    cbn [andb Bool.eqb Sim.bit Sim.set_bit]);
            rewrite !hadamard_layer, row_act_RY_ket; reflexivity | ]).
  reflexivity.
Qed.

(** C10: for at most eight angles [qRAM] returns sixteen amplitudes and
    each of them has imaginary part zero. *)
Theorem qRAM_amplitudes_real (thetas : list R) :
  (List.length thetas <= 8)%nat ->
  exists amps, QRAM.qRAM thetas = Py.Ok amps /\ List.length amps = 16%nat
               /\ Forall (fun z => Cx.Im z = 0 /\ z = Cx.RtoC (Cx.Re z)) amps.
Proof.
  intros Hlen. unfold QRAM.qRAM, Sim.execute.
  rewrite (wires_ok_circuit thetas Hlen). cbn [Py.bind].
  eexists; split; [reflexivity|]. split; [reflexivity|].
  unfold Sim.state_vector. rewrite Forall_map. apply Forall_forall. intros b _.
  assert (H : Cx.Im (Sim.run_ops (QRAM.circuit thetas) Sim.ket0 b) = 0)
    by (apply run_ops_real; [apply real_circuit | apply ket0_real]).
  split; [exact H|].
  destruct (Sim.run_ops _ _ b) as [x y]. cbn in H. subst. reflexivity.
Qed.

Lemma qRAM_amplitudes_real_witness :
  (List.length [1; 2; 3] <= 8)%nat /\
  exists amps, QRAM.qRAM [1; 2; 3] = Py.Ok amps /\ List.length amps = 16%nat
               /\ Forall (fun z => Cx.Im z = 0 /\ z = Cx.RtoC (Cx.Re z)) amps.
Proof.
  split; [cbn; lia | apply (qRAM_amplitudes_real [1; 2; 3]); cbn; lia].
Defined.

(* ------------------------------------------------------------------ *)
(** ** Rounding and bounds on the sine *)

Section Numeric.
Import Np.

Lemma rint_unique (x : R) (z : Z) : IZR z - 1 / 2 < x < IZR z + 1 / 2 -> rint x = z.
Proof.
  intros [Hlo Hhi]. unfold rint.
  destruct (Rle_dec (IZR z) x) as [Hz | Hz].
  - rewrite (Zfloor_eq z x) by lra.
    destruct (Rlt_dec (x - IZR z) (1 / 2)); [reflexivity | lra].
  - assert (Hf : Zfloor x = (z - 1)%Z).
    { apply Zfloor_eq. rewrite minus_IZR. lra. }
    rewrite Hf, minus_IZR.
    destruct (Rlt_dec (x - (IZR z - 1)) (1 / 2)); [lra|].
    destruct (Rlt_dec (1 / 2) (x - (IZR z - 1))); [f_equal; lia | lra].
Qed.

Lemma round_unique (d : nat) (x : R) (z : Z) :
  IZR z - 1 / 2 < x * 10 ^ d < IZR z + 1 / 2 -> round_ d x = IZR z / 10 ^ d.
Proof. intros H. unfold round_. rewrite (rint_unique _ z H). reflexivity. Qed.

Lemma INR_fact_S (n : nat) : INR (fact (S n)) = INR (S n) * INR (fact n).
Proof. rewrite fact_simpl, mult_INR. reflexivity. Qed.

(** The partial sums of the sine series of orders 7 and 9. *)
Lemma sin_taylor_bounds (a : R) :
  0 <= a -> a <= PI ->
  a - a ^ 3 / 6 + a ^ 5 / 120 - a ^ 7 / 5040 <= sin a
  <= a - a ^ 3 / 6 + a ^ 5 / 120 - a ^ 7 / 5040 + a ^ 9 / 362880.
Proof.
  intros H0 H1. generalize (SIN a H0 H1).
  unfold sin_lb, sin_ub, sin_approx, sin_term.
  cbn [sum_f_R0 Nat.mul Nat.add].
  rewrite !INR_fact_S. cbn [fact]. rewrite !S_INR. cbn [INR].
  intros [Hl Hu]. split.
  - eapply Rle_trans; [|exact Hl]. apply Req_le. field.
  - eapply Rle_trans; [exact Hu|]. apply Req_le. field.
Qed.

Lemma PI_gt_3 : 3 < PI.
Proof. generalize PI2_3_2. lra. Qed.

Lemma sin_075 : 0.681635 < sin 0.75 < 0.681645.
Proof.
  destruct (sin_taylor_bounds 0.75) as [Hl Hu]; [lra | generalize PI_gt_3; lra |].
  split; [eapply Rlt_le_trans; [|exact Hl] | eapply Rle_lt_trans; [exact Hu|]]; lra.
Qed.

Lemma sin_1 : 0.841465 < sin 1 < 0.841475.
Proof.
  destruct (sin_taylor_bounds 1) as [Hl Hu]; [lra | generalize PI_gt_3; lra |].
  split; [eapply Rlt_le_trans; [|exact Hl] | eapply Rle_lt_trans; [exact Hu|]]; lra.
Qed.

Lemma sin_123_neq_0 : sin 1.23 <> 0.
Proof. apply Rgt_not_eq, sin_gt_0; [lra | generalize PI_gt_3; lra]. Qed.

Lemma isclose_false rtol atol a b :
  atol + rtol * Rabs b < Rabs (a - b) -> isclose rtol atol a b = false.
Proof. intros H. unfold isclose. destruct (Rle_dec _ _); [lra | reflexivity]. Qed.

Lemma isclose_true rtol atol a b :
  Rabs (a - b) <= atol + rtol * Rabs b -> isclose rtol atol a b = true.
Proof. intros H. unfold isclose. destruct (Rle_dec _ _); [reflexivity | lra]. Qed.

Lemma isclose_refl rtol atol a : 0 <= rtol -> 0 <= atol -> isclose rtol atol a a = true.
Proof.
  intros Hr Ha. apply isclose_true. rewrite Rminus_diag, Rabs_R0.
  generalize (Rabs_pos a). intros. nra.
Qed.

Lemma forallb2_isclose_refl rtol atol l :
  0 <= rtol -> 0 <= atol -> forallb2 (isclose rtol atol) l l = true.
Proof.
  intros Hr Ha. induction l as [|x l IH]; [reflexivity|].
  cbn [forallb2]. rewrite isclose_refl, IH by assumption. reflexivity.
Qed.

Lemma allclose_refl rtol atol l :
  0 <= rtol -> 0 <= atol -> allclose rtol atol (Arr1 l) (Arr1 l) = Py.Ok true.
Proof.
  intros Hr Ha. cbn [allclose]. rewrite Nat.eqb_refl, forallb2_isclose_refl by assumption.
  reflexivity.
Qed.

Lemma default_atol_pos : 0 <= default_atol.
Proof. unfold default_atol. lra. Qed.

End Numeric.

(* ------------------------------------------------------------------ *)
(** ** The parameter-shift rule *)

Section GradientFacts.
Import Cx Mat2 Sim Np.

Lemma cos_half (a : R) : cos (a / 2) * cos (a / 2) - sin (a / 2) * sin (a / 2) = cos a.
Proof. rewrite <- (cos_2a (a / 2)). f_equal. lra. Qed.

(** The expectation value of [Z0 + Z1] after [RY a] and [RX b]. *)
Lemma circuit_value a b : Gradients.circuit [a; b] = Py.Ok (cos a + cos b).
Proof.
  unfold Gradients.circuit. cbn [getitem nth_error Py.bind].
  unfold execute. replace (wires_ok 2 _) with true by reflexivity. cbn [Py.bind]. f_equal.
  cbv [expval_Z all_basis map app fold_right run_ops fold_left apply_op RY RX apply1
       row_act entry bit set_bit ket0 existsb orb Mat2.RY Mat2.RX m00 m01 m10 m11].
  csimpl.
  rewrite <- (cos_half a), <- (cos_half b).
  generalize (cos2_sin2 (a / 2)) (cos2_sin2 (b / 2)).
  generalize (cos (a / 2)) (sin (a / 2)) (cos (b / 2)) (sin (b / 2)).
  intros ca sa cb sb Ha Hb.
  assert (Ha' : ca ^ 2 = 1 - sa ^ 2) by lra.
  assert (Hb' : cb ^ 2 = 1 - sb ^ 2) by lra.
  ring_simplify. rewrite Ha', Hb'. ring.
Qed.

Lemma parameter_shift_identity t s c :
  sin s <> 0 ->
  (cos (t + s) + c - (cos (t - s) + c)) / (2 * sin s) = - sin t.
Proof. intros Hs. rewrite cos_plus, cos_minus. field. exact Hs. Qed.

Lemma parameter_shift_identity_r t s c :
  sin s <> 0 ->
  (c + cos (t + s) - (c + cos (t - s))) / (2 * sin s) = - sin t.
Proof. intros Hs. rewrite cos_plus, cos_minus. field. exact Hs. Qed.

End GradientFacts.

Lemma parameter_shift_grad_value (theta_0 theta_1 s : R) :
  sin s <> 0 ->
  Gradients.my_parameter_shift_grad [theta_0; theta_1] s
  = Py.Ok [Np.round_ 5 (- sin theta_0); Np.round_ 5 (- sin theta_1)].
Proof.
  intros Hs. unfold Gradients.my_parameter_shift_grad.
  cbn [Np.getitem nth_error Py.bind]. rewrite !circuit_value.
  cbn [Py.bind Np.zeros_like map Np.setitem].
  rewrite parameter_shift_identity, parameter_shift_identity_r by exact Hs. reflexivity.
Qed.

(* ------------------------------------------------------------------ *)
(** ** Integer parameters and double precision *)

Section TypedGradientFacts.
Import Py GradientsTyped.






Lemma typed_grad_short (params : list number) (s : R) :
  (List.length params < 2)%nat ->
  my_parameter_shift_grad params s = Raise (mkExn IndexError "list index out of range").
Proof.
  intros H. destruct params as [|p0 [|p1 rest]]; [reflexivity | reflexivity |].
  cbn [List.length] in H. lia.
Qed.

End TypedGradientFacts.

Section FloatFacts.
Import Py PrimFloat SpecFloat FloatOps FloatAxioms GradientsFloat.
Local Open Scope float_scope.




Lemma float_grad_short circuit np_sin (params : list float) (s : float) :
  (List.length params < 2)%nat ->
  my_parameter_shift_grad circuit np_sin params s
  = Raise (mkExn IndexError "list index out of range").
Proof.
  intros H. destruct params as [|p0 [|p1 rest]]; [reflexivity | reflexivity |].
  cbn [List.length] in H. lia.
Qed.

Lemma float_grad_long circuit np_sin (p0 p1 : float) (rest : list float) (s : float) :
  (forall a b, exists f, circuit [a; b] = Ok f) ->
  exists g0 g1,
    my_parameter_shift_grad circuit np_sin (p0 :: p1 :: rest) s
    = Ok (g0 :: g1 :: map (fun _ => 0) rest).
Proof.
  intros Hc. unfold my_parameter_shift_grad. cbn [getitem nth_error bind].
  destruct (Hc (p0 + s) p1) as [f1 ->], (Hc (p0 - s) p1) as [f2 ->].
  destruct (Hc p0 (p1 + s)) as [f3 ->], (Hc p0 (p1 - s)) as [f4 ->].
  cbn [bind zeros_like map GradientsTyped.setitem_list GradientsTyped.set_nth option_map].
  do 2 eexists. do 3 f_equal. rewrite map_map. apply map_ext. intros _. reflexivity.
Qed.


End FloatFacts.

Section ShiftClaims.
Import PrimFloat.




End ShiftClaims.

Lemma parameter_shift_value :
  Gradients.my_parameter_shift_grad [0.75; 1.0] 1.23 = Py.Ok [-0.68164; -0.84147].
Proof.
  rewrite (parameter_shift_grad_value 0.75 1.0 1.23 sin_123_neq_0).
  f_equal. f_equal; [|f_equal].
  - rewrite (round_unique 5 _ (-68164)); [lra|].
    generalize sin_075. lra.
  - rewrite (round_unique 5 _ (-84147)); [lra|].
    replace 1.0 with 1 by lra. generalize sin_1. lra.
Qed.

(** C6: for the parameters [0.75, 1.0] and the shift 1.23,
    [my_parameter_shift_grad] returns [-0.68164, -0.84147], which the
    comparison with relative tolerance 1e-4 accepts. *)
Theorem parameter_shift_test_case :
  exists gradient,
    Gradients.my_parameter_shift_grad [0.75; 1.0] 1.23 = Py.Ok gradient
    /\ gradient = [-0.68164; -0.84147]
    /\ Np.allclose (1 / 10 ^ 4) Np.default_atol
         (Np.Arr1 gradient) (Np.Arr1 [-0.68164; -0.84147]) = Py.Ok true.
Proof.
  exists [-0.68164; -0.84147]. split; [|split; [reflexivity|]].
  - apply parameter_shift_value.
  - apply allclose_refl; [lra | apply default_atol_pos].
Qed.

(* ------------------------------------------------------------------ *)
(** ** Bit-flip noise and fidelity *)

Lemma C_ring : ring_theory Cx.C0 Cx.C1 Cx.Cplus Cx.Cmult Cx.Cminus Cx.Copp eq.
Proof.
  constructor; intros; try (destruct x); try (destruct y); try (destruct z); lca.
Qed.

Add Ring C_ring_inst : C_ring.

Lemma Cconj_plus a b : Cx.Cconj (a + b)%C = (Cx.Cconj a + Cx.Cconj b)%C.
Proof. lca. Qed.

Lemma Cconj_mult a b : Cx.Cconj (a * b)%C = (Cx.Cconj a * Cx.Cconj b)%C.
Proof. lca. Qed.

Lemma Cconj_invol a : Cx.Cconj (Cx.Cconj a) = a.
Proof. destruct a; lca. Qed.

Lemma Cconj_0 : Cx.Cconj Cx.C0 = Cx.C0.
Proof. lca. Qed.

Lemma Cconj_RtoC x : Cx.Cconj (Cx.RtoC x) = Cx.RtoC x.
Proof. lca. Qed.

Create Rewrite HintDb conj_db.
#[global] Hint Rewrite Cconj_plus Cconj_mult Cconj_invol Cconj_0 Cconj_RtoC : conj_db.

(** Sums over four indices, written out. *)
Ltac sum4 := cbn [Mixed.csum_n Mixed.csum map seq fold_right].

Ltac use_hermitian H :=
  repeat match goal with
         | |- context [Cx.Cconj (?T ?i ?j)] => rewrite <- (H i j) by lia
         end.

Ltac destruct_amps :=
  repeat match goal with
         | |- context [?f (cons ?a ?l) (cons ?b ?m)] =>
             is_var f; destruct (f (cons a l) (cons b m))
         end.

Section NoiseFacts.
Import Cx Mat2 Sim Np Mixed Noise.

Lemma conj_PauliX : Mat2.conj Mat2.PauliX = Mat2.PauliX.
Proof. apply M2_eq; simpl; lca. Qed.

Lemma apply_unitary_CNOT c t rho i j :
  apply_unitary (CNOT c t) rho i j
  = rho (if bit c i then flip t i else i) (if bit c j then flip t j else j).
Proof.
  unfold apply_unitary, CNOT, conj_op. rewrite conj_PauliX, !apply_CX. reflexivity.
Qed.

Lemma hadamard_rho0 i0 i1 j0 j1 :
  apply_unitary (Hadamard 0) rho0 [i0; i1] [j0; j1]
  = if negb i1 && negb j1 then RtoC (/ 2) else C0.
Proof.
  unfold apply_unitary, Hadamard, conj_op, apply_op, apply1.
  cbn [bit set_bit]. unfold rho0, ket0. cbn [existsb orb].
  rewrite <- inv_sqrt2_sq.
  destruct i0, i1, j0, j1;
    cbn [negb andb row_act entry Mat2.Hadamard Mat2.conj m00 m01 m10 m11]; lca.
Qed.

Lemma bell_state i0 i1 j0 j1 :
  apply_unitary (CNOT 0 1) (apply_unitary (Hadamard 0) rho0) [i0; i1] [j0; j1]
  = bell [i0; i1] [j0; j1].
Proof.
  rewrite apply_unitary_CNOT.
  destruct i0, i1, j0, j1; cbn [bit flip set_bit negb]; rewrite hadamard_rho0; reflexivity.
Qed.

(** A bit flip keeps the matrix with probability [1 - p] and flips the
    wire in both labels with probability [p]. *)
Lemma bitflip_channel_0 p rho i0 i1 j0 j1 :
  0 <= p <= 1 ->
  apply_channel (bitflip_kraus p) 0 rho [i0; i1] [j0; j1]
  = (Cscale (1 - p) (rho [i0; i1] [j0; j1])
     + Cscale p (rho [negb i0; i1] [negb j0; j1]))%C.
Proof.
  intros Hp.
  assert (H1 : sqrt (1 - p) * sqrt (1 - p) = 1 - p) by (apply sqrt_sqrt; lra).
  assert (H2 : sqrt p * sqrt p = p) by (apply sqrt_sqrt; lra).
  unfold apply_channel, bitflip_kraus, apply_kraus, apply1.
  cbn [map fold_right bit set_bit].
  revert H1 H2. generalize (sqrt (1 - p)) (sqrt p). intros sq sp H1 H2.
  destruct i0, j0; cbn [negb];
    cbv [row_act entry scale_real I2 Mat2.PauliX Mat2.conj m00 m01 m10 m11];
    destruct_amps; apply C_eq; csimpl; rewrite <- H1, <- H2; ring.
Qed.

Lemma bitflip_channel_1 p rho i0 i1 j0 j1 :
  0 <= p <= 1 ->
  apply_channel (bitflip_kraus p) 1 rho [i0; i1] [j0; j1]
  = (Cscale (1 - p) (rho [i0; i1] [j0; j1])
     + Cscale p (rho [i0; negb i1] [j0; negb j1]))%C.
Proof.
  intros Hp.
  assert (H1 : sqrt (1 - p) * sqrt (1 - p) = 1 - p) by (apply sqrt_sqrt; lra).
  assert (H2 : sqrt p * sqrt p = p) by (apply sqrt_sqrt; lra).
  unfold apply_channel, bitflip_kraus, apply_kraus, apply1.
  cbn [map fold_right bit set_bit].
  revert H1 H2. generalize (sqrt (1 - p)) (sqrt p). intros sq sp H1 H2.
  destruct i1, j1; cbn [negb];
    cbv [row_act entry scale_real I2 Mat2.PauliX Mat2.conj m00 m01 m10 m11];
    destruct_amps; apply C_eq; csimpl; rewrite <- H1, <- H2; ring.
Qed.

Lemma noise_circuit_value : Noise.circuit = Py.Ok bell_matrix.
Proof.
  unfold Noise.circuit, execute.
  replace (forallb _ _) with true by reflexivity.
  cbn [Py.bind fold_left apply_mop density_matrix all_basis map app]. f_equal.
  rewrite !bell_state. reflexivity.
Qed.

Lemma bitflip_circuit_value p :
  0 <= p <= 1 -> Noise.bitflip_circuit p = Py.Ok (noisy_matrix p).
Proof.
  intros Hp. unfold Noise.bitflip_circuit, BitFlip.
  destruct (Rle_dec 0 p); [|lra]. destruct (Rle_dec p 1); [|lra].
  cbn [Py.bind]. unfold execute.
  replace (forallb _ _) with true by reflexivity.
  cbn [Py.bind fold_left apply_mop density_matrix all_basis map app]. f_equal.
  rewrite !bitflip_channel_1 by exact Hp. rewrite !bitflip_channel_0 by exact Hp.
  rewrite !bell_state. cbn [bell bit negb Bool.eqb andb]. unfold noisy_matrix.
  repeat (apply f_equal2; [ repeat (apply f_equal2; [lca|]); reflexivity | ]).
  reflexivity.
Qed.

Lemma dot_mv_quad (T : matrix) (Hherm : hermitian 4 T) v :
  dot 4 (mv 4 T v) (mv 4 T v) = quad 4 (mmul 4 T T) v.
Proof.
  unfold dot, mv, quad, mmul. sum4. autorewrite with conj_db.
  use_hermitian Hherm. ring.
Qed.

Section RankOne.
Variable T : matrix.
Variable phi : nat -> C.
Hypothesis Hherm : hermitian 4 T.
Hypothesis Hsq : forall i j, (i < 4)%nat -> (j < 4)%nat -> mmul 4 T T i j = outer phi i j.

Lemma norm_mv v : dot 4 (mv 4 T v) (mv 4 T v) = (Cconj (dot 4 phi v) * dot 4 phi v)%C.
Proof.
  rewrite (dot_mv_quad T Hherm).
  unfold quad. sum4. rewrite !Hsq by lia. unfold dot, outer. sum4.
  autorewrite with conj_db. ring.
Qed.

Lemma Ceq_minus a b : (a - b)%C = C0 -> a = b.
Proof. intros H. transitivity ((a - b) + b)%C; [ring | rewrite H; ring]. Qed.

Lemma Cnorm2_conj z : (Cconj z * z)%C = RtoC (Cnorm2 z).
Proof. destruct z; lca. Qed.

Lemma Cnorm2_nonneg z : 0 <= Cnorm2 z.
Proof. destruct z as [x y]. unfold Cnorm2; simpl. nra. Qed.

Lemma Cnorm2_zero z : Cnorm2 z = 0 -> z = C0.
Proof.
  destruct z as [x y]. unfold Cnorm2; simpl. intros H.
  assert (x = 0) by nra. assert (y = 0) by nra. subst. reflexivity.
Qed.

Lemma dot_self_real u :
  dot 4 u u = RtoC (Cnorm2 (u 0%nat) + Cnorm2 (u 1%nat) + Cnorm2 (u 2%nat) + Cnorm2 (u 3%nat)).
Proof. unfold dot. sum4. rewrite !Cnorm2_conj. lca. Qed.

Lemma dot_self_zero u i : dot 4 u u = C0 -> (i < 4)%nat -> u i = C0.
Proof.
  rewrite dot_self_real. intros H Hi. apply (f_equal fst) in H. cbn in H.
  generalize (Cnorm2_nonneg (u 0%nat)) (Cnorm2_nonneg (u 1%nat))
             (Cnorm2_nonneg (u 2%nat)) (Cnorm2_nonneg (u 3%nat)). intros.
  apply Cnorm2_zero.
  do 4 (destruct i as [|i]; [lra|]). lia.
Qed.

(** [T] vanishes on the vectors orthogonal to [phi]. *)
Lemma kernel v i : dot 4 phi v = C0 -> (i < 4)%nat -> mv 4 T v i = C0.
Proof.
  intros Hv Hi. apply dot_self_zero; [|exact Hi].
  rewrite norm_mv, Hv. ring.
Qed.

Lemma column k i :
  (k < 4)%nat -> (i < 4)%nat ->
  (dot 4 phi phi * T i k)%C = (Cconj (phi k) * mv 4 T phi i)%C.
Proof.
  intros Hk Hi.
  assert (H : mv 4 T (fun j => (delta k (dot 4 phi phi) j - Cconj (phi k) * phi j)%C) i = C0).
  { apply kernel; [|exact Hi].
    do 4 (destruct k as [|k]; [unfold dot, delta; sum4; cbn [Nat.eqb]; ring|]). lia. }
  revert H.
  do 4 (destruct k as [|k];
        [unfold mv, delta; sum4; cbn [Nat.eqb]; intros H;
         apply Ceq_minus; etransitivity; [|exact H]; ring |]).
  lia.
Qed.

Lemma trace_dot : (dot 4 phi phi * mtrace 4 T)%C = dot 4 phi (mv 4 T phi).
Proof.
  unfold mtrace. sum4.
  transitivity (dot 4 phi phi * T 0 0 + (dot 4 phi phi * T 1 1
                + (dot 4 phi phi * T 2 2 + dot 4 phi phi * T 3 3)))%C%nat; [ring|].
  rewrite !column by lia. unfold dot. sum4. ring.
Qed.

Lemma mv_mv i :
  (i < 4)%nat ->
  (dot 4 phi phi * (dot 4 phi phi * phi i))%C = (dot 4 phi (mv 4 T phi) * mv 4 T phi i)%C.
Proof.
  intros Hi.
  transitivity (dot 4 phi phi * csum_n 4 (fun j => mmul 4 T T i j * phi j))%C.
  - sum4. rewrite !Hsq by lia. unfold outer, dot. sum4. ring.
  - transitivity (csum_n 4 (fun k => (dot 4 phi phi * T i k) * mv 4 T phi k))%C.
    + unfold mmul, mv. sum4. ring.
    + sum4. rewrite !column by lia. unfold dot. sum4. ring.
Qed.

Lemma cube :
  (dot 4 phi phi * (dot 4 phi phi * dot 4 phi phi))%C
  = (dot 4 phi (mv 4 T phi) * dot 4 phi (mv 4 T phi))%C.
Proof.
  set (N := dot 4 phi phi).
  transitivity (csum_n 4 (fun i => Cconj (phi i) * (N * (N * phi i))))%C.
  - transitivity (N * N * csum_n 4 (fun i => Cconj (phi i) * phi i))%C.
    + change (csum_n 4 (fun i => Cconj (phi i) * phi i)%C) with N. ring.
    + sum4. ring.
  - sum4. subst N. rewrite !mv_mv by lia. unfold dot. sum4. ring.
Qed.

Lemma trace_real : Im (mtrace 4 T) = 0.
Proof.
  assert (H : forall i, (i < 4)%nat -> Im (T i i) = 0).
  { intros i Hi. generalize (Hherm i i Hi Hi). destruct (T i i) as [x y].
    intros E. apply (f_equal snd) in E. cbn in *. lra. }
  unfold mtrace. sum4. csimpl. rewrite !H by lia. ring.
Qed.

(** The trace of a Hermitian square root of [|phi><phi|], squared, is the
    squared norm of [phi]. *)
Lemma trace_squared :
  0 < Re (dot 4 phi phi) -> Re (mtrace 4 T) ^ 2 = Re (dot 4 phi phi).
Proof.
  intros Hpos. generalize cube. rewrite <- trace_dot.
  generalize trace_real. rewrite dot_self_real in *. cbn [Re RtoC fst] in *.
  generalize dependent (Cnorm2 (phi 0%nat) + Cnorm2 (phi 1%nat) + Cnorm2 (phi 2%nat)
                        + Cnorm2 (phi 3%nat)).
  intros N HN. destruct (mtrace 4 T) as [r y]. cbn. intros -> E.
  apply (f_equal fst) in E. cbn in E. 
  assert (E' : N * N * (r * r - N) = 0) by (ring_simplify in E; ring_simplify; lra).
  assert (N * N <> 0) by nra.
  apply Rmult_integral in E'. destruct E' as [E'|E']; [contradiction | lra].
Qed.

End RankOne.

Lemma bell_matrix_outer i j :
  (i < 4)%nat -> (j < 4)%nat -> mentry bell_matrix i j = outer bell_ket i j.
Proof.
  intros Hi Hj.
  do 4 (destruct i as [|i]; [do 4 (destruct j as [|j]; [cbn; rewrite <- ?inv_sqrt2_sq; lca|]); lia|]).
  lia.
Qed.

Section PureSecond.
Variable S sigma : matrix.
Variable psi : nat -> C.
Hypothesis Hherm : hermitian 4 S.
Hypothesis Hsigma : forall i j, (i < 4)%nat -> (j < 4)%nat -> sigma i j = outer psi i j.

Lemma sandwich_outer i j :
  (i < 4)%nat -> (j < 4)%nat ->
  mmul 4 S (mmul 4 sigma S) i j = outer (mv 4 S psi) i j.
Proof.
  intros Hi Hj. unfold mmul. sum4. rewrite !Hsigma by lia.
  unfold outer, mv. sum4. autorewrite with conj_db.
  repeat match goal with
         | |- context [Cconj (S j ?k)] => rewrite <- (Hherm j k) by lia
         end.
  ring.
Qed.

End PureSecond.

Lemma outer_root (M : matrix) (phi : nat -> C) :
  (forall i j, (i < 4)%nat -> (j < 4)%nat -> M i j = outer phi i j) ->
  0 < Re (dot 4 phi phi) ->
  is_sqrt 4 M (fun i j => (RtoC (/ sqrt (Re (dot 4 phi phi))) * outer phi i j)%C).
Proof.
  intros HM Hpos. set (N := Re (dot 4 phi phi)) in *.
  assert (HN : dot 4 phi phi = RtoC N) by (unfold N; rewrite dot_self_real; reflexivity).
  assert (Hc : / sqrt N * / sqrt N * N = 1).
  { rewrite <- Rinv_mult, sqrt_sqrt by lra. field. lra. }
  assert (Hc0 : 0 < / sqrt N) by (apply Rinv_0_lt_compat, sqrt_lt_R0; lra).
  split; [split|].
  - intros i j _ _. unfold outer. autorewrite with conj_db. ring.
  - intros v.
    assert (E : quad 4 (fun i j => (RtoC (/ sqrt N) * outer phi i j)%C) v
                = (RtoC (/ sqrt N) * (Cconj (dot 4 phi v) * dot 4 phi v))%C).
    { unfold quad, outer, dot. sum4. autorewrite with conj_db. ring. }
    rewrite E, Cnorm2_conj.
    replace (Re _) with (/ sqrt N * Cnorm2 (dot 4 phi v)) by (csimpl; ring).
    apply Rmult_le_pos; [lra | apply Cnorm2_nonneg].
  - intros i j Hi Hj. rewrite HM by assumption.
    transitivity (RtoC (/ sqrt N) * RtoC (/ sqrt N) * dot 4 phi phi * outer phi i j)%C.
    + unfold mmul, outer, dot. sum4. ring.
    + rewrite HN. transitivity (RtoC (/ sqrt N * / sqrt N * N) * outer phi i j)%C; [lca|].
      rewrite Hc. change (RtoC 1) with C1. ring.
Qed.

Lemma sq_sum_nonneg a b : 0 <= a * a + b * b.
Proof. nra. Qed.

Lemma sqrt_noisy_root p :
  0 <= p <= 1 -> is_sqrt 4 (mentry (noisy_matrix p)) (mentry (sqrt_noisy p)).
Proof.
  intros Hp.
  assert (Ha : 0 <= (1 - p) * (1 - p) + p * p) by nra.
  assert (Hb : 0 <= 2 * p * (1 - p)) by nra.
  assert (Hsa := sqrt_sqrt _ Ha). assert (Hsb := sqrt_sqrt _ Hb).
  assert (Hpa := sqrt_pos ((1 - p) * (1 - p) + p * p)).
  assert (Hpb := sqrt_pos (2 * p * (1 - p))).
  unfold sqrt_noisy, noisy_matrix.
  revert Hsa Hsb Hpa Hpb.
  generalize (sqrt ((1 - p) * (1 - p) + p * p)) (sqrt (2 * p * (1 - p))).
  intros sa sb Hsa Hsb Hpa Hpb.
  split; [split|].
  - intros i j Hi Hj.
    do 4 (destruct i as [|i]; [do 4 (destruct j as [|j]; [cbn [mentry nth]; lca|]); lia|]). lia.
  - intros v. unfold quad. sum4. cbn [mentry nth].
    destruct (v 0%nat) as [x0 y0], (v 1%nat) as [x1 y1], (v 2%nat) as [x2 y2],
             (v 3%nat) as [x3 y3].
    csimpl.
    match goal with
    | |- 0 <= ?e =>
        replace e with (sa / 2 * ((x0 + x3) * (x0 + x3) + (y0 + y3) * (y0 + y3))
                        + sb / 2 * ((x1 + x2) * (x1 + x2) + (y1 + y2) * (y1 + y2)))
          by ring
    end.
    apply Rplus_le_le_0_compat; (apply Rmult_le_pos; [lra | apply sq_sum_nonneg]).
  - intros i j Hi Hj.
    do 4 (destruct i as [|i];
          [do 4 (destruct j as [|j];
                 [unfold mmul; sum4; cbn [mentry nth]; apply C_eq; csimpl; nra|]); lia|]).
    lia.
Qed.

Lemma quad_noisy_bell p (S : matrix) :
  (forall i j, (i < 4)%nat -> (j < 4)%nat -> mmul 4 S S i j = mentry (noisy_matrix p) i j) ->
  quad 4 (mmul 4 S S) bell_ket = RtoC ((1 - p) * (1 - p) + p * p).
Proof.
  intros HS. unfold quad. sum4. rewrite !HS by lia.
  cbn [mentry nth noisy_matrix bell_ket].
  apply C_eq; csimpl; generalize inv_sqrt2_sq; generalize (/ sqrt 2); intros r Hr.
  - transitivity (4 * (r * r) * (((1 - p) * (1 - p) + p * p) / 2)); [ring | rewrite Hr; field].
  - ring.
Qed.

Lemma fidelity_uhlmann p :
  0 <= p <= 1 ->
  fidelity (noisy_matrix p) bell_matrix = Py.Ok ((1 - p) * (1 - p) + p * p).
Proof.
  intros Hp. unfold fidelity.
  change (List.length (noisy_matrix p)) with 4%nat.
  change (List.length bell_matrix) with 4%nat. cbn [Nat.eqb]. cbv zeta. f_equal.
  set (s := sqrt_matrix 4 (mentry (noisy_matrix p))).
  assert (Hs : is_sqrt 4 (mentry (noisy_matrix p)) s).
  { unfold s, sqrt_matrix. apply epsilon_spec. exists (mentry (sqrt_noisy p)). apply sqrt_noisy_root, Hp. }
  destruct Hs as [[Hsh _] Hss].
  set (phi := mv 4 s bell_ket).
  assert (HM : forall i j, (i < 4)%nat -> (j < 4)%nat ->
                 mmul 4 s (mmul 4 (mentry bell_matrix) s) i j = outer phi i j).
  { intros i j Hi Hj. apply sandwich_outer; auto using bell_matrix_outer. }
  assert (HN : dot 4 phi phi = RtoC ((1 - p) * (1 - p) + p * p)).
  { unfold phi. rewrite (dot_mv_quad s Hsh). apply quad_noisy_bell, Hss. }
  assert (Hpos : 0 < Re (dot 4 phi phi)) by (rewrite HN; cbn; nra).
  set (t := sqrt_matrix 4 (mmul 4 s (mmul 4 (mentry bell_matrix) s))).
  assert (Ht : is_sqrt 4 (mmul 4 s (mmul 4 (mentry bell_matrix) s)) t).
  { unfold t, sqrt_matrix. apply epsilon_spec. eexists. apply (outer_root _ phi HM Hpos). }
  destruct Ht as [[Hth _] Hts].
  rewrite (trace_squared t phi Hth); [rewrite HN; reflexivity | | exact Hpos].
  intros i j Hi Hj. rewrite Hts, HM by assumption. reflexivity.
Qed.

Lemma fidelity_step p :
  0 <= p <= 1 ->
  (s0 <- bitflip_circuit p ;; s1 <- Noise.circuit ;; fidelity s0 s1)
  = Py.Ok ((1 - p) * (1 - p) + p * p).
Proof.
  intros Hp. rewrite (bitflip_circuit_value p Hp), noise_circuit_value.
  cbn [Py.bind]. apply fidelity_uhlmann, Hp.
Qed.

End NoiseFacts.

Lemma fidelity_of_bitflip p f :
  0 <= p <= 1 -> f = (1 - p) * (1 - p) + p * p ->
  exists s0 s1,
    Noise.bitflip_circuit p = Py.Ok s0 /\ Noise.circuit = Py.Ok s1
    /\ Mixed.fidelity s0 s1 = Py.Ok f.
Proof.
  intros Hp ->. exists (Noise.noisy_matrix p), Noise.bell_matrix.
  auto using bitflip_circuit_value, noise_circuit_value, fidelity_uhlmann.
Qed.

(** C5: for the probabilities [0.05, 0.1, 0.15, 0.2, 0.25], [fidelities]
    returns [0.905, 0.82, 0.745, 0.68, 0.625], which the comparison with
    relative tolerance 1e-4 accepts; each entry is the fidelity between
    the state of [bitflip_circuit(p)] and the Bell state of [circuit()]. *)
Theorem fidelities_test_case :
  exists fids,
    Noise.fidelities [0.05; 0.1; 0.15; 0.2; 0.25] = Py.Ok fids
    /\ fids = [0.905; 0.82; 0.745; 0.68; 0.625]
    /\ Np.allclose (1 / 10 ^ 4) Np.default_atol
         (Np.Arr1 fids) (Np.Arr1 [0.905; 0.82; 0.745; 0.68; 0.625]) = Py.Ok true
    /\ Forall2 (fun p f =>
                  exists s0 s1,
                    Noise.bitflip_circuit p = Py.Ok s0 /\ Noise.circuit = Py.Ok s1
                    /\ Mixed.fidelity s0 s1 = Py.Ok f)
         [0.05; 0.1; 0.15; 0.2; 0.25] fids.
Proof.
  exists [0.905; 0.82; 0.745; 0.68; 0.625]. split; [|split; [reflexivity|split]].
  - unfold Noise.fidelities. cbn [Py.mapM].
    rewrite !fidelity_step by lra. cbn [Py.bind map]. f_equal.
    repeat (apply f_equal2; [|]); try reflexivity.
    + rewrite (round_unique 5 _ 90500); lra.
    + rewrite (round_unique 5 _ 82000); lra.
    + rewrite (round_unique 5 _ 74500); lra.
    + rewrite (round_unique 5 _ 68000); lra.
    + rewrite (round_unique 5 _ 62500); lra.
  - apply allclose_refl; [lra | apply default_atol_pos].
  - repeat constructor; apply fidelity_of_bitflip; lra.
Qed.

(* ------------------------------------------------------------------ *)
(** ** The harness *)

Section HarnessFacts.
Import Py Np Harness.

(** [check] returns [None] or raises; it never returns [0]. *)
Lemma check_allclose_cases rt rtol msg sol expd :
  check_allclose rt rtol msg sol expd = Ok PyNone
  \/ exists e, check_allclose rt rtol msg sol expd = Raise e.
Proof.
  unfold check_allclose.
  destruct (json_loads rt sol); [|right; eexists; reflexivity].
  destruct (json_loads rt expd); [|right; eexists; reflexivity].
  cbn [bind].
  destruct (np_array a); [|right; eexists; reflexivity].
  destruct (np_array a0); [|right; eexists; reflexivity].
  cbn [bind].
  destruct (allclose _ _ _ _) as [[|]|]; cbn;
    [left; reflexivity | right; eexists; reflexivity ..].
Qed.

Lemma check_allclose_fails rt rtol msg sol expd a b :
  (v <- json_loads rt sol ;; np_array v) = Ok a ->
  (v <- json_loads rt expd ;; np_array v) = Ok b ->
  allclose rtol default_atol a b = Ok false ->
  check_allclose rt rtol msg sol expd = Raise (mkExn AssertionError msg).
Proof.
  unfold check_allclose. intros Ha Hb Hc.
  destruct (json_loads rt sol) as [vs|]; [|discriminate].
  destruct (json_loads rt expd) as [ve|]; [|discriminate].
  cbn [bind] in *. rewrite Ha, Hb. cbn [bind]. rewrite Hc. reflexivity.
Qed.

Lemma check_allclose_passes rt rtol msg sol expd a b :
  (v <- json_loads rt sol ;; np_array v) = Ok a ->
  (v <- json_loads rt expd ;; np_array v) = Ok b ->
  allclose rtol default_atol a b = Ok true ->
  check_allclose rt rtol msg sol expd = Ok PyNone.
Proof.
  unfold check_allclose. intros Ha Hb Hc.
  destruct (json_loads rt sol) as [vs|]; [|discriminate].
  destruct (json_loads rt expd) as [ve|]; [|discriminate].
  cbn [bind] in *. rewrite Ha, Hb. cbn [bind]. rewrite Hc. reflexivity.
Qed.

(** An exception of class [Exception] raised by [run] is reported and the
    loop goes on. *)
Lemma test_case_runtime_error run check i input_ expd e w :
  run input_ = Raise e -> is_Exception e = true ->
  test_case run check i input_ expd w
  = (Ok tt, mkWorld (stdin w)
              (stdout w ++ [running_line i input_;
                            ("Runtime Error. " ++ exn_str e)%string])).
Proof.
  intros Hr He. unfold test_case, pbind, print. cbn. rewrite Hr, He. cbn.
  rewrite <- app_assoc. reflexivity.
Qed.

(** An exception raised by [check] leaves the loop. *)
Lemma test_case_check_raises run check i input_ expd output e w :
  run input_ = Ok output -> check output expd = Raise e ->
  test_case run check i input_ expd w
  = (Raise e, mkWorld (stdin w) (stdout w ++ [running_line i input_])).
Proof.
  intros Hr Hc. unfold test_case, pbind, print, lift. cbn. rewrite Hr, Hc. reflexivity.
Qed.

(** When [check] returns, the verdict is "Correct!". *)
Lemma test_case_check_none run check i input_ expd output w :
  run input_ = Ok output -> check output expd = Ok PyNone ->
  test_case run check i input_ expd w
  = (Ok tt, mkWorld (stdin w) (stdout w ++ [running_line i input_; "Correct!"%string])).
Proof.
  intros Hr Hc. unfold test_case, pbind, print, lift. cbn. rewrite Hr, Hc. cbn.
  rewrite <- app_assoc. reflexivity.
Qed.

Lemma adds_only_bind P (p q : prog unit) :
  adds_only P p -> adds_only P q -> adds_only P (p ;;~ q).
Proof.
  intros Hp Hq w. destruct (Hp w) as (l1 & Hi1 & Ho1 & Hf1).
  unfold pbind. destruct (p w) as [[[]|e] w1]; cbn [snd] in *.
  - destruct (Hq w1) as (l2 & Hi2 & Ho2 & Hf2). exists (l1 ++ l2).
    rewrite Hi2, Ho2, Hi1, Ho1, app_assoc. repeat split. apply Forall_app; auto.
  - exists l1. auto.
Qed.

Lemma adds_only_print (P : string -> Prop) s : P s -> adds_only P (print s).
Proof. intros Hs w. exists [s]. cbn. auto. Qed.

Lemma adds_only_lift (P : string -> Prop) (r : result unit) : adds_only P (lift r).
Proof. intros w. exists []. cbn. rewrite app_nil_r. auto. Qed.

Lemma adds_only_stdin P p w : adds_only P p -> stdin (snd (p w)) = stdin w.
Proof. intros H. destruct (H w) as (l & Hi & _). exact Hi. Qed.

Lemma test_case_no_wrong_answer rt rtol msg run i input_ expd :
  adds_only (fun s => wrong_answer_line s = false)
    (test_case run (check_allclose rt rtol msg) i input_ expd).
Proof.
  unfold test_case. apply adds_only_bind; [apply adds_only_print; reflexivity|].
  destruct (run input_) as [output|e].
  - destruct (check_allclose_cases rt rtol msg output expd) as [H | [e H]]; rewrite H.
    + intros w. exists ["Correct!"%string]. cbn. auto.
    + intros w. exists []. cbn. rewrite app_nil_r. auto.
  - destruct (is_Exception e); [apply adds_only_print; reflexivity | apply adds_only_lift].
Qed.

Lemma harness_no_wrong_answer rt rtol msg run tests : forall i,
  adds_only (fun s => wrong_answer_line s = false)
    (harness_from run (check_allclose rt rtol msg) i tests).
Proof.
  induction tests as [|[input_ expd] rest IH]; intros i.
  - intros w. exists []. cbn. rewrite app_nil_r. auto.
  - cbn [harness_from]. apply adds_only_bind; [apply test_case_no_wrong_answer | apply IH].
Qed.

Lemma harness_adds_only run check tests : forall i,
  adds_only harness_line (harness_from run check i tests).
Proof.
  induction tests as [|[input_ expd] rest IH]; intros i.
  - intros w. exists []. cbn. rewrite app_nil_r. auto.
  - cbn [harness_from]. apply adds_only_bind; [|apply IH].
    unfold test_case. apply adds_only_bind.
    { apply adds_only_print. left. eauto. }
    destruct (run input_) as [output|e].
    + destruct (check output expd) as [v|e].
      * intros w. unfold pbind, lift.
        destruct (py_eq (PyInt 0) v); eexists [_]; cbn;
          (split; [reflexivity|]; split; [reflexivity|]);
          (apply Forall_cons; [|apply Forall_nil]); unfold harness_line;
          [right; right; left; exists output, expd; reflexivity
          | right; right; right; reflexivity].
      * intros w. exists []. cbn. rewrite app_nil_r. auto.
    + destruct (is_Exception e); [|apply adds_only_lift].
      apply adds_only_print. right; left. eauto.
Qed.

End HarnessFacts.

Lemma gradients_run_value rt :
  Py.json_loads rt "[[0.75, 1.0], 1.23]"
  = Py.Ok (Py.JList [Py.JList [Py.JNum 0.75; Py.JNum 1.0]; Py.JNum 1.23]) ->
  GradientsNotebook.run rt "[[0.75, 1.0], 1.23]"
  = Py.Ok (Py.str_floats rt [-0.68164; -0.84147]).
Proof.
  intros H. unfold GradientsNotebook.run. rewrite H.
  cbn [Py.bind Harness.as_floats Harness.as_float Py.mapM].
  rewrite parameter_shift_value. reflexivity.
Qed.

(** C2: the harness never prints a "Wrong Answer" line.  When the
    comparison in [check] fails, the [AssertionError] it raises is outside
    the [try] body: it ends the loop after the "Running test case" line,
    uncaught, and no verdict is printed.  So it is in the Gradients
    notebook for the input ['[[0.75, 1.0], 1.23]'] with the expected
    output ['[-0.5, -0.84147]']. *)
Theorem harness_wrong_answer_unreported :
  (forall rt rtol msg run tests,
      Harness.adds_only (fun s => Harness.wrong_answer_line s = false)
        (Harness.harness run (Harness.check_allclose rt rtol msg) tests))
  /\ (forall rt rtol msg run i input_ expd output a b rest w,
        run input_ = Py.Ok output ->
        (v <- Py.json_loads rt output ;; Harness.np_array v) = Py.Ok a ->
        (v <- Py.json_loads rt expd ;; Harness.np_array v) = Py.Ok b ->
        Np.allclose rtol Np.default_atol a b = Py.Ok false ->
        Harness.harness_from run (Harness.check_allclose rt rtol msg) i
          ((input_, expd) :: rest) w
        = (Py.Raise (Py.mkExn Py.AssertionError msg),
           Py.mkWorld (Py.stdin w) (Py.stdout w ++ [Harness.running_line i input_])))
  /\ (forall rt rest w,
        Py.json_loads rt "[[0.75, 1.0], 1.23]"
        = Py.Ok (Py.JList [Py.JList [Py.JNum 0.75; Py.JNum 1.0]; Py.JNum 1.23]) ->
        Py.json_loads rt (Py.str_floats rt [-0.68164; -0.84147])
        = Py.Ok (Py.JList [Py.JNum (-0.68164); Py.JNum (-0.84147)]) ->
        Py.json_loads rt "[-0.5, -0.84147]"
        = Py.Ok (Py.JList [Py.JNum (-0.5); Py.JNum (-0.84147)]) ->
        Harness.harness (GradientsNotebook.run rt) (GradientsNotebook.check rt)
          (("[[0.75, 1.0], 1.23]", "[-0.5, -0.84147]")%string :: rest) w
        = (Py.Raise (Py.mkExn Py.AssertionError "Your gradient isn't quite right!"),
           Py.mkWorld (Py.stdin w)
             (Py.stdout w ++ [Harness.running_line 0 "[[0.75, 1.0], 1.23]"]))).
Proof.
  assert (Hgen : forall rt rtol msg run i input_ expd output a b rest w,
        run input_ = Py.Ok output ->
        (v <- Py.json_loads rt output ;; Harness.np_array v) = Py.Ok a ->
        (v <- Py.json_loads rt expd ;; Harness.np_array v) = Py.Ok b ->
        Np.allclose rtol Np.default_atol a b = Py.Ok false ->
        Harness.harness_from run (Harness.check_allclose rt rtol msg) i
          ((input_, expd) :: rest) w
        = (Py.Raise (Py.mkExn Py.AssertionError msg),
           Py.mkWorld (Py.stdin w) (Py.stdout w ++ [Harness.running_line i input_]))).
  { intros rt rtol msg run i input_ expd output a b rest w Hr Ha Hb Hc.
    cbn [Harness.harness_from]. unfold Py.pbind.
    rewrite (test_case_check_raises _ _ _ _ _ output (Py.mkExn Py.AssertionError msg));
      auto.
    eapply check_allclose_fails; eauto. }
  split; [|split].
  - intros. apply harness_no_wrong_answer.
  - exact Hgen.
  - intros rt rest w Hin Hout Hexp. unfold Harness.harness, GradientsNotebook.check.
    apply (Hgen rt _ _ _ 0%nat _ _ (Py.str_floats rt [-0.68164; -0.84147])
             (Np.Arr1 [-0.68164; -0.84147]) (Np.Arr1 [-0.5; -0.84147])).
    + apply gradients_run_value, Hin.
    + rewrite Hout. reflexivity.
    + rewrite Hexp. reflexivity.
    + cbn [Np.allclose List.length Nat.eqb Np.forallb2]. f_equal.
      rewrite isclose_false; [reflexivity|].
      unfold Np.default_atol, Rabs. repeat destruct (Rcase_abs _); lra.
Qed.

Lemma harness_wrong_answer_unreported_witness :
  Harness.harness (GradientsNotebook.run gradients_runtime)
    (GradientsNotebook.check gradients_runtime)
    [("[[0.75, 1.0], 1.23]", "[-0.5, -0.84147]")%string] (Py.mkWorld "" [])
  = (Py.Raise (Py.mkExn Py.AssertionError "Your gradient isn't quite right!"),
     Py.mkWorld "" [Harness.running_line 0 "[[0.75, 1.0], 1.23]"]).
Proof.
  apply (proj2 (proj2 harness_wrong_answer_unreported) gradients_runtime []
           (Py.mkWorld "" [])); reflexivity.
Defined.

(** C3: the Fourier [check] accepts an output [x] exactly when
    [|x - e| <= 1e-8 + 0.01 * |e|] for the expected output [e]: the
    tolerance is relative.  The output 0.005 is within 0.01 of 0.00368 and
    [check] rejects it with an [AssertionError]. *)
Theorem fourier_check_is_relative :
  (forall x,
      Np.isclose (1 / 10 ^ 2) Np.default_atol x fourier_expected = true
      <-> Rabs (x - fourier_expected)
          <= Np.default_atol + 1 / 10 ^ 2 * Rabs fourier_expected)
  /\ Rabs (0.005 - 0.00368) <= 0.01
  /\ (forall rt sol expd,
        Py.json_loads rt sol = Py.Ok (Py.JNum 0.005) ->
        Py.json_loads rt expd = Py.Ok (Py.JNum fourier_expected) ->
        Fourier.check rt sol expd
        = Py.Raise (Py.mkExn Py.AssertionError
                      "Your calculated squared distance isn't quite right.")).
Proof.
  split; [|split].
  - intros x. unfold Np.isclose. destruct (Rle_dec _ _); split; intros; auto; discriminate.
  - unfold Rabs. destruct (Rcase_abs _); lra.
  - intros rt sol expd Hs He. unfold Fourier.check.
    apply (check_allclose_fails _ _ _ _ _ (Np.Arr0 0.005) (Np.Arr0 fourier_expected)).
    + rewrite Hs. reflexivity.
    + rewrite He. reflexivity.
    + cbn [Np.allclose]. f_equal. apply isclose_false.
      unfold Np.default_atol, fourier_expected.
      unfold Rabs. repeat destruct (Rcase_abs _); lra.
Qed.

Lemma fourier_check_is_relative_witness :
  Fourier.check fourier_runtime "0.005" "0.0036766085933034303"
  = Py.Raise (Py.mkExn Py.AssertionError
                "Your calculated squared distance isn't quite right.").
Proof.
  apply (proj2 (proj2 fourier_check_is_relative) fourier_runtime); reflexivity.
Defined.

(* ------------------------------------------------------------------ *)
(** ** The scripts and standard input *)

Section InterfaceFacts.
Import Cx Py Np Harness.

Lemma qRAM_eight (t0 t1 t2 t3 t4 t5 t6 t7 : R) :
  QRAM.qRAM [t0; t1; t2; t3; t4; t5; t6; t7]
  = Ok (QRAM.addressed_state [t0; t1; t2; t3; t4; t5; t6; t7]).
Proof.
  unfold QRAM.qRAM, Sim.execute.
  replace (Sim.wires_ok 4 (QRAM.circuit [t0; t1; t2; t3; t4; t5; t6; t7])) with true
    by reflexivity.
  cbn [bind]. f_equal.
  rewrite circuit_8, !run_ops_app.
  cbn [Sim.state_vector Sim.all_basis map app QRAM.addressed_state flat_map].
  repeat (apply f_equal2;
          [ repeat (rewrite block_spec; unfold QRAM.addressed_RY, Sim.apply1;
                    cbn [andb Bool.eqb Sim.bit Sim.set_bit]);
            rewrite !hadamard_layer, row_act_RY_ket; reflexivity | ]).
  reflexivity.
Qed.

(** The text the qRAM script computes from what it reads. *)
Lemma main_value rt w :
  QRAMScript.main rt w
  = match (thetas <- mapM (float_of_string rt) (split_comma (stdin w)) ;;
           amps <- QRAM.qRAM thetas ;;
           Ok (join "," (map (str_float rt) (map (fun i => round_ 6 (Re i)) amps)))) with
    | Ok text => (Ok tt, mkWorld EmptyString (stdout w ++ [text]))
    | Raise e => (Raise e, mkWorld EmptyString (stdout w))
    end.
Proof.
  unfold QRAMScript.main, pbind, stdin_read, lift, print. cbn [stdin stdout].
  destruct (mapM _ _) as [thetas|e]; [|reflexivity]. cbn [bind].
  destruct (QRAM.qRAM thetas) as [amps|e]; reflexivity.
Qed.

Lemma main_has_interface rt : stdin_line_interface (QRAMScript.main rt).
Proof.
  exists (fun line =>
            thetas <- mapM (float_of_string rt) (split_comma (line ++ newline)) ;;
            amps <- QRAM.qRAM thetas ;;
            Ok (join "," (map (str_float rt) (map (fun i => round_ 6 (Re i)) amps)))).
  intros line out _. apply main_value.
Qed.

Lemma main_eight rt w t0 t1 t2 t3 t4 t5 t6 t7 :
  mapM (float_of_string rt) (split_comma (stdin w)) = Ok [t0; t1; t2; t3; t4; t5; t6; t7] ->
  QRAMScript.main rt w
  = (Ok tt,
     mkWorld EmptyString
       (stdout w
        ++ [join ","
              (map (fun x => str_float rt (round_ 6 x))
                 (flat_map (fun t => [/ sqrt 8 * cos (t / 2); / sqrt 8 * sin (t / 2)])
                    [t0; t1; t2; t3; t4; t5; t6; t7]))])).
Proof.
  intros H. rewrite main_value, H. cbn [bind]. rewrite qRAM_eight. reflexivity.
Qed.

Lemma harness_not_interface run check tests :
  ~ stdin_line_interface (harness run check tests).
Proof.
  intros [compute H]. specialize (H "x"%string [] eq_refl).
  apply (f_equal (fun r => stdin (snd r))) in H.
  unfold harness in H.
  rewrite (adds_only_stdin _ _ _ (harness_adds_only _ _ _ 0%nat)) in H.
  destruct (compute "x"%string); cbn in H; discriminate.
Qed.

End InterfaceFacts.

(** The notebooks do not have the interface of C4, which the qRAM script
    has: whatever the runtime, the Gradients notebook leaves the line on
    standard input unread. *)
Lemma notebook_reads_no_stdin :
  ~ (exists rt, Harness.stdin_line_interface (GradientsNotebook.script rt)).
Proof.
  intros [rt H]. exact (harness_not_interface _ _ _ H).
Qed.

(** C4, amended: the qRAM script has the interface: run with one line on
    standard input it reads it, converts the fields between the commas to
    floats, and either prints one line, the real parts of the amplitudes
    rounded to six decimals and joined by commas, or ends with the
    exception of the conversion or of [qRAM]; for eight angles the numbers
    it prints are [cos (theta_a / 2) / sqrt 8] and
    [sin (theta_a / 2) / sqrt 8], rounded; and whatever standard input
    holds, it reads all of it and prints one line at most.
    A notebook does not have the interface: its harness reads nothing from
    standard input, its test inputs being the strings of [test_cases]; it
    appends to standard output only "Running test case", "Runtime Error",
    "Wrong Answer" and "Correct!" lines, and for a test case that passes
    it prints the verdict and not the result. *)
Theorem script_interfaces :
  (forall rt, Harness.stdin_line_interface (QRAMScript.main rt))
  /\ (forall rt w t0 t1 t2 t3 t4 t5 t6 t7,
        Py.mapM (Py.float_of_string rt) (Py.split_comma (Py.stdin w))
        = Py.Ok [t0; t1; t2; t3; t4; t5; t6; t7] ->
        QRAMScript.main rt w
        = (Py.Ok tt,
           Py.mkWorld EmptyString
             (Py.stdout w
              ++ [Py.join ","
                    (map (fun x => Py.str_float rt (Np.round_ 6 x))
                       (flat_map
                          (fun t => [/ sqrt 8 * cos (t / 2); / sqrt 8 * sin (t / 2)])
                          [t0; t1; t2; t3; t4; t5; t6; t7]))])))
  /\ (forall rt w,
        exists r lines,
          QRAMScript.main rt w = (r, Py.mkWorld EmptyString (Py.stdout w ++ lines))
          /\ (List.length lines <= 1)%nat)
  /\ (forall run check tests,
        ~ Harness.stdin_line_interface (Harness.harness run check tests))
  /\ (forall run check tests,
        Harness.adds_only Harness.harness_line (Harness.harness run check tests))
  /\ (forall run check input_ expected_output output w,
        run input_ = Py.Ok output ->
        check output expected_output = Py.Ok Py.PyNone ->
        Harness.harness run check [(input_, expected_output)] w
        = (Py.Ok tt,
           Py.mkWorld (Py.stdin w)
             (Py.stdout w ++ [Harness.running_line 0 input_; "Correct!"%string]))).
Proof.
  split; [|split; [|split; [|split; [|split]]]].
  - apply main_has_interface.
  - apply main_eight.
  - intros rt w. rewrite main_value.
    match goal with |- context [match ?c with _ => _ end] => destruct c as [text|e] end.
    + exists (Py.Ok tt), [text]. split; [reflexivity | cbn; lia].
    + exists (Py.Raise e), []. rewrite app_nil_r. split; [reflexivity | cbn; lia].
  - apply harness_not_interface.
  - intros. apply harness_adds_only.
  - intros run check input_ expected_output output w Hr Hc.
    unfold Harness.harness. cbn [Harness.harness_from]. unfold Py.pbind.
    rewrite (test_case_check_none run check 0 input_ expected_output output w Hr Hc).
    reflexivity.
Qed.

Lemma script_interfaces_witness :
  QRAMScript.main digit_runtime
    (Py.mkWorld ("1,2,3,4,5,6,7,8" ++ Harness.newline) [])
  = (Py.Ok tt,
     Py.mkWorld EmptyString
       ([] ++ [Py.join ","
                 (map (fun x => Py.str_float digit_runtime (Np.round_ 6 x))
                    (flat_map (fun t => [/ sqrt 8 * cos (t / 2); / sqrt 8 * sin (t / 2)])
                       [1; 2; 3; 4; 5; 6; 7; 8]))])).
Proof.
  apply (proj1 (proj2 script_interfaces) digit_runtime
           (Py.mkWorld ("1,2,3,4,5,6,7,8" ++ Harness.newline) []) 1 2 3 4 5 6 7 8).
  reflexivity.
Defined.

(* ================================================================== *)
(** * Further properties of the scripts *)

(* ------------------------------------------------------------------ *)
(** ** Universality: which matrices [get_matrix] reaches *)

Section UniversalityFacts.
Import Cx Mat2 Py.

Lemma Cscale_exp r t : Cscale r (Cexp_i t) = (r * cos t, r * sin t).
Proof. lca. Qed.

(** The entries of [get_matrix], each a modulus and a phase. *)
Lemma get_matrix_entries alpha beta gamma phi :
  Universality.get_matrix [alpha; beta; gamma; phi]
  = Ok (Mat2.mk
      (Cscale (cos (beta / 2)) (Cexp_i (phi - alpha / 2 - gamma / 2)))
      (Cscale (sin (beta / 2)) (Cexp_i (phi - alpha / 2 + gamma / 2 - PI / 2)))
      (Cscale (sin (beta / 2)) (Cexp_i (phi + alpha / 2 - gamma / 2 - PI / 2)))
      (Cscale (cos (beta / 2)) (Cexp_i (phi + alpha / 2 + gamma / 2)))).
Proof.
  unfold Universality.get_matrix. f_equal.
  apply M2_eq; cbn [m00 m01 m10 m11 scale matmul RZ RX]; apply C_eq; csimpl;
    repeat first [rewrite cos_minus | rewrite sin_minus | rewrite cos_plus | rewrite sin_plus];
    rewrite ?cos_PI2, ?sin_PI2; ring.
Qed.

Lemma unit_circle_angle x y : x * x + y * y = 1 -> exists t, cos t = x /\ sin t = y.
Proof.
  intros H. assert (Hx : -1 <= x <= 1) by nra.
  assert (Hs : sqrt (1 - Rsqr x) = Rabs y).
  { rewrite <- sqrt_Rsqr_abs. f_equal. unfold Rsqr. lra. }
  destruct (Rle_dec 0 y) as [Hy|Hy].
  - exists (acos x). rewrite cos_acos, sin_acos, Hs by exact Hx.
    rewrite Rabs_pos_eq by exact Hy. auto.
  - exists (- acos x). rewrite cos_neg, sin_neg, cos_acos, sin_acos, Hs by exact Hx.
    rewrite Rabs_left by lra. split; lra.
Qed.

(** Every complex number is its modulus times a phase. *)
Lemma polar (z : C) : exists t, z = Cscale (Cmod z) (Cexp_i t).
Proof.
  destruct z as [x y]. unfold Cmod, Cnorm2; cbn [fst snd].
  destruct (Req_dec (x * x + y * y) 0) as [H0|H0].
  - exists 0. assert (x = 0) by nra. assert (y = 0) by nra. subst.
    replace (0 * 0 + 0 * 0) with 0 by ring. rewrite sqrt_0. lca.
  - assert (Hpos : 0 < x * x + y * y) by nra.
    assert (Hr := sqrt_lt_R0 _ Hpos).
    assert (Hsq := sqrt_sqrt (x * x + y * y) (Rlt_le _ _ Hpos)).
    set (r := sqrt (x * x + y * y)) in *.
    destruct (unit_circle_angle (x / r) (y / r)) as [t [Hc Hs]].
    { transitivity ((x * x + y * y) / (r * r)); [field; lra | rewrite Hsq; field; lra]. }
    exists t. apply C_eq; csimpl; rewrite ?Hc, ?Hs; field; lra.
Qed.

(** The second column of a unitary matrix, from the moduli and phases of
    the first. *)
Lemma second_column a b c d ta tc :
  let r := Cmod a in let s := Cmod c in
  unitary (Mat2.mk a b c d) ->
  a = Cscale r (Cexp_i ta) -> c = Cscale s (Cexp_i tc) ->
  r * r + s * s = 1 /\
  exists td, d = Cscale r (Cexp_i td) /\ b = Cscale (- s) (Cexp_i (ta + td - tc)).
Proof.
  intros r s HU Ha Hc.
  assert (Hr : 0 <= r) by apply sqrt_pos. assert (Hs : 0 <= s) by apply sqrt_pos.
  assert (Hr2 : r * r = Cnorm2 a) by (apply sqrt_sqrt, Cnorm2_nonneg).
  assert (Hs2 : s * s = Cnorm2 c) by (apply sqrt_sqrt, Cnorm2_nonneg).
  unfold unitary in HU.
  assert (E00 := f_equal (fun M => fst (m00 M)) HU).
  assert (E01 := f_equal (fun M => fst (m01 M)) HU).
  assert (E01' := f_equal (fun M => snd (m01 M)) HU).
  assert (E11 := f_equal (fun M => fst (m11 M)) HU).
  clear HU. revert Hr2 Hs2 Ha Hc. generalize r s Hr Hs. clear r s Hr Hs.
  intros r s Hr Hs Hr2 Hs2 Ha Hc.
  rewrite Cscale_exp in Ha, Hc.
  assert (Hta := cos2_sin2 ta). assert (Htc := cos2_sin2 tc).
  destruct a as [a1 a2], b as [b1 b2], c as [c1 c2], d as [d1 d2].
  cbn in E00, E01, E01', E11. unfold Cnorm2 in Hr2, Hs2. cbn [fst snd] in Hr2, Hs2.
  injection Ha as Ha1 Ha2. injection Hc as Hc1 Hc2.
  assert (Hrs : r * r + s * s = 1) by lra.
  split; [exact Hrs|].
  destruct (Req_dec r 0) as [Hr0|Hr0].
  - (* the first column is (0, c): the second is (b, 0) *)
    assert (s = 1) by nra. subst r s.
    assert (a1 = 0) by nra. assert (a2 = 0) by nra. subst a1 a2.
    assert (Hd : d1 * d1 + d2 * d2 = 0).
    { assert (c1 * d1 + c2 * d2 = 0) by lra. assert (c1 * d2 - c2 * d1 = 0) by lra.
      assert ((c1 * c1 + c2 * c2) * (d1 * d1 + d2 * d2) = 0) by nra. nra. }
    assert (d1 = 0) by nra. assert (d2 = 0) by nra. subst d1 d2.
    destruct (unit_circle_angle b1 b2) as [tb [Hb1 Hb2]]; [lra|].
    exists (tb + tc - ta + PI). rewrite !Cscale_exp. split; [f_equal; ring|].
    replace (ta + (tb + tc - ta + PI) - tc) with (tb + PI) by lra.
    rewrite neg_cos, neg_sin, Hb1, Hb2. f_equal; lra.
  - assert (Hrpos : 0 < r) by lra.
    destruct (polar (d1, d2)) as [td Hd]. rewrite Cscale_exp in Hd.
    set (q := Cmod (d1, d2)) in *.
    assert (Hq : 0 <= q) by apply sqrt_pos.
    assert (Hq2 : q * q = d1 * d1 + d2 * d2) by (apply sqrt_sqrt; nra).
    clearbody q. injection Hd as Hd1 Hd2.
    assert (Htd := cos2_sin2 td).
    assert (B1 : r * b1 = - s * q * cos (ta + td - tc)).
    { rewrite cos_minus, cos_plus, sin_plus. subst a1 a2 c1 c2 d1 d2.
      transitivity (cos ta * (r * cos ta * b1 + r * sin ta * b2)
                    - sin ta * (r * cos ta * b2 - r * sin ta * b1)).
      - transitivity ((cos ta * cos ta + sin ta * sin ta) * (r * b1)); [rewrite Hta|]; ring.
      - replace (r * cos ta * b1 + r * sin ta * b2)
          with (- (s * cos tc * (q * cos td) + s * sin tc * (q * sin td))) by lra.
        replace (r * cos ta * b2 - r * sin ta * b1)
          with (- (s * cos tc * (q * sin td) - s * sin tc * (q * cos td))) by lra.
        ring. }
    assert (B2 : r * b2 = - s * q * sin (ta + td - tc)).
    { rewrite sin_minus, cos_plus, sin_plus. subst a1 a2 c1 c2 d1 d2.
      transitivity (sin ta * (r * cos ta * b1 + r * sin ta * b2)
                    + cos ta * (r * cos ta * b2 - r * sin ta * b1)).
      - transitivity ((cos ta * cos ta + sin ta * sin ta) * (r * b2)); [rewrite Hta|]; ring.
      - replace (r * cos ta * b1 + r * sin ta * b2)
          with (- (s * cos tc * (q * cos td) + s * sin tc * (q * sin td))) by lra.
        replace (r * cos ta * b2 - r * sin ta * b1)
          with (- (s * cos tc * (q * sin td) - s * sin tc * (q * cos td))) by lra.
        ring. }
    assert (Hu := cos2_sin2 (ta + td - tc)).
    assert (Hqr : q = r).
    { assert (E : r * r * (b1 * b1 + b2 * b2) = s * s * (q * q)).
      { transitivity ((r * b1) * (r * b1) + (r * b2) * (r * b2)); [ring|].
        rewrite B1, B2.
        transitivity (s * s * (q * q) * (cos (ta + td - tc) * cos (ta + td - tc)
                                         + sin (ta + td - tc) * sin (ta + td - tc)));
          [ring | rewrite Hu; ring]. }
      assert (q * q = r * r) by nra. nra. }
    subst q. exists td. rewrite !Cscale_exp. subst d1 d2.
    split; [reflexivity|]. f_equal; apply (Rmult_eq_reg_l r); try assumption; lra.
Qed.

Lemma get_matrix_is_unitary params M : Universality.get_matrix params = Ok M -> unitary M.
Proof.
  destruct params as [|alpha [|beta [|gamma [|phi [|x l]]]]]; try discriminate.
  intros E. injection E as <-. unfold unitary.
  rewrite scale_unit by apply Cexp_i_unit.
  apply unitary_matmul; [apply unitary_RZ|].
  apply unitary_matmul; [apply unitary_RX | apply unitary_RZ].
Qed.

Lemma get_matrix_arity params :
  match Universality.get_matrix params with
  | Ok _ => List.length params = 4%nat
  | Raise e => List.length params <> 4%nat /\ exn_cls e = ValueError
  end.
Proof.
  destruct params as [|alpha [|beta [|gamma [|phi [|x l]]]]]; cbn; auto; split; auto; lia.
Qed.

Lemma sum4_sq_nonneg a b c d : 0 <= a * a + (b * b + (c * c + (d * d + 0))).
Proof. nra. Qed.

Lemma frobenius_nonneg l : 0 <= frobenius l.
Proof. apply sqrt_pos. Qed.

Lemma frobenius_zero a b c d :
  frobenius [a; b; c; d] = 0 <-> a = 0 /\ b = 0 /\ c = 0 /\ d = 0.
Proof.
  unfold frobenius. cbn [fold_right]. split.
  - intros H. apply sqrt_eq_0 in H; [|apply sum4_sq_nonneg]. repeat split; nra.
  - intros (-> & -> & -> & ->). replace (0 * 0 + _) with 0 by ring. apply sqrt_0.
Qed.

Lemma frobenius_sq a b c d :
  frobenius [a; b; c; d] * frobenius [a; b; c; d] = a * a + (b * b + (c * c + (d * d + 0))).
Proof. unfold frobenius. cbn [fold_right]. apply sqrt_sqrt, sum4_sq_nonneg. Qed.

Lemma error_value U params M :
  Universality.get_matrix params = Ok M ->
  Universality.error U params
  = Ok (frobenius [Re (m00 U) - Re (m00 M); Re (m01 U) - Re (m01 M);
                   Re (m10 U) - Re (m10 M); Re (m11 U) - Re (m11 M)]).
Proof.
  intros E. unfold Universality.error. rewrite E. cbn [bind]. reflexivity.
Qed.

Lemma error_zero_real U params M :
  Universality.get_matrix params = Ok M ->
  (Universality.error U params = Ok 0 <-> real U = real M).
Proof.
  intros E. rewrite (error_value U params M E). unfold real. split.
  - intros H. injection H as H. apply frobenius_zero in H. destruct H as (H0 & H1 & H2 & H3).
    replace (Re (m00 U)) with (Re (m00 M)) by lra.
    replace (Re (m01 U)) with (Re (m01 M)) by lra.
    replace (Re (m10 U)) with (Re (m10 M)) by lra.
    replace (Re (m11 U)) with (Re (m11 M)) by lra. reflexivity.
  - intros H. injection H as H0 H1 H2 H3. f_equal. apply frobenius_zero. lra.
Qed.

(** With [phi = 0] the two diagonal entries of [get_matrix] are conjugate:
    their real parts agree. *)
Lemma diagonal_without_phase alpha beta gamma M :
  Universality.get_matrix [alpha; beta; gamma; 0] = Ok M -> Re (m00 M) = Re (m11 M).
Proof.
  rewrite get_matrix_entries. intros E. injection E as <-. cbn [m00 m11].
  rewrite !Cscale_exp. cbn [Re fst]. f_equal.
  replace (0 - alpha / 2 - gamma / 2) with (- (0 + alpha / 2 + gamma / 2)) by lra.
  apply cos_neg.
Qed.

Lemma get_matrix_target_Z :
  Universality.get_matrix [PI; 0; 0; PI / 2] = Ok UniversalityNotebook.target_Z.
Proof.
  rewrite get_matrix_entries. f_equal. unfold UniversalityNotebook.target_Z.
  replace (0 / 2) with 0 by lra. rewrite cos_0, sin_0.
  replace (PI / 2 - PI / 2 - 0) with 0 by lra.
  replace (PI / 2 + PI / 2 + 0) with PI by lra.
  apply M2_eq; cbn [m00 m01 m10 m11]; rewrite Cscale_exp;
    rewrite ?cos_0, ?sin_0, ?cos_PI, ?sin_PI; unfold RtoC; f_equal; lra.
Qed.

Lemma unitary_target_Z : unitary UniversalityNotebook.target_Z.
Proof. unfold unitary. apply M2_eq; simpl; lca. Qed.

End UniversalityFacts.

(** X1: the four-parameter model is universal for one qubit: every
    unitary two-by-two matrix is [get_matrix(params)] for some parameters
    [alpha, beta, gamma, phi]. *)
Theorem get_matrix_universal (U : Mat2.M2) :
  Mat2.unitary U ->
  exists alpha beta gamma phi,
    Universality.get_matrix [alpha; beta; gamma; phi] = Py.Ok U.
Proof.
  intros HU. destruct U as [a b c d].
  destruct (polar a) as [ta Ha]. destruct (polar c) as [tc Hc].
  destruct (second_column a b c d ta tc HU Ha Hc) as [Hrs [td [Hd Hb]]].
  set (r := Cx.Cmod a) in *. set (s := Cx.Cmod c) in *.
  assert (Hr : 0 <= r) by apply sqrt_pos. assert (Hs : 0 <= s) by apply sqrt_pos.
  assert (Hr1 : -1 <= r <= 1) by nra.
  exists (tc - ta + PI / 2), (2 * acos r), (td - tc - PI / 2), ((ta + td) / 2).
  rewrite get_matrix_entries. f_equal.
  replace (2 * acos r / 2) with (acos r) by lra.
  rewrite cos_acos, sin_acos by exact Hr1.
  replace (sqrt (1 - Rsqr r)) with s.
  2:{ replace (1 - Rsqr r) with (s * s) by (unfold Rsqr; lra). rewrite sqrt_square; lra. }
  rewrite Ha at 1. rewrite Hb at 1. rewrite Hc at 1. rewrite Hd at 1.
  apply M2_eq; cbn [Mat2.m00 Mat2.m01 Mat2.m10 Mat2.m11]; rewrite !Cscale_exp.
  - f_equal; f_equal; f_equal; lra.
  - replace ((ta + td) / 2 - (tc - ta + PI / 2) / 2 + (td - tc - PI / 2) / 2 - PI / 2)
      with (ta + td - tc - PI) by lra.
    set (X := ta + td - tc).
    rewrite cos_minus, sin_minus, cos_PI, sin_PI. f_equal; ring.
  - f_equal; f_equal; f_equal; lra.
  - f_equal; f_equal; f_equal; lra.
Qed.

Lemma get_matrix_universal_witness :
  Mat2.unitary UniversalityNotebook.target_Z /\
  exists alpha beta gamma phi,
    Universality.get_matrix [alpha; beta; gamma; phi]
    = Py.Ok UniversalityNotebook.target_Z.
Proof.
  split; [apply unitary_target_Z
         | apply (get_matrix_universal UniversalityNotebook.target_Z unitary_target_Z)].
Defined.

(** X2: [error(U, params)] raises the [ValueError] of the unpacking unless
    [params] has four entries; otherwise it returns a number that is never
    negative, and that is zero exactly when the real parts of [U] are the
    real parts of [get_matrix(params)]. *)
Theorem error_zero_iff (U : Mat2.M2) (params : list R) :
  match Universality.error U params with
  | Py.Ok e =>
      List.length params = 4%nat /\ 0 <= e
      /\ (e = 0 <-> exists M, Universality.get_matrix params = Py.Ok M
                               /\ Mat2.real U = Mat2.real M)
  | Py.Raise ex => List.length params <> 4%nat /\ Py.exn_cls ex = Py.ValueError
  end.
Proof.
  generalize (get_matrix_arity params) (fun M => error_zero_real U params M).
  unfold Universality.error.
  destruct (Universality.get_matrix params) as [M|ex]; cbn [Py.bind]; intros Hl Hz.
  - split; [exact Hl|]. split; [apply frobenius_nonneg|]. split.
    + intros H. exists M. split; [reflexivity|]. apply (Hz M eq_refl). f_equal. exact H.
    + intros [M' [E H]]. injection E as <-. apply (Hz M eq_refl) in H.
      injection H as H. exact H.
  - exact Hl.
Qed.

(** X3: in exact arithmetic, for a target [U] that is exactly unitary and
    has real entries, as the second test target [[1, 0], [0, -1]] is, an
    error of zero means that the target is reached: [get_matrix(params)] is
    [U].  (The first test target, with the entries 0.70710678, is not
    exactly unitary.) *)
Theorem error_zero_real_unitary (U : Mat2.M2) (params : list R) :
  Mat2.unitary U -> Sim.real_matrix U ->
  Universality.error U params = Py.Ok 0 ->
  Universality.get_matrix params = Py.Ok U.
Proof.
  intros HU (I00 & I01 & I10 & I11) He.
  destruct (Universality.get_matrix params) as [M|ex] eqn:E.
  2:{ unfold Universality.error in He. rewrite E in He. discriminate. }
  apply (error_zero_real U params M E) in He. f_equal.
  assert (HM := get_matrix_is_unitary params M E).
  unfold Mat2.unitary in HU, HM.
  assert (U00 := f_equal (fun A => fst (Mat2.m00 A)) HU).
  assert (U11 := f_equal (fun A => fst (Mat2.m11 A)) HU).
  assert (M00 := f_equal (fun A => fst (Mat2.m00 A)) HM).
  assert (M11 := f_equal (fun A => fst (Mat2.m11 A)) HM).
  destruct U as [[a1 a2] [b1 b2] [c1 c2] [d1 d2]].
  destruct M as [[p1 p2] [q1 q2] [r1 r2] [s1 s2]].
  unfold Mat2.real in He. cbn in He, I00, I01, I10, I11, U00, U11, M00, M11.
  injection He as -> -> -> ->. subst a2 b2 c2 d2.
  assert (p2 = 0) by nra. assert (r2 = 0) by nra.
  assert (q2 = 0) by nra. assert (s2 = 0) by nra. subst. reflexivity.
Qed.

Lemma error_zero_real_unitary_witness :
  Mat2.unitary UniversalityNotebook.target_Z
  /\ Sim.real_matrix UniversalityNotebook.target_Z
  /\ Universality.error UniversalityNotebook.target_Z [PI; 0; 0; PI / 2] = Py.Ok 0
  /\ Universality.get_matrix [PI; 0; 0; PI / 2] = Py.Ok UniversalityNotebook.target_Z.
Proof.
  assert (H1 := unitary_target_Z).
  assert (H2 : Sim.real_matrix UniversalityNotebook.target_Z) by (repeat split).
  assert (H3 : Universality.error UniversalityNotebook.target_Z [PI; 0; 0; PI / 2]
               = Py.Ok 0).
  { apply (error_zero_real _ _ _ get_matrix_target_Z). reflexivity. }
  repeat split; try assumption.
  apply (error_zero_real_unitary UniversalityNotebook.target_Z [PI; 0; 0; PI / 2] H1 H2 H3).
Defined.

(** X4: the phase [phi] is needed.  With [phi = 0] the diagonal entries
    of [get_matrix] have the same real part, so that the error against a
    target [U] is at least [|Re U00 - Re U11| / sqrt 2]: against the target
    [[1, 0], [0, -1]] it is at least [sqrt 2] for all [alpha, beta, gamma],
    while [alpha = pi, beta = gamma = 0, phi = pi/2] gives the error 0. *)
Theorem error_needs_phase :
  (forall U alpha beta gamma,
      exists e, Universality.error U [alpha; beta; gamma; 0] = Py.Ok e
                /\ (Cx.Re (Mat2.m00 U) - Cx.Re (Mat2.m11 U)) ^ 2 <= 2 * e ^ 2)
  /\ (forall alpha beta gamma,
        exists e, Universality.error UniversalityNotebook.target_Z [alpha; beta; gamma; 0]
                  = Py.Ok e
                  /\ sqrt 2 <= e)
  /\ Universality.error UniversalityNotebook.target_Z [PI; 0; 0; PI / 2] = Py.Ok 0.
Proof.
  assert (G : forall U alpha beta gamma,
      exists e, Universality.error U [alpha; beta; gamma; 0] = Py.Ok e
                /\ (Cx.Re (Mat2.m00 U) - Cx.Re (Mat2.m11 U)) ^ 2 <= 2 * e ^ 2).
  { intros U alpha beta gamma.
    destruct (Universality.get_matrix [alpha; beta; gamma; 0]) as [M|] eqn:E;
      [|discriminate].
    eexists. split; [apply (error_value U _ M E)|].
    assert (D := diagonal_without_phase alpha beta gamma M E).
    replace (Mat2.frobenius _ ^ 2) with (Mat2.frobenius
      [Cx.Re (Mat2.m00 U) - Cx.Re (Mat2.m00 M); Cx.Re (Mat2.m01 U) - Cx.Re (Mat2.m01 M);
       Cx.Re (Mat2.m10 U) - Cx.Re (Mat2.m10 M); Cx.Re (Mat2.m11 U) - Cx.Re (Mat2.m11 M)]
      * Mat2.frobenius
      [Cx.Re (Mat2.m00 U) - Cx.Re (Mat2.m00 M); Cx.Re (Mat2.m01 U) - Cx.Re (Mat2.m01 M);
       Cx.Re (Mat2.m10 U) - Cx.Re (Mat2.m10 M); Cx.Re (Mat2.m11 U) - Cx.Re (Mat2.m11 M)])
      by ring.
    rewrite frobenius_sq, D.
    generalize (Rle_0_sqr (Cx.Re (Mat2.m00 U) - Cx.Re (Mat2.m11 M)
                           + (Cx.Re (Mat2.m11 U) - Cx.Re (Mat2.m11 M))))
               (Rle_0_sqr (Cx.Re (Mat2.m01 U) - Cx.Re (Mat2.m01 M)))
               (Rle_0_sqr (Cx.Re (Mat2.m10 U) - Cx.Re (Mat2.m10 M))).
    unfold Rsqr. lra. }
  split; [exact G|]. split.
  - intros alpha beta gamma.
    destruct (G UniversalityNotebook.target_Z alpha beta gamma) as [e [E H]].
    exists e. split; [exact E|].
    assert (He : 0 <= e).
    { unfold Universality.error in E.
      destruct (Universality.get_matrix _); [|discriminate].
      injection E as <-. apply frobenius_nonneg. }
    cbn in H. apply Rsqr_incr_0_var; [|exact He].
    rewrite Rsqr_sqrt by lra. unfold Rsqr. nra.
  - apply (error_zero_real _ _ _ get_matrix_target_Z). reflexivity.
Qed.

(* ------------------------------------------------------------------ *)
(** ** Unitary operations keep the total probability *)

Section NormFacts.
Import Cx Mat2 Sim Norm.

Lemma sum_app (l1 l2 : list R) :
  fold_right Rplus 0 (l1 ++ l2) = fold_right Rplus 0 l1 + fold_right Rplus 0 l2.
Proof. induction l1 as [|x l1 IH]; cbn; [lra | rewrite IH; lra]. Qed.

Lemma rsum_S n F :
  rsum (S n) F = rsum n (fun b => F (false :: b)) + rsum n (fun b => F (true :: b)).
Proof. unfold rsum. cbn [all_basis]. rewrite map_app, !map_map, sum_app. reflexivity. Qed.

Lemma rsum_plus n F G : rsum n F + rsum n G = rsum n (fun b => F b + G b).
Proof.
  unfold rsum. induction (all_basis n) as [|b l IH]; cbn; [lra | rewrite <- IH; lra].
Qed.

Lemma rsum_ext n F G : (forall b, F b = G b) -> rsum n F = rsum n G.
Proof. intros H. unfold rsum. f_equal. apply map_ext, H. Qed.

Lemma rsum_zero n : rsum n (fun _ => 0) = 0.
Proof. unfold rsum. induction (all_basis n); cbn; lra. Qed.

(** A unitary matrix keeps the norm of the pair of amplitudes it mixes. *)
Lemma row_act_norm U z0 z1 :
  unitary U ->
  Cnorm2 (row_act U false z0 z1) + Cnorm2 (row_act U true z0 z1) = Cnorm2 z0 + Cnorm2 z1.
Proof.
  unfold unitary. intros HU.
  assert (E00 := f_equal (fun M => fst (m00 M)) HU).
  assert (E01 := f_equal (fun M => fst (m01 M)) HU).
  assert (E01' := f_equal (fun M => snd (m01 M)) HU).
  assert (E11 := f_equal (fun M => fst (m11 M)) HU).
  destruct U as [[a1 a2] [b1 b2] [c1 c2] [d1 d2]]. destruct z0 as [x0 y0], z1 as [x1 y1].
  cbn in E00, E01, E01', E11. unfold row_act, entry. csimpl.
  transitivity ((a1 * a1 - - a2 * a2 + (c1 * c1 - - c2 * c2)) * (x0 * x0 + y0 * y0)
                + (b1 * b1 - - b2 * b2 + (d1 * d1 - - d2 * d2)) * (x1 * x1 + y1 * y1)
                + 2 * (a1 * b1 - - a2 * b2 + (c1 * d1 - - c2 * d2)) * (x0 * x1 + y0 * y1)
                + 2 * (a1 * b2 + - a2 * b1 + (c1 * d2 + - c2 * d1)) * (y0 * x1 - x0 * y1)).
  - ring.
  - rewrite E00, E01, E01', E11. ring.
Qed.

Lemma bit_set_bit_other c t v : forall b, c <> t -> bit c (set_bit t v b) = bit c b.
Proof.
  revert t. induction c as [|c IH]; intros [|t] [|x b] H; cbn; try reflexivity;
    try contradiction.
  apply IH. intros ->. apply H. reflexivity.
Qed.

(** A matrix applied to the target wire where a condition on the other
    wires holds keeps the norm. *)
Lemma cond_gate_norm U (HU : unitary U) : forall n t (cond : basis -> bool) (psi : state),
  (t < n)%nat -> (forall v b, cond (set_bit t v b) = cond b) ->
  rsum n (fun b => Cnorm2 (if cond b
                           then row_act U (bit t b) (psi (set_bit t false b))
                                  (psi (set_bit t true b))
                           else psi b))
  = rsum n (fun b => Cnorm2 (psi b)).
Proof.
  induction n as [|n IH]; intros t cond psi Ht Hc; [lia|].
  rewrite !rsum_S. destruct t as [|t].
  - cbn [bit set_bit]. rewrite !rsum_plus. apply rsum_ext. intros b.
    assert (E : cond (true :: b) = cond (false :: b)) by apply (Hc true (false :: b)).
    rewrite E. destruct (cond (false :: b)); [apply row_act_norm, HU | reflexivity].
  - cbn [bit set_bit]. f_equal.
    + apply (IH t (fun b => cond (false :: b)) (fun b => psi (false :: b))); [lia|].
      intros v b. apply (Hc v (false :: b)).
    + apply (IH t (fun b => cond (true :: b)) (fun b => psi (true :: b))); [lia|].
      intros v b. apply (Hc v (true :: b)).
Qed.

Lemma apply_op_acts o psi b :
  apply_op o psi b
  = if acts o b
    then row_act (op_matrix o) (bit (target o) b) (psi (set_bit (target o) false b))
           (psi (set_bit (target o) true b))
    else psi b.
Proof.
  destruct o; cbn [apply_op acts target op_matrix]; unfold ctrl, apply1; try reflexivity.
  destruct (bit c1 b), (bit c2 b); reflexivity.
Qed.

Lemma acts_set_bit o v b : NoDup (wires o) -> acts o (set_bit (target o) v b) = acts o b.
Proof.
  destruct o; cbn [wires acts target]; intros H; [reflexivity | |].
  - apply bit_set_bit_other. inversion H as [|? ? Hn _]; subst.
    intros ->. apply Hn. left; reflexivity.
  - inversion H as [|? ? Hn1 H']; subst. inversion H' as [|? ? Hn2 _]; subst.
    rewrite !bit_set_bit_other; [reflexivity | |].
    + intros ->. apply Hn2. left; reflexivity.
    + intros ->. apply Hn1. right; left; reflexivity.
Qed.

Lemma target_in_wires o : In (target o) (wires o).
Proof. destruct o; cbn; auto. Qed.

Lemma apply_op_norm n o psi :
  unitary_op o -> forallb (fun w => Nat.ltb w n) (wires o) = true ->
  norm2 n (apply_op o psi) = norm2 n psi.
Proof.
  intros [HU Hd] Hw. unfold norm2.
  rewrite (rsum_ext n _ _ (fun b => f_equal Cnorm2 (apply_op_acts o psi b))).
  apply (cond_gate_norm _ HU n (target o) (acts o) psi).
  - rewrite forallb_forall in Hw. apply Nat.ltb_lt, Hw, target_in_wires.
  - intros v b. apply acts_set_bit, Hd.
Qed.

Lemma run_ops_norm n ops : forall psi,
  Forall unitary_op ops -> wires_ok n ops = true ->
  norm2 n (run_ops ops psi) = norm2 n psi.
Proof.
  induction ops as [|o ops IH]; intros psi Hu Hw; [reflexivity|].
  inversion Hu; subst. cbn [wires_ok forallb] in Hw. apply andb_prop in Hw as [Hw1 Hw2].
  change (run_ops (o :: ops) psi) with (run_ops ops (apply_op o psi)).
  rewrite IH by assumption. apply apply_op_norm; assumption.
Qed.

Lemma ket0_norm n : norm2 n ket0 = 1.
Proof.
  unfold norm2. induction n as [|n IH].
  - unfold rsum, ket0, Cnorm2, C1. cbn. lra.
  - rewrite rsum_S. unfold ket0 in *. cbn [existsb orb].
    rewrite IH. replace (Cnorm2 C0) with 0 by (unfold Cnorm2, C0; cbn; ring).
    rewrite rsum_zero. lra.
Qed.

(** The state of an executed queue of unitary operations is normalised. *)
Lemma execute_norm n ops psi :
  Forall unitary_op ops -> execute n ops = Py.Ok psi -> norm2 n psi = 1.
Proof.
  intros Hu. unfold execute. destruct (wires_ok n ops) eqn:Hw; [|discriminate].
  intros E. injection E as <-. rewrite run_ops_norm by assumption. apply ket0_norm.
Qed.

(** An expectation value of PauliZ lies between minus and plus the total
    probability. *)
Lemma expval_Z_bound n w psi : - norm2 n psi <= expval_Z n w psi <= norm2 n psi.
Proof.
  unfold expval_Z, norm2, rsum.
  induction (all_basis n) as [|b l IH]; cbn [map fold_right]; [lra|].
  generalize (Cnorm2_nonneg (psi b)). destruct (bit w b); lra.
Qed.

Lemma sum_state_vector n psi :
  fold_right Rplus 0 (map Cnorm2 (state_vector n psi)) = norm2 n psi.
Proof. unfold state_vector, norm2, rsum. rewrite map_map. reflexivity. Qed.

Lemma unitary_PauliX : unitary Mat2.PauliX.
Proof. unfold unitary. apply M2_eq; simpl; lca. Qed.

Lemma unitary_Hadamard : unitary Mat2.Hadamard.
Proof.
  unfold unitary. apply M2_eq; simpl; apply C_eq; csimpl;
    generalize inv_sqrt2_sq; intros; lra.
Qed.

(** Linearity: a global sign passes through every operation. *)
Lemma row_act_opp U r z0 z1 :
  row_act U r (Copp z0) (Copp z1) = Copp (row_act U r z0 z1).
Proof. unfold row_act. ring. Qed.

Lemma apply_op_sign sgn o psi phi :
  same_up_to_sign sgn psi phi -> same_up_to_sign sgn (apply_op o psi) (apply_op o phi).
Proof.
  intros H b. rewrite !apply_op_acts, !H.
  destruct sgn, (acts o b); try reflexivity. apply row_act_opp.
Qed.

Lemma run_ops_sign sgn ops : forall psi phi,
  same_up_to_sign sgn psi phi -> same_up_to_sign sgn (run_ops ops psi) (run_ops ops phi).
Proof.
  induction ops as [|o ops IH]; intros psi phi H; [exact H|].
  apply (IH (apply_op o psi) (apply_op o phi)), apply_op_sign, H.
Qed.

(** [RX (x + 2 pi)] is [- RX x]. *)
Lemma RX_shift sgn x w psi phi :
  same_up_to_sign sgn psi phi ->
  same_up_to_sign (negb sgn) (apply_op (RX (x + 2 * PI) w) psi) (apply_op (RX x w) phi).
Proof.
  intros H b. unfold RX. cbn [apply_op]. unfold apply1. rewrite !H.
  unfold Mat2.RX. replace ((x + 2 * PI) / 2) with (x / 2 + PI) by lra.
  rewrite neg_cos, neg_sin.
  destruct sgn, (bit w b); unfold row_act, entry; cbn [negb m00 m01 m10 m11];
    destruct (phi (set_bit w false b)), (phi (set_bit w true b)); lca.
Qed.

Lemma Cnorm2_sign sgn psi phi b :
  same_up_to_sign sgn psi phi -> Cnorm2 (psi b) = Cnorm2 (phi b).
Proof. intros H. rewrite H. destruct sgn, (phi b); unfold Cnorm2; cbn; ring. Qed.

End NormFacts.

Ltac distinct_wires := intros H; repeat (destruct H as [H|H]; [discriminate|]); exact H.

(* ------------------------------------------------------------------ *)
(** ** The Fourier notebook's circuit and distance *)

Section FourierFacts.
Import Cx Mat2 Sim Py Norm.

Lemma unitary_W params ops : Fourier.W params = Ok ops -> Forall unitary_op ops.
Proof.
  unfold Fourier.W. destruct params as [|a [|b [|c [|d l]]]]; try discriminate.
  intros E. injection E as <-.
  repeat constructor; cbn; try apply unitary_RX; try apply unitary_PauliX; distinct_wires.
Qed.

Lemma wires_ok_W params ops : Fourier.W params = Ok ops -> wires_ok 3 ops = true.
Proof.
  unfold Fourier.W. destruct params as [|a [|b [|c [|d l]]]]; try discriminate.
  intros E. injection E as <-. reflexivity.
Qed.

(** The circuit as a queue: the two entanglers around the encoding block. *)
Lemma circuit_queue param_list x :
  Fourier.circuit param_list x
  = (w1 <- Fourier.W (firstn 3 param_list) ;;
     w2 <- Fourier.W (skipn 3 param_list) ;;
     Ok (expval_Z 3 0 (run_ops (w1 ++ [RX x 0; RX x 1; RX x 2] ++ w2) ket0))).
Proof.
  unfold Fourier.circuit.
  destruct (Fourier.W (firstn 3 param_list)) as [w1|] eqn:E1; [|reflexivity].
  destruct (Fourier.W (skipn 3 param_list)) as [w2|] eqn:E2; [|reflexivity].
  cbn [bind]. unfold execute.
  rewrite !wires_ok_app, (wires_ok_W _ _ E1), (wires_ok_W _ _ E2). reflexivity.
Qed.

Lemma Cmod_sq z : Cmod z ^ 2 = Cnorm2 z.
Proof. unfold Cmod. rewrite <- Rsqr_pow2. apply Rsqr_sqrt, Cnorm2_nonneg. Qed.

(** The loop of [squared_distance] from index [length pl] on, the lists
    being [pl ++ l] and [pc ++ c]. *)
Lemma squared_distance_loop : forall (l c pl pc : list C) acc,
  List.length pl = List.length pc ->
  fold_left
    (fun res i =>
       r <- res ;;
       match nth_error (pl ++ l) i, nth_error (pc ++ c) i with
       | Some x, Some y => Ok (r + Cmod (x - y)%C ^ 2)
       | _, _ =>
           Raise (mkExn IndexError
                    ("index " ++ str_nat i ++ " is out of bounds for axis 0 with size "
                     ++ str_nat (List.length (pc ++ c))))
       end)
    (seq (List.length pl) (List.length l)) (Ok acc)
  = if Nat.leb (List.length l) (List.length c)
    then Ok (acc + fold_right Rplus 0
                     (map (fun xy => Cnorm2 (fst xy - snd xy)%C) (combine l c)))
    else Raise (mkExn IndexError
                  ("index " ++ str_nat (List.length (pc ++ c))
                   ++ " is out of bounds for axis 0 with size "
                   ++ str_nat (List.length (pc ++ c)))).
Proof.
  induction l as [|x l IH]; intros c pl pc acc Hlen.
  - cbn. f_equal. lra.
  - cbn [List.length seq fold_left bind].
    rewrite nth_error_app2, Nat.sub_diag by lia. cbn [nth_error].
    rewrite Hlen, nth_error_app2, Nat.sub_diag by lia.
    destruct c as [|y c]; cbn [nth_error List.length Nat.leb].
    + rewrite app_nil_r. clear. induction (seq _ _) as [|i s IHs]; [reflexivity | exact IHs].
    + replace (pl ++ x :: l) with ((pl ++ [x]) ++ l) by (rewrite <- app_assoc; reflexivity).
      replace (pc ++ y :: c) with ((pc ++ [y]) ++ c) by (rewrite <- app_assoc; reflexivity).
      replace (S (List.length pc)) with (List.length (pl ++ [x]))
        by (rewrite length_app; cbn; lia).
      rewrite IH by (rewrite !length_app; cbn; lia).
      destruct (Nat.leb _ _); [|reflexivity].
      cbn [combine map fold_right fst snd]. rewrite Cmod_sq. f_equal. lra.
Qed.

Lemma squared_distance_sum (l c : list C) :
  Fourier.squared_distance l c
  = if Nat.leb (List.length l) (List.length c)
    then Ok (fold_right Rplus 0 (map (fun xy => Cnorm2 (fst xy - snd xy)%C) (combine l c)))
    else Raise (mkExn IndexError
                  ("index " ++ str_nat (List.length c)
                   ++ " is out of bounds for axis 0 with size " ++ str_nat (List.length c))).
Proof.
  unfold Fourier.squared_distance.
  etransitivity; [exact (squared_distance_loop l c [] [] 0 eq_refl)|].
  destruct (Nat.leb _ _); [f_equal; lra | reflexivity].
Qed.

Lemma sum_sq_nonneg (l c : list C) :
  0 <= fold_right Rplus 0 (map (fun xy => Cnorm2 (fst xy - snd xy)%C) (combine l c)).
Proof.
  induction (combine l c) as [|[x y] m IH]; cbn [map fold_right]; [lra|].
  generalize (Cnorm2_nonneg (fst (x, y) - snd (x, y))%C). lra.
Qed.

Lemma sum_sq_zero : forall (l c : list C),
  (List.length l <= List.length c)%nat ->
  fold_right Rplus 0 (map (fun xy => Cnorm2 (fst xy - snd xy)%C) (combine l c)) = 0 ->
  firstn (List.length l) c = l.
Proof.
  induction l as [|x l IH]; intros [|y c] Hlen H; cbn in Hlen; try reflexivity; try lia.
  cbn [combine map fold_right fst snd] in H. cbn [List.length firstn].
  generalize (Cnorm2_nonneg (x - y)%C) (sum_sq_nonneg l c). intros H1 H2.
  f_equal.
  - symmetry. apply Ceq_minus, Cnorm2_zero. lra.
  - apply IH; [lia | lra].
Qed.

Lemma sum_sq_firstn : forall (l c : list C),
  firstn (List.length l) c = l ->
  fold_right Rplus 0 (map (fun xy => Cnorm2 (fst xy - snd xy)%C) (combine l c)) = 0.
Proof.
  induction l as [|x l IH]; intros [|y c] H; try reflexivity; try discriminate.
  cbn [List.length firstn] in H. injection H as -> H.
  cbn [combine map fold_right fst snd]. rewrite IH by exact H.
  unfold Cnorm2, Cminus, Cplus, Copp. cbn. ring.
Qed.

End FourierFacts.

(** X5: [squared_distance(list_of_coef, coefficients)] raises
    [IndexError] exactly when [coefficients] has fewer entries than
    [list_of_coef]; otherwise it returns the sum of [|c_i - b_i|^2] over
    the indices of [list_of_coef], the further entries of [coefficients]
    being ignored. *)
Theorem squared_distance_spec (list_of_coef coefficients : list Cx.C) :
  match Fourier.squared_distance list_of_coef coefficients with
  | Py.Ok d =>
      (List.length list_of_coef <= List.length coefficients)%nat
      /\ d = fold_right Rplus 0
               (map (fun cb => Cx.Cnorm2 (fst cb - snd cb)%C)
                  (combine list_of_coef coefficients))
  | Py.Raise e =>
      (List.length coefficients < List.length list_of_coef)%nat
      /\ Py.exn_cls e = Py.IndexError
  end.
Proof.
  rewrite squared_distance_sum. destruct (Nat.leb _ _) eqn:Hle.
  - apply Nat.leb_le in Hle. split; [exact Hle | reflexivity].
  - apply Nat.leb_gt in Hle. split; [exact Hle | reflexivity].
Qed.

(** X6: the squared distance is never negative, and it is zero exactly
    when [coefficients] starts with the entries of [list_of_coef]. *)
Theorem squared_distance_zero (list_of_coef coefficients : list Cx.C) :
  (forall d, Fourier.squared_distance list_of_coef coefficients = Py.Ok d -> 0 <= d)
  /\ (Fourier.squared_distance list_of_coef coefficients = Py.Ok 0
      <-> firstn (List.length list_of_coef) coefficients = list_of_coef).
Proof.
  rewrite squared_distance_sum. split.
  - intros d. destruct (Nat.leb _ _); [|discriminate].
    intros E. injection E as <-. apply sum_sq_nonneg.
  - destruct (Nat.leb _ _) eqn:Hle; split.
    + intros E. injection E as E. apply sum_sq_zero; [apply Nat.leb_le, Hle | exact E].
    + intros E. f_equal. apply sum_sq_firstn, E.
    + discriminate.
    + intros E. apply Nat.leb_gt in Hle. apply (f_equal (@List.length _)) in E.
      rewrite length_firstn in E. lia.
Qed.

(** X7: [circuit(param_list, x)] needs six parameters.  With six it
    returns the expectation value of PauliZ on wire 0 after the first
    entangler, the three [RX(x)] and the second entangler; with fewer than
    three, or with three to five, or with more than six, the unpacking in
    [W] raises [ValueError], for [theta_1] first and for [theta_2] next. *)
Theorem fourier_circuit_arity (param_list : list R) (x : R) :
  match param_list with
  | [a1; b1; c1; a2; b2; c2] =>
      Fourier.circuit param_list x
      = Py.Ok (Sim.expval_Z 3 0
                 (Sim.run_ops
                    [Sim.RX a1 0; Sim.RX b1 1; Sim.RX c1 2;
                     Sim.CNOT 0 1; Sim.CNOT 1 2; Sim.CNOT 2 0;
                     Sim.RX x 0; Sim.RX x 1; Sim.RX x 2;
                     Sim.RX a2 0; Sim.RX b2 1; Sim.RX c2 2;
                     Sim.CNOT 0 1; Sim.CNOT 1 2; Sim.CNOT 2 0] Sim.ket0))
  | _ =>
      Fourier.circuit param_list x
      = Py.Raise (Py.unpack_error 3
                    (if Nat.ltb (List.length param_list) 3
                     then List.length param_list
                     else List.length param_list - 3))
  end.
Proof.
  rewrite circuit_queue.
  destruct param_list as [|a1 [|b1 [|c1 [|a2 [|b2 [|c2 [|e l]]]]]]]; reflexivity.
Qed.

(** X8: the output of the model is periodic in the encoded input [x],
    with period [2 pi], whatever the parameters. *)
Theorem fourier_circuit_periodic (param_list : list R) (x : R) :
  Fourier.circuit param_list (x + 2 * PI) = Fourier.circuit param_list x.
Proof.
  rewrite !circuit_queue.
  destruct (Fourier.W (firstn 3 param_list)) as [w1|]; [|reflexivity].
  destruct (Fourier.W (skipn 3 param_list)) as [w2|]; [|reflexivity].
  cbn [Py.bind]. f_equal. unfold Sim.expval_Z. f_equal. apply map_ext. intros b. f_equal.
  apply (Cnorm2_sign true). rewrite !run_ops_app. apply run_ops_sign.
  change (Sim.run_ops [Sim.RX ?y 0; Sim.RX ?y 1; Sim.RX ?y 2] ?p)
    with (Sim.apply_op (Sim.RX y 2) (Sim.apply_op (Sim.RX y 1) (Sim.apply_op (Sim.RX y 0) p))).
  apply (RX_shift false), (RX_shift true), (RX_shift false), (run_ops_sign false).
  intros b'. reflexivity.
Qed.

(** X9: whenever [circuit(param_list, x)] returns, its value lies between
    -1 and 1. *)
Theorem fourier_circuit_bounded (param_list : list R) (x v : R) :
  Fourier.circuit param_list x = Py.Ok v -> -1 <= v <= 1.
Proof.
  unfold Fourier.circuit.
  destruct (Fourier.W (firstn 3 param_list)) as [w1|] eqn:E1; [|discriminate].
  destruct (Fourier.W (skipn 3 param_list)) as [w2|] eqn:E2; [|discriminate].
  cbn [Py.bind].
  destruct (Sim.execute 3 _) as [psi|] eqn:Ex; [|discriminate]. cbn [Py.bind].
  intros E. injection E as <-.
  assert (Hn : Norm.norm2 3 psi = 1).
  { apply execute_norm in Ex; [exact Ex|].
    rewrite !Forall_app. repeat split; eauto using unitary_W.
    repeat constructor; cbn; try apply unitary_RX; distinct_wires. }
  generalize (expval_Z_bound 3 0 psi). rewrite Hn. tauto.
Qed.

Lemma fourier_circuit_bounded_witness :
  exists v, Fourier.circuit [2; 2; 2; 3; 4; 5] 0 = Py.Ok v /\ -1 <= v <= 1.
Proof.
  eexists. split; [reflexivity|].
  apply (fourier_circuit_bounded [2; 2; 2; 3; 4; 5] 0). reflexivity.
Defined.

(* ------------------------------------------------------------------ *)
(** ** Rounding *)

Section RoundingFacts.
Import Np.

Lemma rint_cases (y : R) : rint y = Zfloor y \/ rint y = (Zfloor y + 1)%Z.
Proof.
  unfold rint. destruct (Rlt_dec _ _); [auto|]. destruct (Rlt_dec _ _); [auto|].
  destruct (Z.even _); auto.
Qed.

(** Rounding to the nearest integer does not cross an integer. *)
Lemma rint_lower (k : Z) (y : R) : IZR k <= y -> (k <= rint y)%Z.
Proof.
  intros H. apply Zfloor_lub in H. destruct (rint_cases y) as [-> | ->]; lia.
Qed.

Lemma rint_upper (k : Z) (y : R) : y <= IZR k -> (rint y <= k)%Z.
Proof.
  intros H. destruct (Req_dec y (IZR k)) as [->|Hne].
  - rewrite (rint_unique (IZR k) k) by lra. lia.
  - assert (Hf : (Zfloor y < k)%Z).
    { apply lt_IZR. generalize (Zfloor_bound y). lra. }
    destruct (rint_cases y) as [-> | ->]; lia.
Qed.

Lemma pow10_pos (d : nat) : 0 < 10 ^ d.
Proof. apply pow_lt. lra. Qed.

Lemma round_lower (d : nat) (k : Z) (x : R) :
  IZR k / 10 ^ d <= x -> IZR k / 10 ^ d <= round_ d x.
Proof.
  intros H. generalize (pow10_pos d). intros Hp. unfold round_.
  apply Rmult_le_compat_r; [left; apply Rinv_0_lt_compat, Hp|].
  apply IZR_le, rint_lower.
  apply (Rmult_le_compat_r (10 ^ d)) in H; [|lra].
  replace (IZR k / 10 ^ d * 10 ^ d) with (IZR k) in H by (field; lra). exact H.
Qed.

Lemma round_upper (d : nat) (k : Z) (x : R) :
  x <= IZR k / 10 ^ d -> round_ d x <= IZR k / 10 ^ d.
Proof.
  intros H. generalize (pow10_pos d). intros Hp. unfold round_.
  apply Rmult_le_compat_r; [left; apply Rinv_0_lt_compat, Hp|].
  apply IZR_le, rint_upper.
  apply (Rmult_le_compat_r (10 ^ d)) in H; [|lra].
  replace (IZR k / 10 ^ d * 10 ^ d) with (IZR k) in H by (field; lra). exact H.
Qed.

End RoundingFacts.

(* ------------------------------------------------------------------ *)
(** ** The parameter-shift rule on lists of any length *)

Section ShiftLengths.
Import PrimFloat.

(** X10: [my_parameter_shift_grad] raises [IndexError] on fewer than two
    parameters, whatever the shift, for integers and floats in exact
    arithmetic and for floats in double precision; on two or more floats
    it returns, in double precision, one entry per parameter, and every
    entry after the first two is [0.0]: only the first two are assigned. *)
Theorem parameter_shift_any_length :
  (forall (params : list GradientsTyped.number) (s : R),
      (List.length params < 2)%nat ->
      GradientsTyped.my_parameter_shift_grad params s
      = Py.Raise (Py.mkExn Py.IndexError "list index out of range"))
  /\ (forall (circuit : list float -> Py.result float) (np_sin : float -> float)
             (params : list float) (s : float),
        (List.length params < 2)%nat ->
        GradientsFloat.my_parameter_shift_grad circuit np_sin params s
        = Py.Raise (Py.mkExn Py.IndexError "list index out of range"))
  /\ (forall (circuit : list float -> Py.result float) (np_sin : float -> float)
             (p0 p1 : float) (rest : list float) (s : float),
        (forall a b, exists f, circuit [a; b] = Py.Ok f) ->
        exists g0 g1,
          GradientsFloat.my_parameter_shift_grad circuit np_sin (p0 :: p1 :: rest) s
          = Py.Ok (g0 :: g1 :: map (fun _ => 0%float) rest)).
Proof.
  split; [|split].
  - apply typed_grad_short.
  - apply float_grad_short.
  - apply float_grad_long.
Qed.

Lemma parameter_shift_any_length_witness :
  GradientsTyped.my_parameter_shift_grad [GradientsTyped.Int 3] 1.23
  = Py.Raise (Py.mkExn Py.IndexError "list index out of range")
  /\ GradientsFloat.my_parameter_shift_grad
       (fun params => Py.Ok (fold_right PrimFloat.add 0%float params)) (fun x => x)
       [0.75%float] 1.23%float
     = Py.Raise (Py.mkExn Py.IndexError "list index out of range")
  /\ exists g0 g1,
       GradientsFloat.my_parameter_shift_grad
         (fun params => Py.Ok (fold_right PrimFloat.add 0%float params)) (fun x => x)
         [0.75%float; 1%float; 7%float] 1.23%float
       = Py.Ok (g0 :: g1 :: map (fun _ => 0%float) [7%float]).
Proof.
  split; [|split].
  - apply (proj1 parameter_shift_any_length [GradientsTyped.Int 3] 1.23). cbn. lia.
  - apply (proj1 (proj2 parameter_shift_any_length)). cbn. lia.
  - apply (proj2 (proj2 parameter_shift_any_length)). intros a b. eexists. reflexivity.
Defined.

End ShiftLengths.

(* ------------------------------------------------------------------ *)
(** ** Bit-flip noise for every probability *)

Section NoiseMore.
Import Cx Mat2 Sim Np Mixed Noise Py.

Lemma bitflip_circuit_rejects p :
  ~ 0 <= p <= 1 ->
  bitflip_circuit p = Raise (mkExn ValueError "p must be in the interval [0,1]").
Proof.
  intros Hp. unfold bitflip_circuit, BitFlip.
  destruct (Rle_dec 0 p); [|reflexivity]. destruct (Rle_dec p 1); [lra | reflexivity].
Qed.

Lemma fidelities_ok probs :
  Forall (fun p => 0 <= p <= 1) probs ->
  fidelities probs = Ok (map (fun p => round_ 5 ((1 - p) * (1 - p) + p * p)) probs).
Proof.
  intros H. unfold fidelities.
  assert (E : mapM (fun p => s0 <- bitflip_circuit p ;; s1 <- Noise.circuit ;; fidelity s0 s1)
                probs
              = Ok (map (fun p => (1 - p) * (1 - p) + p * p) probs)).
  { induction H as [|p l Hp Hl IH]; [reflexivity|].
    cbn [mapM map]. rewrite (fidelity_step p Hp), IH. reflexivity. }
  rewrite E. cbn [bind]. rewrite map_map. reflexivity.
Qed.

Lemma fidelities_raise probs :
  Exists (fun p => ~ 0 <= p <= 1) probs ->
  fidelities probs = Raise (mkExn ValueError "p must be in the interval [0,1]").
Proof.
  intros H. unfold fidelities.
  assert (E : mapM (fun p => s0 <- bitflip_circuit p ;; s1 <- Noise.circuit ;; fidelity s0 s1)
                probs
              = Raise (mkExn ValueError "p must be in the interval [0,1]")).
  { induction probs as [|p l IH]; [inversion H|].
    cbn [mapM].
    destruct (Rle_dec 0 p) as [H0|H0]; [destruct (Rle_dec p 1) as [H1|H1]|].
    - rewrite (fidelity_step p) by lra. cbn [bind].
      rewrite IH; [reflexivity|]. inversion H; subst; [lra | assumption].
    - rewrite bitflip_circuit_rejects by lra. reflexivity.
    - rewrite bitflip_circuit_rejects by lra. reflexivity. }
  rewrite E. reflexivity.
Qed.

Lemma noisy_matrix_psd p : 0 <= p <= 1 -> psd 4 (mentry (noisy_matrix p)).
Proof.
  intros Hp. unfold noisy_matrix. split.
  - intros i j Hi Hj.
    do 4 (destruct i as [|i]; [do 4 (destruct j as [|j]; [cbn [mentry nth]; lca|]); lia|]). lia.
  - intros v. unfold quad. sum4. cbn [mentry nth].
    destruct (v 0%nat) as [x0 y0], (v 1%nat) as [x1 y1], (v 2%nat) as [x2 y2],
             (v 3%nat) as [x3 y3].
    csimpl.
    match goal with
    | |- 0 <= ?e =>
        replace e with (((1 - p) * (1 - p) + p * p) / 2
                        * ((x0 + x3) * (x0 + x3) + (y0 + y3) * (y0 + y3))
                        + p * (1 - p) * ((x1 + x2) * (x1 + x2) + (y1 + y2) * (y1 + y2)))
          by (field_simplify; ring)
    end.
    apply Rplus_le_le_0_compat; (apply Rmult_le_pos; [nra | apply sq_sum_nonneg]).
Qed.

Lemma noisy_matrix_trace p : mtrace 4 (mentry (noisy_matrix p)) = C1.
Proof. unfold mtrace, noisy_matrix. sum4. cbn [mentry nth]. apply C_eq; csimpl; field. Qed.

Lemma noisy_matrix_sym p : noisy_matrix (1 - p) = noisy_matrix p.
Proof.
  unfold noisy_matrix.
  replace ((1 - (1 - p)) * (1 - (1 - p)) + (1 - p) * (1 - p))
    with ((1 - p) * (1 - p) + p * p) by ring.
  replace ((1 - p) * (1 - (1 - p))) with (p * (1 - p)) by ring. reflexivity.
Qed.

Lemma noisy_matrix_0 : noisy_matrix 0 = bell_matrix.
Proof.
  unfold noisy_matrix, bell_matrix.
  replace (((1 - 0) * (1 - 0) + 0 * 0) / 2) with (/ 2) by lra.
  replace (0 * (1 - 0)) with 0 by lra. reflexivity.
Qed.

End NoiseMore.

(** X12: for every list of probabilities between 0 and 1, [fidelities]
    returns, entry by entry, the number [(1 - p)^2 + p^2] rounded to five
    decimals. *)
Theorem fidelities_formula (probs : list R) :
  Forall (fun p => 0 <= p <= 1) probs ->
  Noise.fidelities probs
  = Py.Ok (map (fun p => Np.round_ 5 ((1 - p) * (1 - p) + p * p)) probs).
Proof. apply fidelities_ok. Qed.

Lemma fidelities_formula_witness :
  Forall (fun p => 0 <= p <= 1) [0; 1 / 2; 1] /\
  Noise.fidelities [0; 1 / 2; 1]
  = Py.Ok (map (fun p => Np.round_ 5 ((1 - p) * (1 - p) + p * p)) [0; 1 / 2; 1]).
Proof.
  assert (H : Forall (fun p => 0 <= p <= 1) [0; 1 / 2; 1]) by (repeat constructor; lra).
  split; [exact H | apply (fidelities_formula _ H)].
Defined.

(** X13: when one of the probabilities is below 0 or above 1,
    [fidelities] raises the [ValueError] of [qml.BitFlip] and returns no
    list. *)
Theorem fidelities_rejects_probability (probs : list R) :
  Exists (fun p => ~ 0 <= p <= 1) probs ->
  exists msg, Noise.fidelities probs = Py.Raise (Py.mkExn Py.ValueError msg).
Proof. intros H. eexists. apply fidelities_raise, H. Qed.

Lemma fidelities_rejects_probability_witness :
  Exists (fun p => ~ 0 <= p <= 1) [0.5; 1.5] /\
  exists msg, Noise.fidelities [0.5; 1.5] = Py.Raise (Py.mkExn Py.ValueError msg).
Proof.
  assert (H : Exists (fun p => ~ 0 <= p <= 1) [0.5; 1.5])
    by (apply Exists_cons_tl, Exists_cons_hd; lra).
  split; [exact H | apply (fidelities_rejects_probability _ H)].
Defined.

(** X14: for probabilities between 0 and 1, [fidelities] returns one
    entry for each probability, and every entry lies between 0.5 and 1. *)
Theorem fidelities_range (probs : list R) :
  Forall (fun p => 0 <= p <= 1) probs ->
  exists fids,
    Noise.fidelities probs = Py.Ok fids
    /\ List.length fids = List.length probs
    /\ Forall (fun f => 1 / 2 <= f <= 1) fids.
Proof.
  intros H. eexists. split; [apply fidelities_ok, H|]. split; [apply length_map|].
  rewrite Forall_map. eapply Forall_impl; [|exact H].
  intros p Hp. cbv beta in *. split.
  - apply Rle_trans with (IZR 50000 / 10 ^ 5); [simpl; lra|].
    apply round_lower. replace (IZR 50000 / 10 ^ 5) with (1 / 2) by (simpl; lra).
    generalize (Rle_0_sqr (2 * p - 1)). unfold Rsqr. lra.
  - apply Rle_trans with (IZR 100000 / 10 ^ 5); [|simpl; lra].
    apply round_upper. replace (IZR 100000 / 10 ^ 5) with 1 by (simpl; lra).
    assert (0 <= p * (1 - p)) by (apply Rmult_le_pos; lra). lra.
Qed.

Lemma fidelities_range_witness :
  Forall (fun p => 0 <= p <= 1) [0.3] /\
  exists fids,
    Noise.fidelities [0.3] = Py.Ok fids
    /\ List.length fids = List.length [0.3]
    /\ Forall (fun f => 1 / 2 <= f <= 1) fids.
Proof.
  assert (H : Forall (fun p => 0 <= p <= 1) [0.3]) by (repeat constructor; lra).
  split; [exact H | apply (fidelities_range _ H)].
Defined.

(** X15: for a probability between 0 and 1, [bitflip_circuit(p)] returns
    a density matrix: four rows of four entries, with
    [((1-p)^2 + p^2)/2] at the corners and [p(1-p)] in the middle block,
    positive semi-definite and of trace one. *)
Theorem bitflip_circuit_density_matrix (p : R) :
  0 <= p <= 1 ->
  exists rho,
    Noise.bitflip_circuit p = Py.Ok rho
    /\ rho = Noise.noisy_matrix p
    /\ List.length rho = 4%nat /\ Forall (fun row => List.length row = 4%nat) rho
    /\ Mixed.psd 4 (Mixed.mentry rho)
    /\ Mixed.mtrace 4 (Mixed.mentry rho) = Cx.C1.
Proof.
  intros Hp. exists (Noise.noisy_matrix p).
  split; [apply bitflip_circuit_value, Hp|]. split; [reflexivity|]. split; [reflexivity|].
  split; [repeat constructor|]. split; [apply noisy_matrix_psd, Hp | apply noisy_matrix_trace].
Qed.

Lemma bitflip_circuit_density_matrix_witness :
  0 <= 1 / 4 <= 1 /\
  exists rho,
    Noise.bitflip_circuit (1 / 4) = Py.Ok rho
    /\ rho = Noise.noisy_matrix (1 / 4)
    /\ List.length rho = 4%nat /\ Forall (fun row => List.length row = 4%nat) rho
    /\ Mixed.psd 4 (Mixed.mentry rho)
    /\ Mixed.mtrace 4 (Mixed.mentry rho) = Cx.C1.
Proof.
  assert (H : 0 <= 1 / 4 <= 1) by lra.
  split; [exact H | apply (bitflip_circuit_density_matrix _ H)].
Defined.

(** X16: without noise the two circuits agree, [bitflip_circuit(0)] is
    [circuit()]; so they do when both bits are flipped with certainty,
    [bitflip_circuit(1)] is [circuit()]; and [bitflip_circuit(1 - p)] is
    [bitflip_circuit(p)] for every [p]. *)
Theorem bitflip_circuit_symmetry :
  Noise.bitflip_circuit 0 = Noise.circuit
  /\ Noise.bitflip_circuit 1 = Noise.circuit
  /\ (forall p, Noise.bitflip_circuit (1 - p) = Noise.bitflip_circuit p).
Proof.
  split; [|split].
  - rewrite bitflip_circuit_value, noise_circuit_value by lra. f_equal. apply noisy_matrix_0.
  - rewrite bitflip_circuit_value, noise_circuit_value by lra. f_equal.
    replace 1 with (1 - 0) at 1 by lra. rewrite noisy_matrix_sym. apply noisy_matrix_0.
  - intros p. destruct (Rle_dec 0 p) as [H0|H0]; [destruct (Rle_dec p 1) as [H1|H1]|].
    + rewrite !bitflip_circuit_value by lra. f_equal. apply noisy_matrix_sym.
    + rewrite !bitflip_circuit_rejects by lra. reflexivity.
    + rewrite !bitflip_circuit_rejects by lra. reflexivity.
Qed.

(* ------------------------------------------------------------------ *)
(** ** qRAM with fewer or more than eight angles *)

Section QRAMMore.
Import Cx Mat2 Sim QRAM Py Norm.

Lemma wires_ok_block_16 a theta : (a < 16)%nat -> wires_ok 4 (block a theta) = true.
Proof. intros Ha. do 16 (destruct a as [|a]; [reflexivity|]). lia. Qed.

(** Address 16 is [10000] in binary: its PauliX layer asks for wire 4. *)
Lemma wires_ok_block_at_16 theta : wires_ok 4 (block 16 theta) = false.
Proof. reflexivity. Qed.

Lemma in_enumerate {A} (l : list A) : forall k i t,
  nth_error l i = Some t -> In ((k + i)%nat, t) (combine (seq k (List.length l)) l).
Proof.
  induction l as [|x l IH]; intros k [|i] t H; try discriminate.
  - injection H as ->. rewrite Nat.add_0_r. left; reflexivity.
  - right. replace (k + S i)%nat with (S k + i)%nat by lia. apply IH, H.
Qed.

Lemma wires_ok_flat_map_false {A} n (f : A -> list op) l x :
  In x l -> wires_ok n (f x) = false -> wires_ok n (flat_map f l) = false.
Proof.
  induction l as [|y l IH]; intros Hin Hx; [contradiction|].
  cbn [flat_map]. rewrite wires_ok_app. destruct Hin as [->|Hin].
  - rewrite Hx. reflexivity.
  - rewrite (IH Hin Hx). apply andb_false_r.
Qed.

Lemma wires_ok_circuit_16 thetas :
  wires_ok 4 (circuit thetas) = Nat.leb (List.length thetas) 16.
Proof.
  unfold circuit. rewrite wires_ok_app.
  replace (wires_ok 4 (map Hadamard (seq 0 3))) with true by reflexivity. cbn [andb].
  destruct (Nat.leb _ _) eqn:Hle.
  - apply Nat.leb_le in Hle. apply wires_ok_flat_map. intros [a t] Hin. cbn [fst snd].
    apply wires_ok_block_16. unfold enumerate in Hin.
    apply in_combine_l, in_seq in Hin. lia.
  - apply Nat.leb_gt in Hle.
    destruct (nth_error thetas 16) as [t|] eqn:Ht.
    + apply (wires_ok_flat_map_false 4 _ _ (16%nat, t)).
      * apply (in_enumerate thetas 0 16 t Ht).
      * apply wires_ok_block_at_16.
    + apply nth_error_None in Ht. lia.
Qed.

Lemma unitary_op_x_layer s : Forall unitary_op (x_layer s).
Proof.
  unfold x_layer. apply Forall_flat_map, Forall_forall. intros [i j] _. cbn [fst snd].
  destruct (Ascii.eqb j "0"); repeat constructor; try apply unitary_PauliX. intros [].
Qed.

Lemma unitary_op_ccc_ry theta : Forall unitary_op (ccc_ry theta).
Proof.
  unfold ccc_ry, CRY, Toffoli, CNOT. cbn [inv]. rewrite !adjoint_RY.
  repeat constructor; cbn [op_matrix wires];
    try apply unitary_RY; try apply unitary_PauliX; distinct_wires.
Qed.

Lemma unitary_op_circuit thetas : Forall unitary_op (circuit thetas).
Proof.
  unfold circuit. rewrite Forall_app. split.
  - repeat constructor; try apply unitary_Hadamard; intros [].
  - apply Forall_flat_map, Forall_forall. intros [a t] _. unfold block.
    rewrite !Forall_app. auto using unitary_op_x_layer, unitary_op_ccc_ry.
Qed.

(** [X RY(theta) X = RY(- theta)] on the pair of amplitudes. *)
Lemma row_act_RY_flip theta r z0 z1 :
  row_act (Mat2.RY theta) (negb r) z1 z0 = row_act (Mat2.RY (- theta)) r z0 z1.
Proof.
  unfold row_act, Mat2.RY. replace (- theta / 2) with (- (theta / 2)) by lra.
  rewrite cos_neg, sin_neg. destruct z0, z1, r; simpl; lca.
Qed.

(** Addresses 8 to 15 have four binary digits [1 a0 a1 a2]: the PauliX
    layers act on wires 1 and 2 where [a0] and [a1] are 0 and on the target
    wire 3 where [a2] is 0, so that the block is a rotation of wire 3 where
    wires 0, 1, 2 hold [1 a0 a1], by [theta] or by [- theta]. *)
Lemma block_high_spec a0 a1 a2 theta psi b0 b1 b2 b3 :
  run_ops (block (8 + address_of a0 a1 a2) theta) psi [b0; b1; b2; b3]
  = addressed_RY true a0 a1 (if a2 then theta else - theta) psi [b0; b1; b2; b3].
Proof.
  unfold block. rewrite !run_ops_app.
  destruct a0, a1, a2;
    cbn [address_of Nat.b2n Nat.mul Nat.add format_03b N.of_nat Pos.of_succ_nat Pos.succ
         bin_pos app List.length Nat.sub repeat x_layer enumerate combine seq flat_map
         fst snd Ascii.eqb Bool.eqb];
    unfold PauliX; rewrite (run_ops_rev _ (run_ops _ _)); cbn [rev app fold_right];
    destruct b0, b1, b2, b3; repeat step_op; rewrite ccc_ry_spec;
    unfold addressed_RY, apply1; cbn [andb Bool.eqb bit set_bit];
    rewrite ?run_ops_rev; cbn [rev app fold_right]; repeat step_op;
    first [ reflexivity
          | apply (row_act_RY_flip theta true)
          | apply (row_act_RY_flip theta false) ].
Qed.

End QRAMMore.

Ltac name_blocks :=
  change (QRAM.block 8) with (QRAM.block (8 + QRAM.address_of false false false));
  change (QRAM.block 9) with (QRAM.block (8 + QRAM.address_of false false true));
  change (QRAM.block 10) with (QRAM.block (8 + QRAM.address_of false true false));
  change (QRAM.block 11) with (QRAM.block (8 + QRAM.address_of false true true));
  change (QRAM.block 12) with (QRAM.block (8 + QRAM.address_of true false false));
  change (QRAM.block 13) with (QRAM.block (8 + QRAM.address_of true false true));
  change (QRAM.block 14) with (QRAM.block (8 + QRAM.address_of true true false));
  change (QRAM.block 15) with (QRAM.block (8 + QRAM.address_of true true true));
  change (QRAM.block 0) with (QRAM.block (QRAM.address_of false false false));
  change (QRAM.block 1) with (QRAM.block (QRAM.address_of false false true));
  change (QRAM.block 2) with (QRAM.block (QRAM.address_of false true false));
  change (QRAM.block 3) with (QRAM.block (QRAM.address_of false true true));
  change (QRAM.block 4) with (QRAM.block (QRAM.address_of true false false));
  change (QRAM.block 5) with (QRAM.block (QRAM.address_of true false true));
  change (QRAM.block 6) with (QRAM.block (QRAM.address_of true true false));
  change (QRAM.block 7) with (QRAM.block (QRAM.address_of true true true)).

(** One amplitude of the final state: the blocks, last first, then the
    Hadamard layer. *)
Ltac qram_amplitude :=
  repeat (first [rewrite block_high_spec | rewrite block_spec];
          unfold QRAM.addressed_RY, Sim.apply1;
          cbn [andb Bool.eqb Sim.bit Sim.set_bit]);
  rewrite ?row_act_RY_compose, ?hadamard_layer, ?row_act_RY_ket;
  first [ reflexivity
        | unfold Cx.RtoC; do 3 f_equal; lra
        | match goal with
          | |- context [cos (?b / 2)] => replace (b / 2) with 0 by lra; rewrite cos_0
          | |- context [sin (?b / 2)] => replace (b / 2) with 0 by lra; rewrite sin_0
          end;
          unfold Cx.C0, Cx.RtoC; f_equal; lra ].

Ltac qram_state :=
  unfold QRAM.qRAM, Sim.execute;
  match goal with
  | |- context [Sim.wires_ok 4 ?c] => replace (Sim.wires_ok 4 c) with true by reflexivity
  end;
  cbn [Py.bind]; f_equal;
  unfold QRAM.circuit, QRAM.enumerate;
  cbn [List.length combine flat_map fst snd];
  change (seq 0 0) with (@nil nat);
  repeat match goal with
         | |- context [seq 0 (S ?n)] =>
             let l := eval cbv in (seq 0 (S n)) in change (seq 0 (S n)) with l
         end;
  cbn [combine flat_map fst snd]; name_blocks;
  rewrite ?app_nil_r, ?run_ops_app;
  cbn [Sim.state_vector Sim.all_basis map app QRAM.addressed_state flat_map nth repeat
       Nat.sub List.length];
  repeat (apply f_equal2; [qram_amplitude|]);
  reflexivity.

(** X17: [qRAM] accepts up to sixteen angles and then returns sixteen
    amplitudes; with seventeen or more, the PauliX layer of address 16
    asks for a wire the device does not have, and [qRAM] raises
    [WireError]. *)
Theorem qRAM_capacity (thetas : list R) :
  match QRAM.qRAM thetas with
  | Py.Ok amps => (List.length thetas <= 16)%nat /\ List.length amps = 16%nat
  | Py.Raise e => (16 < List.length thetas)%nat /\ Py.exn_cls e = Py.WireError
  end.
Proof.
  unfold QRAM.qRAM, Sim.execute. rewrite wires_ok_circuit_16.
  destruct (Nat.leb _ _) eqn:Hle; cbn [Py.bind].
  - apply Nat.leb_le in Hle. split; [exact Hle | reflexivity].
  - apply Nat.leb_gt in Hle. split; [exact Hle | reflexivity].
Qed.

(** X18: with fewer than eight angles the addresses without an angle keep
    the amplitudes of the angle 0: [qRAM] returns the state of the list
    padded with zeros to eight angles. *)
Theorem qRAM_missing_angles (thetas : list R) :
  (List.length thetas <= 8)%nat ->
  QRAM.qRAM thetas
  = Py.Ok (QRAM.addressed_state (thetas ++ repeat 0 (8 - List.length thetas))).
Proof.
  intros Hlen.
  destruct thetas as [|t0 [|t1 [|t2 [|t3 [|t4 [|t5 [|t6 [|t7 [|t8 l]]]]]]]]];
    [qram_state .. | cbn in Hlen; lia].
Qed.

Lemma qRAM_missing_angles_witness :
  (List.length [1; 2; 3] <= 8)%nat /\
  QRAM.qRAM [1; 2; 3]
  = Py.Ok (QRAM.addressed_state ([1; 2; 3] ++ repeat 0 (8 - List.length [1; 2; 3]))).
Proof.
  split; [cbn; lia | apply (qRAM_missing_angles [1; 2; 3]); cbn; lia].
Defined.

(** X19: angles beyond the eighth get no address of their own.  The
    addresses 8 to 15 have four binary digits, [1 a0 a1 a2], and their
    blocks rotate the addresses 4 to 7 again: for up to sixteen angles
    [qRAM] returns the state of eight angles in which the angles 8, 10, 12
    and 14 are subtracted from, and the angles 9, 11, 13 and 15 added to,
    the angles 4, 5, 6 and 7 (an angle that is not given counts as 0). *)
Theorem qRAM_extra_angles (thetas : list R) :
  (List.length thetas <= 16)%nat ->
  let t i := nth i thetas 0 in
  QRAM.qRAM thetas
  = Py.Ok (QRAM.addressed_state
             [t 0%nat; t 1%nat; t 2%nat; t 3%nat;
              t 4%nat - t 8%nat + t 9%nat; t 5%nat - t 10%nat + t 11%nat;
              t 6%nat - t 12%nat + t 13%nat; t 7%nat - t 14%nat + t 15%nat]).
Proof.
  intros Hlen t. subst t.
  do 17 (destruct thetas as [|? thetas]; [qram_state|]).
  cbn in Hlen; lia.
Qed.

Lemma qRAM_extra_angles_witness :
  (List.length [1; 2; 3; 4; 5; 6; 7; 8; 9] <= 16)%nat /\
  QRAM.qRAM [1; 2; 3; 4; 5; 6; 7; 8; 9]
  = Py.Ok (QRAM.addressed_state [1; 2; 3; 4; 5 - 9 + 0; 6 - 0 + 0; 7 - 0 + 0; 8 - 0 + 0]).
Proof.
  split; [cbn; lia | apply (qRAM_extra_angles [1; 2; 3; 4; 5; 6; 7; 8; 9]); cbn; lia].
Defined.

(** X20: whenever [qRAM] returns, the squared moduli of the amplitudes
    add up to one. *)
Theorem qRAM_normalised (thetas : list R) (amps : list Cx.C) :
  QRAM.qRAM thetas = Py.Ok amps ->
  fold_right Rplus 0 (map Cx.Cnorm2 amps) = 1.
Proof.
  unfold QRAM.qRAM. destruct (Sim.execute 4 _) as [psi|] eqn:E; [|discriminate].
  cbn [Py.bind]. intros H. injection H as <-.
  rewrite sum_state_vector. eapply execute_norm; [|exact E]. apply unitary_op_circuit.
Qed.

Lemma qRAM_normalised_witness :
  exists amps, QRAM.qRAM [1; 2; 3] = Py.Ok amps
               /\ fold_right Rplus 0 (map Cx.Cnorm2 amps) = 1.
Proof.
  eexists. split; [reflexivity|].
  apply (qRAM_normalised [1; 2; 3]). reflexivity.
Defined.

(* ------------------------------------------------------------------ *)
(** ** The harness over a list of test cases *)

Section HarnessMore.
Import Py Harness.

Lemma harness_from_correct run check tests : forall i w,
  (forall input_ expd, In (input_, expd) tests ->
     exists output, run input_ = Ok output /\ check output expd = Ok PyNone) ->
  harness_from run check i tests w
  = (Ok tt,
     mkWorld (stdin w)
       (stdout w ++ flat_map (fun it => [running_line (fst it) (fst (snd it));
                                         "Correct!"%string])
                      (combine (seq i (List.length tests)) tests))).
Proof.
  induction tests as [|[input_ expd] rest IH]; intros i w H.
  - cbn. rewrite app_nil_r. destruct w; reflexivity.
  - destruct (H input_ expd (or_introl eq_refl)) as [output [Hr Hc]].
    cbn [harness_from]. unfold pbind at 1.
    rewrite (test_case_check_none run check i input_ expd output w Hr Hc).
    rewrite IH by (intros a b Hin; apply H; right; exact Hin).
    cbn [stdin stdout List.length seq combine flat_map fst snd].
    rewrite <- app_assoc. reflexivity.
Qed.

End HarnessMore.

(** X21: when every test case runs and passes its check, the harness
    prints, for each test case in order, the line "Running test case i
    with input '...'..." with its index and the line "Correct!", reads no
    input and ends normally. *)
Theorem harness_all_correct (run : string -> Py.result string)
    (check : string -> string -> Py.result Py.pyval) (tests : list (string * string))
    (w : Py.world) :
  (forall input_ expected_output, In (input_, expected_output) tests ->
     exists output, run input_ = Py.Ok output
                    /\ check output expected_output = Py.Ok Py.PyNone) ->
  Harness.harness run check tests w
  = (Py.Ok tt,
     Py.mkWorld (Py.stdin w)
       (Py.stdout w
        ++ flat_map (fun it => [Harness.running_line (fst it) (fst (snd it));
                                "Correct!"%string])
             (QRAM.enumerate tests))).
Proof. intros H. apply harness_from_correct, H. Qed.

Lemma harness_all_correct_witness :
  (forall input_ expected_output,
      In (input_, expected_output) [("a", "b"); ("c", "d")]%string ->
      exists output, (fun s : string => Py.Ok s) input_ = Py.Ok output
                     /\ (fun _ _ : string => Py.Ok Py.PyNone) output expected_output
                        = Py.Ok Py.PyNone)
  /\ Harness.harness (fun s => Py.Ok s) (fun _ _ => Py.Ok Py.PyNone)
       [("a", "b"); ("c", "d")]%string (Py.mkWorld "" [])
     = (Py.Ok tt,
        Py.mkWorld ""
          ["Running test case 0 with input 'a'..."; "Correct!";
           "Running test case 1 with input 'c'..."; "Correct!"]%string).
Proof.
  assert (H : forall input_ expected_output,
             In (input_, expected_output) [("a", "b"); ("c", "d")]%string ->
             exists output, (fun s : string => Py.Ok s) input_ = Py.Ok output
                            /\ (fun _ _ : string => Py.Ok Py.PyNone) output expected_output
                               = Py.Ok Py.PyNone).
  { intros input_ expd _. exists input_. split; reflexivity. }
  split; [exact H|].
  apply (harness_all_correct (fun s => Py.Ok s) (fun _ _ => Py.Ok Py.PyNone)
           [("a", "b"); ("c", "d")]%string (Py.mkWorld "" []) H).
Defined.

(** X22: when [run] raises on a test case, an exception of class
    [Exception] is reported on a "Runtime Error" line with its message and
    the loop goes on with the next test case; an exception outside that
    class ([KeyboardInterrupt], [SystemExit]) is not caught and ends the
    loop after the "Running test case" line. *)
Theorem harness_runtime_error (run : string -> Py.result string)
    (check : string -> string -> Py.result Py.pyval) (i : nat)
    (input_ expected_output : string) (rest : list (string * string))
    (e : Py.exn) (w : Py.world) :
  run input_ = Py.Raise e ->
  Harness.harness_from run check i ((input_, expected_output) :: rest) w
  = if Py.is_Exception e
    then Harness.harness_from run check (S i) rest
           (Py.mkWorld (Py.stdin w)
              (Py.stdout w ++ [Harness.running_line i input_;
                               ("Runtime Error. " ++ Py.exn_str e)%string]))
    else (Py.Raise e,
          Py.mkWorld (Py.stdin w) (Py.stdout w ++ [Harness.running_line i input_])).
Proof.
  intros Hr. cbn [Harness.harness_from]. unfold Py.pbind at 1.
  destruct (Py.is_Exception e) eqn:He.
  - rewrite (test_case_runtime_error run check i input_ expected_output e w Hr He).
    reflexivity.
  - unfold Harness.test_case, Py.pbind, Py.print, Py.lift. cbn. rewrite Hr, He. reflexivity.
Qed.

Lemma harness_runtime_error_witness :
  (fun _ : string => @Py.Raise string (Py.mkExn Py.ValueError "bad input")) "a"%string
  = Py.Raise (Py.mkExn Py.ValueError "bad input")
  /\ Harness.harness_from (fun _ => Py.Raise (Py.mkExn Py.ValueError "bad input"))
       (fun _ _ => Py.Ok Py.PyNone) 0 [("a", "b"); ("c", "d")]%string (Py.mkWorld "" [])
     = Harness.harness_from (fun _ => Py.Raise (Py.mkExn Py.ValueError "bad input"))
         (fun _ _ => Py.Ok Py.PyNone) 1 [("c", "d")]%string
         (Py.mkWorld ""
            ["Running test case 0 with input 'a'..."; "Runtime Error. bad input"]%string).
Proof.
  split; [reflexivity|].
  apply (harness_runtime_error (fun _ => Py.Raise (Py.mkExn Py.ValueError "bad input"))
           (fun _ _ => Py.Ok Py.PyNone) 0 "a" "b" [("c", "d")]%string
           (Py.mkExn Py.ValueError "bad input") (Py.mkWorld "" []) eq_refl).
Defined.

(* ------------------------------------------------------------------ *)
(** ** The noise-free circuit and the qRAM script's output line *)

(** X23: [circuit()] returns the density matrix of the Bell state
    [(|00> + |11>) / sqrt 2]: the four-by-four matrix with 1/2 at the four
    corners and 0 elsewhere, which is the projector on that state. *)
Theorem noise_circuit_bell :
  Noise.circuit = Py.Ok Noise.bell_matrix
  /\ (forall i j, (i < 4)%nat -> (j < 4)%nat ->
        Mixed.mentry Noise.bell_matrix i j = Mixed.outer Noise.bell_ket i j)
  /\ Mixed.dot 4 Noise.bell_ket Noise.bell_ket = Cx.C1.
Proof.
  split; [apply noise_circuit_value|]. split; [apply bell_matrix_outer|].
  unfold Mixed.dot. sum4. cbn [Noise.bell_ket].
  apply C_eq; csimpl; generalize inv_sqrt2_sq; intros; lra.
Qed.

Lemma main_after_parse rt w thetas :
  Py.mapM (Py.float_of_string rt) (Py.split_comma (Py.stdin w)) = Py.Ok thetas ->
  QRAMScript.main rt w
  = match QRAM.qRAM thetas with
    | Py.Raise e => (Py.Raise e, Py.mkWorld "" (Py.stdout w))
    | Py.Ok amps =>
        (Py.Ok tt,
         Py.mkWorld "" (Py.stdout w ++
           [Py.join "," (map (Py.str_float rt)
                           (map (fun z => Np.round_ 6 (Cx.Re z)) amps))]))
    end.
Proof.
  intros H. unfold QRAMScript.main, Py.pbind, Py.stdin_read, Py.lift, Py.print.
  cbn [Py.stdin Py.stdout]. rewrite H.
  destruct (QRAM.qRAM thetas) as [amps|e]; reflexivity.
Qed.

(** X24: when the fields of standard input convert to floats, the script
    prints one line of sixteen comma-separated numbers if there are at
    most sixteen fields, and prints nothing and ends with [WireError] if
    there are more. *)
Theorem main_sixteen_fields (rt : Py.runtime) (w : Py.world) (thetas : list R) :
  Py.mapM (Py.float_of_string rt) (Py.split_comma (Py.stdin w)) = Py.Ok thetas ->
  if Nat.leb (List.length thetas) 16
  then exists fields,
         List.length fields = 16%nat
         /\ QRAMScript.main rt w
            = (Py.Ok tt, Py.mkWorld "" (Py.stdout w ++ [Py.join "," fields]))
  else exists e,
         Py.exn_cls e = Py.WireError
         /\ QRAMScript.main rt w = (Py.Raise e, Py.mkWorld "" (Py.stdout w)).
Proof.
  intros H. rewrite (main_after_parse rt w thetas H).
  unfold QRAM.qRAM, Sim.execute. rewrite wires_ok_circuit_16.
  destruct (Nat.leb _ _); cbn [Py.bind].
  - eexists. split; [|reflexivity]. rewrite !length_map. reflexivity.
  - eexists. split; [|reflexivity]. reflexivity.
Qed.

Lemma main_sixteen_fields_witness :
  Py.mapM (Py.float_of_string fourier_runtime)
    (Py.split_comma (Py.stdin (Py.mkWorld "1,2" []))) = Py.Ok [0; 0]
  /\ exists fields,
       List.length fields = 16%nat
       /\ QRAMScript.main fourier_runtime (Py.mkWorld "1,2" [])
          = (Py.Ok tt, Py.mkWorld "" ([] ++ [Py.join "," fields])).
Proof.
  split; [reflexivity|].
  apply (main_sixteen_fields fourier_runtime (Py.mkWorld "1,2" []) [0; 0] eq_refl).
Defined.

(* ------------------------------------------------------------------ *)
(** ** The gradient circuit, and parameters with the same matrix *)

(** X25: the gradient notebook's [circuit(params)] reads its first two
    parameters only: it raises [IndexError] on fewer than two, and returns
    [cos params[0] + cos params[1]], a number between -2 and 2, on two or
    more. *)
Theorem gradients_circuit_any_length (params : list R) :
  Gradients.circuit params
  = match params with
    | theta_0 :: theta_1 :: _ => Py.Ok (cos theta_0 + cos theta_1)
    | _ => Py.Raise (Py.mkExn Py.IndexError "list index out of range")
    end
  /\ (forall v, Gradients.circuit params = Py.Ok v -> -2 <= v <= 2).
Proof.
  assert (E : Gradients.circuit params
              = match params with
                | theta_0 :: theta_1 :: _ => Py.Ok (cos theta_0 + cos theta_1)
                | _ => Py.Raise (Py.mkExn Py.IndexError "list index out of range")
                end).
  { destruct params as [|theta_0 [|theta_1 rest]]; try reflexivity.
    exact (circuit_value theta_0 theta_1). }
  split; [exact E|]. rewrite E. intros v.
  destruct params as [|theta_0 [|theta_1 rest]]; try discriminate.
  intros H. injection H as <-.
  generalize (COS_bound theta_0) (COS_bound theta_1). lra.
Qed.

(** X26: the parameters of a matrix are not unique: adding [2 pi] to
    [alpha] and [pi] to [phi], or [2 pi] to [phi], leaves
    [get_matrix(params)] unchanged. *)
Theorem get_matrix_not_injective (alpha beta gamma phi : R) :
  Universality.get_matrix [alpha + 2 * PI; beta; gamma; phi + PI]
  = Universality.get_matrix [alpha; beta; gamma; phi]
  /\ Universality.get_matrix [alpha; beta; gamma; phi + 2 * PI]
     = Universality.get_matrix [alpha; beta; gamma; phi].
Proof.
  rewrite !get_matrix_entries. split; f_equal.
  - replace (phi + PI - (alpha + 2 * PI) / 2 - gamma / 2)
      with (phi - alpha / 2 - gamma / 2) by lra.
    replace (phi + PI - (alpha + 2 * PI) / 2 + gamma / 2 - PI / 2)
      with (phi - alpha / 2 + gamma / 2 - PI / 2) by lra.
    replace (phi + PI + (alpha + 2 * PI) / 2 - gamma / 2 - PI / 2)
      with (phi + alpha / 2 - gamma / 2 - PI / 2 + 2 * PI) by lra.
    replace (phi + PI + (alpha + 2 * PI) / 2 + gamma / 2)
      with (phi + alpha / 2 + gamma / 2 + 2 * PI) by lra.
    rewrite !Cscale_exp.
    rewrite !(cos_plus _ (2 * PI)), !(sin_plus _ (2 * PI)), cos_2PI, sin_2PI.
    apply M2_eq; cbn [Mat2.m00 Mat2.m01 Mat2.m10 Mat2.m11]; f_equal; ring.
  - replace (phi + 2 * PI - alpha / 2 - gamma / 2)
      with (phi - alpha / 2 - gamma / 2 + 2 * PI) by lra.
    replace (phi + 2 * PI - alpha / 2 + gamma / 2 - PI / 2)
      with (phi - alpha / 2 + gamma / 2 - PI / 2 + 2 * PI) by lra.
    replace (phi + 2 * PI + alpha / 2 - gamma / 2 - PI / 2)
      with (phi + alpha / 2 - gamma / 2 - PI / 2 + 2 * PI) by lra.
    replace (phi + 2 * PI + alpha / 2 + gamma / 2)
      with (phi + alpha / 2 + gamma / 2 + 2 * PI) by lra.
    rewrite !Cscale_exp.
    rewrite !(cos_plus _ (2 * PI)), !(sin_plus _ (2 * PI)), cos_2PI, sin_2PI.
    apply M2_eq; cbn [Mat2.m00 Mat2.m01 Mat2.m10 Mat2.m11]; f_equal; ring.
Qed.

(* ------------------------------------------------------------------ *)
(** ** The notebooks' recorded output *)

Lemma script_one_correct run check input_ expd output w :
  run input_ = Py.Ok output -> check output expd = Py.Ok Py.PyNone ->
  Harness.harness run check [(input_, expd)] w
  = (Py.Ok tt,
     Py.mkWorld (Py.stdin w)
       (Py.stdout w ++ [Harness.running_line 0 input_; "Correct!"%string])).
Proof.
  intros Hr Hc. unfold Harness.harness. cbn [Harness.harness_from]. unfold Py.pbind.
  rewrite (test_case_check_none run check 0 input_ expd output w Hr Hc). reflexivity.
Qed.

Lemma fidelities_value :
  Noise.fidelities [0.05; 0.1; 0.15; 0.2; 0.25] = Py.Ok [0.905; 0.82; 0.745; 0.68; 0.625].
Proof.
  rewrite fidelities_ok by (repeat constructor; lra). cbn [map]. f_equal.
  repeat (apply f_equal2; [|]); try reflexivity.
  - rewrite (round_unique 5 _ 90500); lra.
  - rewrite (round_unique 5 _ 82000); lra.
  - rewrite (round_unique 5 _ 74500); lra.
  - rewrite (round_unique 5 _ 68000); lra.
  - rewrite (round_unique 5 _ 62500); lra.
Qed.

(** X27: the Gradients notebook prints what its output cell records: the
    line "Running test case 0 with input '[[0.75, 1.0], 1.23]'..." and the
    line "Correct!", and it ends normally, for every runtime that decodes
    the input, the printed gradient and the expected output as JSON. *)
Theorem gradients_script_output (rt : Py.runtime) (w : Py.world) :
  Py.json_loads rt "[[0.75, 1.0], 1.23]"
  = Py.Ok (Py.JList [Py.JList [Py.JNum 0.75; Py.JNum 1.0]; Py.JNum 1.23]) ->
  Py.json_loads rt (Py.str_floats rt [-0.68164; -0.84147])
  = Py.Ok (Py.JList [Py.JNum (-0.68164); Py.JNum (-0.84147)]) ->
  Py.json_loads rt "[-0.68164, -0.84147]"
  = Py.Ok (Py.JList [Py.JNum (-0.68164); Py.JNum (-0.84147)]) ->
  GradientsNotebook.script rt w
  = (Py.Ok tt,
     Py.mkWorld (Py.stdin w)
       (Py.stdout w ++ ["Running test case 0 with input '[[0.75, 1.0], 1.23]'...";
                        "Correct!"]%string)).
Proof.
  intros Hin Hout Hexp. unfold GradientsNotebook.script, GradientsNotebook.test_cases.
  rewrite (script_one_correct _ _ _ _ (Py.str_floats rt [-0.68164; -0.84147]) w);
    [reflexivity | apply gradients_run_value, Hin |].
  unfold GradientsNotebook.check.
  apply (check_allclose_passes _ _ _ _ _ (Np.Arr1 [-0.68164; -0.84147])
           (Np.Arr1 [-0.68164; -0.84147])).
  - rewrite Hout. reflexivity.
  - rewrite Hexp. reflexivity.
  - apply allclose_refl; [lra | apply default_atol_pos].
Qed.

Lemma gradients_script_output_witness :
  GradientsNotebook.script gradients_runtime (Py.mkWorld "" [])
  = (Py.Ok tt,
     Py.mkWorld ""
       ["Running test case 0 with input '[[0.75, 1.0], 1.23]'..."; "Correct!"]%string).
Proof.
  apply (gradients_script_output gradients_runtime (Py.mkWorld "" [])); reflexivity.
Defined.

(** X28: the Noise notebook prints what its output cell records: the
    line "Running test case 0 with input '[0.05, 0.1, 0.15, 0.2, 0.25]'..."
    and the line "Correct!", and it ends normally, for every runtime that
    decodes the input, the printed fidelities and the expected output as
    JSON. *)
Theorem noise_script_output (rt : Py.runtime) (w : Py.world) :
  Py.json_loads rt "[0.05, 0.1, 0.15, 0.2, 0.25]"
  = Py.Ok (Py.JList [Py.JNum 0.05; Py.JNum 0.1; Py.JNum 0.15; Py.JNum 0.2; Py.JNum 0.25]) ->
  Py.json_loads rt (Py.str_floats rt [0.905; 0.82; 0.745; 0.68; 0.625])
  = Py.Ok (Py.JList [Py.JNum 0.905; Py.JNum 0.82; Py.JNum 0.745; Py.JNum 0.68;
                     Py.JNum 0.625]) ->
  Py.json_loads rt "[0.905, 0.82, 0.745, 0.68, 0.625]"
  = Py.Ok (Py.JList [Py.JNum 0.905; Py.JNum 0.82; Py.JNum 0.745; Py.JNum 0.68;
                     Py.JNum 0.625]) ->
  NoiseNotebook.script rt w
  = (Py.Ok tt,
     Py.mkWorld (Py.stdin w)
       (Py.stdout w
        ++ ["Running test case 0 with input '[0.05, 0.1, 0.15, 0.2, 0.25]'...";
            "Correct!"]%string)).
Proof.
  intros Hin Hout Hexp. unfold NoiseNotebook.script, NoiseNotebook.test_cases.
  rewrite (script_one_correct _ _ _ _
             (Py.str_floats rt [0.905; 0.82; 0.745; 0.68; 0.625]) w);
    [reflexivity | |].
  - unfold NoiseNotebook.run. rewrite Hin.
    cbn [Py.bind Harness.as_floats Harness.as_float Py.mapM].
    rewrite fidelities_value. reflexivity.
  - unfold NoiseNotebook.check.
    apply (check_allclose_passes _ _ _ _ _ (Np.Arr1 [0.905; 0.82; 0.745; 0.68; 0.625])
             (Np.Arr1 [0.905; 0.82; 0.745; 0.68; 0.625])).
    + rewrite Hout. reflexivity.
    + rewrite Hexp. reflexivity.
    + apply allclose_refl; [lra | apply default_atol_pos].
Qed.

Lemma noise_script_output_witness :
  NoiseNotebook.script noise_runtime (Py.mkWorld "" [])
  = (Py.Ok tt,
     Py.mkWorld ""
       ["Running test case 0 with input '[0.05, 0.1, 0.15, 0.2, 0.25]'...";
        "Correct!"]%string).
Proof.
  apply (noise_script_output noise_runtime (Py.mkWorld "" [])); reflexivity.
Defined.
